(** * The synchronization engine of notion-obsidian-sync

  A shallow embedding of [SyncManager] (sync-manager.ts) together with the
  parts of [NotionAPI] (notion-api.ts) and of the Obsidian vault it drives.

  - JavaScript strings are [string]s: sequences of code units, here the
    8-bit range; the code units above 255, among them the line
    terminators U+2028 and U+2029 and the white space above U+00A0, are
    outside the model.  The string primitives of the runtime that the
    engine calls ([trim], [split], [indexOf], the regular expressions,
    ...) are written out in [JsString].
  - JavaScript numbers are an abstract type [num] with the two conversions
    the engine uses ([String(n)] and [Number(s)]); [NaN] is the [None] of
    [Number].  Dates are epoch milliseconds in [Z].
  - An object used as a record of properties (front-matter, page
    properties) is the association list of its own entries, in insertion
    order.  What an object inherits from [Object.prototype] and the
    place an object gives to keys that are array indices are outside the
    model; the statements that depend on them exclude those keys.
  - The engine is asynchronous but awaits every call, so it is a state and
    exception monad over a [World]: the vault tree, the pages of the remote
    service with their blocks, the console, the clock, the settings and
    the fates of the calls made to the outside. *)

From Stdlib Require Import ZArith Ascii String List Lia Bool DecimalString.
From stdpp Require Import base option list gmap strings.

Local Open Scope string_scope.

(** ** Strings of the runtime *)

Module JsString.

Definition chr (n : nat) : ascii := ascii_of_nat n.

Definition LF : ascii := chr 10.
Definition CR : ascii := chr 13.
Definition DQUOTE : ascii := chr 34.

Definition str1 (c : ascii) : string := String c EmptyString.

(** [\s] and [trim]: white space and line terminators below 256. *)
Definition isWhiteSpace (c : ascii) : bool :=
  let n := N_of_ascii c in
  ((9 <=? n) && (n <=? 13) || (n =? 32) || (n =? 160))%N.

(** What [.] of a regular expression refuses. *)
Definition isLineTerminator (c : ascii) : bool :=
  let n := N_of_ascii c in ((n =? 10) || (n =? 13))%N.

Fixpoint trimStart (s : string) : string :=
  match s with
  | EmptyString => EmptyString
  | String c s' => if isWhiteSpace c then trimStart s' else s
  end.

Fixpoint trimEnd (s : string) : string :=
  match s with
  | EmptyString => EmptyString
  | String c s' =>
      match trimEnd s' with
      | EmptyString => if isWhiteSpace c then EmptyString else str1 c
      | t => String c t
      end
  end.

Definition trim (s : string) : string := trimEnd (trimStart s).

Fixpoint startsWith (p s : string) : bool :=
  match p, s with
  | EmptyString, _ => true
  | String a p', String b s' => Ascii.eqb a b && startsWith p' s'
  | String _ _, EmptyString => false
  end.

Fixpoint endsWith (suf s : string) : bool :=
  if String.eqb s suf then true
  else match s with
       | EmptyString => false
       | String _ s' => endsWith suf s'
       end.

(** [indexOf]: [None] is the [-1] of the runtime. *)
Fixpoint indexOf (pat s : string) : option nat :=
  if startsWith pat s then Some 0
  else match s with
       | EmptyString => None
       | String _ s' => S <$> indexOf pat s'
       end.

Definition includes (pat s : string) : bool :=
  match indexOf pat s with Some _ => true | None => false end.

Fixpoint take (n : nat) (s : string) : string :=
  match n, s with
  | S n', String c s' => String c (take n' s')
  | _, _ => EmptyString
  end.

Fixpoint drop (n : nat) (s : string) : string :=
  match n, s with
  | S n', String _ s' => drop n' s'
  | _, _ => s
  end.

(** [s.substring(a, b)] swaps its bounds when [a > b]. *)
Definition substring (s : string) (a b : nat) : string :=
  take (Nat.max a b - Nat.min a b) (drop (Nat.min a b) s).

(** [s.substring(a)] *)
Definition substringFrom (s : string) (a : nat) : string := drop a s.

Fixpoint dropLast (s : string) : string :=
  match s with
  | EmptyString => EmptyString
  | String c EmptyString => EmptyString
  | String c s' => String c (dropLast s')
  end.

(** [s.slice(1, -1)] *)
Definition sliceInner (s : string) : string := dropLast (drop 1 s).

(** [s.split(sep)] for a separator of one code unit. *)
Fixpoint split (sep : ascii) (s : string) : list string :=
  match s with
  | EmptyString => [EmptyString]
  | String c s' =>
      if Ascii.eqb c sep then EmptyString :: split sep s'
      else match split sep s' with
           | [] => [str1 c]
           | x :: xs => String c x :: xs
           end
  end.

Fixpoint join (sep : string) (l : list string) : string :=
  match l with
  | [] => EmptyString
  | [x] => x
  | x :: xs => x ++ sep ++ join sep xs
  end.

Definition lowerChar (c : ascii) : ascii :=
  let n := N_of_ascii c in
  if ((65 <=? n) && (n <=? 90)
      || (192 <=? n) && (n <=? 222) && negb (n =? 215))%N
  then ascii_of_N (n + 32) else c.

Fixpoint toLowerCase (s : string) : string :=
  match s with
  | EmptyString => EmptyString
  | String c s' => String (lowerChar c) (toLowerCase s')
  end.

Fixpoint filterChars (keep : ascii -> bool) (s : string) : string :=
  match s with
  | EmptyString => EmptyString
  | String c s' =>
      if keep c then String c (filterChars keep s') else filterChars keep s'
  end.

Fixpoint allChars (p : ascii -> bool) (s : string) : bool :=
  match s with
  | EmptyString => true
  | String c s' => p c && allChars p s'
  end.

(** [s.replace(/\s+/g, rep)]; [inRun] tells that the previous code unit
    was white space already replaced. *)
Fixpoint replaceWhiteSpaceRuns (rep : string) (inRun : bool) (s : string)
  : string :=
  match s with
  | EmptyString => EmptyString
  | String c s' =>
      if isWhiteSpace c
      then (if inRun then replaceWhiteSpaceRuns rep true s'
            else rep ++ replaceWhiteSpaceRuns rep true s')
      else String c (replaceWhiteSpaceRuns rep false s')
  end.

(** [s.replace(/\r\n/g, '\n')] *)
Fixpoint replaceCRLF (s : string) : string :=
  match s with
  | EmptyString => EmptyString
  | String c s' =>
      match s' with
      | String d s'' =>
          if Ascii.eqb c CR && Ascii.eqb d LF
          then String LF (replaceCRLF s'')
          else String c (replaceCRLF s')
      | EmptyString => str1 c
      end
  end.

(** The code units removed from a file name: less-than, greater-than,
    colon, double quote, slash, backslash, bar, question mark, star. *)
Definition isInvalidFileChar (c : ascii) : bool :=
  let n := N_of_ascii c in
  ((n =? 60) || (n =? 62) || (n =? 58) || (n =? 34) || (n =? 47)
   || (n =? 92) || (n =? 124) || (n =? 63) || (n =? 42))%N.

(** The replacement of a whole quoted element by its inside: the
    element starts and ends with a double quote and has no line
    terminator in between (the dot of the expression refuses them). *)
Definition stripQuotes (v : string) : string :=
  match v with
  | String q rest =>
      if Ascii.eqb q DQUOTE && endsWith (str1 DQUOTE) rest
         && allChars (fun c => negb (isLineTerminator c)) (dropLast rest)
      then dropLast rest else v
  | EmptyString => v
  end.

(** [content.match(/^---\n([\s\S]*?)\n---\n/)]: the captured group and
    the length of the whole match. *)
Definition fence : string := "---" ++ str1 LF.
Definition closingFence : string := str1 LF ++ "---" ++ str1 LF.

Definition matchFrontmatter (content : string) : option (string * nat) :=
  if startsWith fence content then
    let rest := drop (String.length fence) content in
    match indexOf closingFence rest with
    | Some i =>
        Some (take i rest,
              String.length fence + i + String.length closingFence)
    | None => None
    end
  else None.

(** Decimal text of a length or a count. *)
Definition ofNat (n : nat) : string := NilZero.string_of_uint (Nat.to_uint n).

Definition isEmpty (s : string) : bool :=
  match s with EmptyString => true | _ => false end.

End JsString.

(** ** The numbers and dates of the runtime

  [numOfString] is [Number(s)] with [None] for [NaN]; [numOfBool] is
  [Number(b)]; [numTruthy] is [Boolean(n)].  [dateParse] is
  [new Date(s).getTime()], [None] for an invalid date. *)

Class Runtime (num : Type) := {
numToString : num -> string;
numOfString : string -> option num;
numOfBool : bool -> num;
numTruthy : num -> bool;
dateParse : string -> option Z;
dateToISOString : Z -> string
}.

(** An instance on the integers, for evaluating the engine: the numbers
  are the integers with their decimal numerals (any other text is [NaN]
  here), and the dates are the timestamps of the remote service,
  [YYYY-MM-DDTHH:MM:SS.sssZ]. *)
Module IntRuntime.

Definition toString (z : Z) : string := NilZero.string_of_int (Z.to_int z).

Definition isDigit (c : ascii) : bool :=
  let n := N_of_ascii c in ((48 <=? n) && (n <=? 57))%N.

Definition isNumeral (s : string) : bool :=
  match s with
  | EmptyString => false
  | String c s' =>
      if Ascii.eqb c "-"
      then negb (JsString.isEmpty s') && JsString.allChars isDigit s'
      else JsString.allChars isDigit s
  end.

Definition ofString (s : string) : option Z :=
  let t := JsString.trim s in
  if JsString.isEmpty t then Some 0%Z
  else if isNumeral t
       then Z.of_int <$> NilZero.int_of_string t
       else None.

Definition digits (s : string) : option Z :=
  if negb (JsString.isEmpty s) && JsString.allChars isDigit s
  then Z.of_int <$> NilZero.int_of_string s else None.

Definition padStart (n : nat) (s : string) : string :=
  Nat.iter (n - String.length s) (String "0") s.

Definition daysFromCivil (y m d : Z) : Z :=
  let y' := (if m <=? 2 then y - 1 else y)%Z in
  let era := (y' / 400)%Z in
  let yoe := (y' - era * 400)%Z in
  let mp := (if m <=? 2 then m + 9 else m - 3)%Z in
  let doy := ((153 * mp + 2) / 5 + d - 1)%Z in
  let doe := (yoe * 365 + yoe / 4 - yoe / 100 + doy)%Z in
  (era * 146097 + doe - 719468)%Z.

Definition civilFromDays (z : Z) : Z * Z * Z :=
  let z := (z + 719468)%Z in
  let era := (z / 146097)%Z in
  let doe := (z - era * 146097)%Z in
  let yoe := ((doe - doe / 1460 + doe / 36524 - doe / 146096) / 365)%Z in
  let doy := (doe - (365 * yoe + yoe / 4 - yoe / 100))%Z in
  let mp := ((5 * doy + 2) / 153)%Z in
  let d := (doy - (153 * mp + 2) / 5 + 1)%Z in
  let m := (if mp <? 10 then mp + 3 else mp - 9)%Z in
  let y := (yoe + era * 400 + (if m <=? 2 then 1 else 0))%Z in
  (y, m, d).

Definition field (s : string) (a n : nat) : option Z :=
  digits (JsString.take n (JsString.drop a s)).

Definition sepAt (s : string) (a : nat) (c : string) : bool :=
  String.eqb (JsString.take 1 (JsString.drop a s)) c.

Definition parseDate (s : string) : option Z :=
  if (String.length s =? 24)%nat && sepAt s 4 "-" && sepAt s 7 "-"
     && sepAt s 10 "T" && sepAt s 13 ":" && sepAt s 16 ":"
     && sepAt s 19 "." && sepAt s 23 "Z"
  then
    y ← field s 0 4; m ← field s 5 2; d ← field s 8 2;
    hh ← field s 11 2; mm ← field s 14 2; ss ← field s 17 2;
    ms ← field s 20 3;
    if ((1 <=? m) && (m <=? 12) && (1 <=? d)
        && (d <=? daysFromCivil (if m =? 12 then y + 1 else y)
                                (if m =? 12 then 1 else m + 1) 1
                  - daysFromCivil y m 1)
        && (hh <=? 23) && (mm <=? 59) && (ss <=? 59))%Z
    then Some ((((daysFromCivil y m d * 24 + hh) * 60 + mm) * 60 + ss)
               * 1000 + ms)%Z
    else None
  else None.

Definition two (z : Z) : string := padStart 2 (toString z).

Definition toISOString (t : Z) : string :=
  let day := (t / 86400000)%Z in
  let ms := (t mod 86400000)%Z in
  let '(y, m, d) := civilFromDays day in
  let year :=
    if ((0 <=? y) && (y <=? 9999))%Z then padStart 4 (toString y)
    else if (y <? 0)%Z then "-" ++ padStart 6 (toString (- y))
         else "+" ++ padStart 6 (toString y) in
  year ++ "-" ++ two m ++ "-" ++ two d ++ "T"
    ++ two (ms / 3600000) ++ ":" ++ two (ms / 60000 mod 60) ++ ":"
    ++ two (ms / 1000 mod 60) ++ "." ++ padStart 3 (toString (ms mod 1000))
    ++ "Z".

Definition instance : Runtime Z := {|
  numToString := toString;
  numOfString := ofString;
  numOfBool := fun b => if b then 1%Z else 0%Z;
  numTruthy := fun z => negb (z =? 0)%Z;
  dateParse := parseDate;
  dateToISOString := toISOString
|}.

End IntRuntime.

(** ** Data model (types.ts) *)

Module SyncDirection.
Definition BIDIRECTIONAL : string := "bidirectional".
Definition NOTION_TO_OBSIDIAN : string := "notion-to-obsidian".
Definition OBSIDIAN_TO_NOTION : string := "obsidian-to-notion".
End SyncDirection.

Record FieldMapping := {
notionProperty : string;
obsidianProperty : string;
type : string
}.

Record SyncConfig := {
config_id : string;
config_name : string;
obsidianFolder : string;
notionDatabaseId : string;
syncDirection : string;
syncMode : string;
fieldMappings : list FieldMapping;
lastSync : Z;
enabled : bool
}.

Record NotionSyncSettings := {
notionToken : string;
syncConfigs : list SyncConfig;
defaultSyncMode : string;
syncInterval : Z;
autoSync : bool;
conflictResolution : string
}.

Definition set_lastSync (t : Z) (c : SyncConfig) : SyncConfig :=
{| config_id := config_id c; config_name := config_name c;
   obsidianFolder := obsidianFolder c;
   notionDatabaseId := notionDatabaseId c;
   syncDirection := syncDirection c; syncMode := syncMode c;
   fieldMappings := fieldMappings c; lastSync := t;
   enabled := enabled c |}.

Definition set_syncConfigs (cs : list SyncConfig) (s : NotionSyncSettings)
: NotionSyncSettings :=
{| notionToken := notionToken s; syncConfigs := cs;
   defaultSyncMode := defaultSyncMode s; syncInterval := syncInterval s;
   autoSync := autoSync s; conflictResolution := conflictResolution s |}.

(** An object read as a record of entries, in insertion order. *)
Definition Obj (V : Type) : Type := list (string * V).

Fixpoint obj_get {V} (k : string) (o : Obj V) : option V :=
match o with
| [] => None
| (k', v) :: o' => if String.eqb k' k then Some v else obj_get k o'
end.

(** [o[k] = v]: an existing entry keeps its place. *)
Fixpoint obj_set {V} (k : string) (v : V) (o : Obj V) : Obj V :=
match o with
| [] => [(k, v)]
| (k', v') :: o' =>
    if String.eqb k' k then (k, v) :: o' else (k', v') :: obj_set k v o'
end.

(** [o[k] = v] on an object made by a literal [{}]: __proto__ names the
    accessor of the prototype, and an assignment to it makes no entry. *)
Definition obj_assign {V} (k : string) (v : V) (o : Obj V) : Obj V :=
  if String.eqb k "__proto__" then o else obj_set k v o.

(** How an awaited call ends: with a value, or with a thrown error, of
  which the engine reads the message only. *)
Inductive Outcome (A : Type) :=
| Returns (a : A)
| Throws (message : string).
Arguments Returns {A} a.
Arguments Throws {A} message.

Section Engine.

Context {num : Type} {RT : Runtime num}.

(** The values a front-matter entry or a local variable holds. *)
Inductive JsValue :=
| VUndefined
| VNull
| VString (s : string)
| VNumber (n : num)
| VBool (b : bool)
| VArray (l : list string).

Definition ofOption {A} (f : A -> JsValue) (o : option A) : JsValue :=
  match o with Some a => f a | None => VNull end.

(** [String(v)] and the interpolation of [v] in a template. *)
Definition toStr (v : JsValue) : string :=
  match v with
  | VUndefined => "undefined"
  | VNull => "null"
  | VString s => s
  | VNumber n => numToString n
  | VBool true => "true"
  | VBool false => "false"
  | VArray l => JsString.join "," l
  end.

(** [Number(v)], [None] for [NaN]. *)
Definition toNumber (v : JsValue) : option num :=
  match v with
  | VUndefined => None
  | VNull => Some (numOfBool false)
  | VString s => numOfString s
  | VNumber n => Some n
  | VBool b => Some (numOfBool b)
  | VArray l => numOfString (JsString.join "," l)
  end.

(** [Boolean(v)] and the test of [v] in a condition. *)
Definition truthy (v : JsValue) : bool :=
  match v with
  | VUndefined | VNull => false
  | VString s => negb (JsString.isEmpty s)
  | VNumber n => numTruthy n
  | VBool b => b
  | VArray _ => true
  end.

(** The typed properties of a page, as the remote service sends them. *)
Record RichText := { plain_text : string }.
Record Relation := { relation_id : string }.

Inductive FormulaResult :=
| FString (s : option string)
| FNumber (n : option num)
| FBoolean (b : option bool)
| FDate (start : option string)
| FOther.

Inductive RollupResult :=
| RArray (array : list unit)
| RNumber (n : option num)
| ROther.

Inductive NotionProp :=
| PTitle (title : list RichText)
| PRichText (rich_text : list RichText)
| PNumber (number : option num)
| PDate (start : option string)
| PSelect (name : option string)
| PMultiSelect (names : list string)
| PCheckbox (checkbox : bool)
| PUrl (url : option string)
| PEmail (email : option string)
| PPhoneNumber (phone_number : option string)
| PStatus (name : option string)
| PRelation (relation : list Relation)
| PCreatedTime (created_time : string)
| PLastEditedTime (last_edited_time : string)
| PCreatedBy (name : option string)
| PLastEditedBy (name : option string)
| PFormula (formula : FormulaResult)
| PRollup (rollup : RollupResult)
| PPeople (people : list (option string))
| PFiles (files : list string)
| POther (type : string).

Definition prop_type (p : NotionProp) : string :=
  match p with
  | PTitle _ => "title"
  | PRichText _ => "rich_text"
  | PNumber _ => "number"
  | PDate _ => "date"
  | PSelect _ => "select"
  | PMultiSelect _ => "multi_select"
  | PCheckbox _ => "checkbox"
  | PUrl _ => "url"
  | PEmail _ => "email"
  | PPhoneNumber _ => "phone_number"
  | PStatus _ => "status"
  | PRelation _ => "relation"
  | PCreatedTime _ => "created_time"
  | PLastEditedTime _ => "last_edited_time"
  | PCreatedBy _ => "created_by"
  | PLastEditedBy _ => "last_edited_by"
  | PFormula _ => "formula"
  | PRollup _ => "rollup"
  | PPeople _ => "people"
  | PFiles _ => "files"
  | POther t => t
  end.

Record NotionPage := {
  page_id : string;
  page_properties : Obj NotionProp;
  page_content : string;
  page_lastModified : string
}.

Record ObsidianNote := {
  note_path : string;
  note_frontmatter : Obj JsValue;
  note_content : string;
  note_lastModified : Z;
  note_notionId : JsValue
}.

(** What [convertFrontmatterToNotionProperties] sends for a property. *)
Inductive PropertyUpdate :=
| URichText (content : string)
| UMultiSelect (names : list string)
| UNumber (n : num)
| UDate (start : string)
| UCheckbox (b : bool).

(** ** The world outside the engine *)

(** The vault of the host application: files and folders as the objects
    [getAbstractFileByPath] hands out. *)
#[warnings="-register-all"]
Inductive TAbstractFile :=
| TFile (path : string) (mtime : Z) (data : string)
| TFolder (path : string) (children : list TAbstractFile).

Definition path_of (f : TAbstractFile) : string :=
  match f with TFile p _ _ => p | TFolder p _ => p end.

Definition firstSome {A B} (f : A -> option B) : list A -> option B :=
  fix go l :=
    match l with
    | [] => None
    | x :: l' => match f x with Some b => Some b | None => go l' end
    end.

Fixpoint findPath (p : string) (t : TAbstractFile) : option TAbstractFile :=
  if String.eqb (path_of t) p then Some t
  else match t with
       | TFile _ _ _ => None
       | TFolder _ cs => firstSome (findPath p) cs
       end.

Fixpoint insertChild (parent : string) (node t : TAbstractFile)
  : TAbstractFile :=
  match t with
  | TFile _ _ _ => t
  | TFolder p cs =>
      if String.eqb p parent then TFolder p (cs ++ [node])
      else TFolder p (List.map (insertChild parent node) cs)
  end.

Fixpoint writeFile (p : string) (now : Z) (text : string)
  (t : TAbstractFile) : TAbstractFile :=
  match t with
  | TFile q m d => if String.eqb q p then TFile q now text else t
  | TFolder q cs => TFolder q (List.map (writeFile p now text) cs)
  end.

(** The text after the last [c] of [s]. *)
Fixpoint afterLast (c : ascii) (s : string) : option string :=
  match s with
  | EmptyString => None
  | String a s' =>
      match afterLast c s' with
      | Some r => Some r
      | None => if Ascii.eqb a c then Some s' else None
      end
  end.

(** The text before the last [c] of [s]. *)
Fixpoint beforeLast (c : ascii) (s : string) : option string :=
  match s with
  | EmptyString => None
  | String a s' =>
      match beforeLast c s' with
      | Some r => Some (String a r)
      | None => if Ascii.eqb a c then Some EmptyString else None
      end
  end.

Definition parentPath (p : string) : string :=
  match beforeLast "/" p with
  | Some d => if JsString.isEmpty d then "/" else d
  | None => "/"
  end.

Definition extension (f : TAbstractFile) : string :=
  let name := default (path_of f) (afterLast "/" (path_of f)) in
  default EmptyString (afterLast "." name).

Definition joinPlainText (l : list RichText) : string :=
  JsString.join EmptyString (List.map plain_text l).

(** ** The blocks of a page (notion-api.ts)

    [blocksToMarkdown] reads the blocks the remote service sends;
    [markdownToBlocks] builds the blocks the client sends, each with one
    segment of text. *)

Inductive BlockType :=
| paragraph
| heading_1
| heading_2
| heading_3
| bulleted_list_item
| numbered_list_item.

Inductive Block :=
| KnownBlock (type : BlockType) (rich_text : list RichText)
| OtherBlock (type : string) (rich_text : option (list RichText)).

Record NewBlock := { block_type : BlockType; block_content : string }.

(** What one turn of the loop of [blocksToMarkdown] appends. *)
Definition blockMarkdown (block : Block) : string :=
  match block with
  | KnownBlock paragraph rich_text =>
      joinPlainText rich_text ++ JsString.str1 JsString.LF
        ++ JsString.str1 JsString.LF
  | KnownBlock heading_1 rich_text =>
      "# " ++ joinPlainText rich_text ++ JsString.str1 JsString.LF
        ++ JsString.str1 JsString.LF
  | KnownBlock heading_2 rich_text =>
      "## " ++ joinPlainText rich_text ++ JsString.str1 JsString.LF
        ++ JsString.str1 JsString.LF
  | KnownBlock heading_3 rich_text =>
      "### " ++ joinPlainText rich_text ++ JsString.str1 JsString.LF
        ++ JsString.str1 JsString.LF
  | KnownBlock bulleted_list_item rich_text =>
      "- " ++ joinPlainText rich_text ++ JsString.str1 JsString.LF
  | KnownBlock numbered_list_item rich_text =>
      "1. " ++ joinPlainText rich_text ++ JsString.str1 JsString.LF
  | OtherBlock _ rich_text =>
      let textContent :=
        match rich_text with
        | Some l => joinPlainText l
        | None => EmptyString
        end in
      if JsString.isEmpty textContent then EmptyString
      else textContent ++ JsString.str1 JsString.LF
             ++ JsString.str1 JsString.LF
  end.

Definition blocksToMarkdown (blocks : list Block) : string :=
  JsString.trim
    (fold_left (fun markdown block => markdown ++ blockMarkdown block)
       blocks EmptyString).

(** The paragraph that is pending, if any, becomes a block. *)
Definition flushParagraph (state : list NewBlock * string)
  : list NewBlock * string :=
  if JsString.isEmpty state.2 then state
  else (state.1 ++ [{| block_type := paragraph;
                       block_content := state.2 |}],
        EmptyString)%list.

Fixpoint skipDigits (s : string) : string :=
  match s with
  | String c s' => if IntRuntime.isDigit c then skipDigits s' else s
  | EmptyString => EmptyString
  end.

(** The text after a match of the digits, the dot and the space a
    numbered item starts with. *)
Definition afterNumber (s : string) : option string :=
  let rest := skipDigits s in
  if (String.length rest <? String.length s)%nat
     && JsString.startsWith ". " rest
  then Some (JsString.drop 2 rest)
  else None.

(** One turn of the loop of [markdownToBlocks]; the state is [blocks]
    and [currentParagraph]. *)
Definition blockStep (state : list NewBlock * string) (line : string)
  : list NewBlock * string :=
  let trimmedLine := JsString.trim line in
  let heading (t : BlockType) (content : string) :=
    ((flushParagraph state).1
       ++ [{| block_type := t; block_content := content |}],
     EmptyString)%list in
  if JsString.isEmpty trimmedLine then flushParagraph state
  else if JsString.startsWith "# " trimmedLine then
    heading heading_1 (JsString.substringFrom trimmedLine 2)
  else if JsString.startsWith "## " trimmedLine then
    heading heading_2 (JsString.substringFrom trimmedLine 3)
  else if JsString.startsWith "### " trimmedLine then
    heading heading_3 (JsString.substringFrom trimmedLine 4)
  else if JsString.startsWith "- " trimmedLine then
    heading bulleted_list_item (JsString.substringFrom trimmedLine 2)
  else
    match afterNumber trimmedLine with
    | Some content => heading numbered_list_item content
    | None =>
        (state.1,
         state.2 ++ (if JsString.isEmpty state.2 then EmptyString else " ")
           ++ trimmedLine)
    end.

Definition markdownToBlocks (markdown : string) : list NewBlock :=
  (flushParagraph
     (fold_left blockStep (JsString.split JsString.LF markdown)
        ([], EmptyString))).1.

(** The block the remote service keeps for a block it was sent. *)
Definition asStored (block : NewBlock) : Block :=
  KnownBlock (block_type block) [{| plain_text := block_content block |}].

(** A block of a page on the remote side: the identifier the service
    gave it and what [blocksToMarkdown] reads of it.  The model keeps
    the blocks that one GET /blocks/{id}/children lists for the page;
    the blocks inside a block, and those of a page too long for one
    answer, are outside the model.  A block of type
    child_page stands for a page of its own, which has the identifier of
    the block. *)
Record RemoteBlock := { block_id : string; block_data : Block }.

Definition isChildPage (block : RemoteBlock) : bool :=
  match block_data block with
  | OtherBlock type _ => String.eqb type "child_page"
  | KnownBlock _ _ => false
  end.

(** A block of type child_database stands for a database of its own,
    which has the identifier of the block; its records have it as their
    [remote_parent]. *)
Definition isChildDatabase (block : RemoteBlock) : bool :=
  match block_data block with
  | OtherBlock type _ => String.eqb type "child_database"
  | KnownBlock _ _ => false
  end.

(** A page of the remote service: a record of the database
    [remote_parent], or a child page of the page [remote_parent]. *)
Record RemotePage := {
  remote_parent : string;
  remote_properties : Obj NotionProp;
  remote_blocks : list RemoteBlock;
  remote_last_edited_time : string
}.

(** The content [getPageContent] reads of a page. *)
Definition remote_content (p : RemotePage) : string :=
  blocksToMarkdown (List.map block_data (remote_blocks p)).

Definition applyUpdate (u : PropertyUpdate) : NotionProp :=
  match u with
  | URichText c => PRichText [{| plain_text := c |}]
  | UMultiSelect l => PMultiSelect l
  | UNumber n => PNumber (Some n)
  | UDate s => PDate (Some s)
  | UCheckbox b => PCheckbox b
  end.

Definition applyUpdates (us : Obj PropertyUpdate) (ps : Obj NotionProp)
  : Obj NotionProp :=
  fold_left (fun acc ku => obj_set ku.1 (applyUpdate ku.2) acc) us ps.

(** How a call to the outside ends: it goes through, it is rejected with
    an error, or it resolves with nothing. *)
Inductive Fate := Fine | Fails (message : string) | Nothing.

Inductive Channel := Log | Warn | Error | Notice.

(** [console] holds the newest entry first; a run out of [fates] means
    every further call goes through. *)
Record World := {
  vault : TAbstractFile;
  pages : gmap string RemotePage;
  idSupply : nat;
  console : list (Channel * string);
  clock : Z;
  settings : NotionSyncSettings;
  fates : list Fate
}.

Definition set_vault (v : TAbstractFile) (w : World) : World :=
  {| vault := v; pages := pages w; idSupply := idSupply w;
     console := console w; clock := clock w; settings := settings w;
     fates := fates w |}.

Definition set_pages (ps : gmap string RemotePage) (n : nat) (w : World)
  : World :=
  {| vault := vault w; pages := ps; idSupply := n;
     console := console w; clock := clock w; settings := settings w;
     fates := fates w |}.

Definition set_console (c : list (Channel * string)) (w : World) : World :=
  {| vault := vault w; pages := pages w; idSupply := idSupply w;
     console := c; clock := clock w; settings := settings w;
     fates := fates w |}.

Definition set_settings (s : NotionSyncSettings) (w : World) : World :=
  {| vault := vault w; pages := pages w; idSupply := idSupply w;
     console := console w; clock := clock w; settings := s;
     fates := fates w |}.

Definition set_fates (fs : list Fate) (w : World) : World :=
  {| vault := vault w; pages := pages w; idSupply := idSupply w;
     console := console w; clock := clock w; settings := settings w;
     fates := fs |}.

(** ** Awaited computations *)

Definition Async (A : Type) : Type := World -> Outcome A * World.

#[local] Instance Async_ret : MRet Async := fun A a w => (Returns a, w).

#[local] Instance Async_bind : MBind Async := fun A B k m w =>
  match m w with
  | (Returns a, w') => k a w'
  | (Throws e, w') => (Throws e, w')
  end.

Definition throw {A} (message : string) : Async A :=
  fun w => (Throws message, w).

Definition tryCatch {A} (body : Async A) (handler : string -> Async A)
  : Async A :=
  fun w =>
    match body w with
    | (Returns a, w') => (Returns a, w')
    | (Throws e, w') => handler e w'
    end.

Definition getWorld : Async World := fun w => (Returns w, w).

Definition modifyWorld (f : World -> World) : Async unit :=
  fun w => (Returns tt, f w).

(** [for (const x of l)] with the variables the body updates in [s]. *)
Fixpoint forOf {A S} (l : list A) (s : S) (body : S -> A -> Async S)
  : Async S :=
  match l with
  | [] => mret s
  | x :: l' => s' ← body s x; forOf l' s' body
  end.

Definition say (c : Channel) (text : string) : Async unit :=
  modifyWorld (fun w => set_console ((c, text) :: console w) w).

Definition nextFate : Async Fate :=
  fun w =>
    match fates w with
    | [] => (Returns Fine, w)
    | f :: fs => (Returns f, set_fates fs w)
    end.

Definition Date_now : Async Z := w ← getWorld; mret (clock w).

(** [new Date(s).toISOString()] throws on an invalid date. *)
Definition toISOString (s : string) : Async string :=
  match dateParse s with
  | Some t => mret (dateToISOString t)
  | None => throw "Invalid time value"
  end.

(** *** The vault (Local Store) *)

Definition vault_insert (parent : string) (node : TAbstractFile)
  : Async unit :=
  modifyWorld (fun w => set_vault (insertChild parent node (vault w)) w).

Definition vault_write (p : string) (now : Z) (text : string)
  : Async unit :=
  modifyWorld (fun w => set_vault (writeFile p now text (vault w)) w).

Definition getAbstractFileByPath (p : string)
  : Async (option TAbstractFile) :=
  w ← getWorld; mret (findPath p (vault w)).

Definition vault_create (p text : string) : Async TAbstractFile :=
  f ← nextFate;
  match f with
  | Fails e => throw e
  | _ =>
      w ← getWorld;
      match findPath p (vault w), findPath (parentPath p) (vault w) with
      | Some _, _ => throw "File already exists."
      | None, Some (TFolder _ _) =>
          let file := TFile p (clock w) text in
          vault_insert (parentPath p) file;;
          mret file
      | None, _ => throw "ENOENT: no such file or directory"
      end
  end.

Definition vault_modify (file : TAbstractFile) (text : string)
  : Async unit :=
  f ← nextFate;
  match f with
  | Fails e => throw e
  | _ =>
      w ← getWorld;
      match file, findPath (path_of file) (vault w) with
      | TFile _ _ _, Some (TFile _ _ _) =>
          vault_write (path_of file) (clock w) text
      | _, _ => throw "ENOENT: no such file or directory"
      end
  end.

Definition vault_read (file : TAbstractFile) : Async string :=
  f ← nextFate;
  match f with
  | Fails e => throw e
  | _ =>
      w ← getWorld;
      match findPath (path_of file) (vault w) with
      | Some (TFile _ _ text) => mret text
      | _ => throw "ENOENT: no such file or directory"
      end
  end.

Definition vault_createFolder (p : string) : Async unit :=
  f ← nextFate;
  match f with
  | Fails e => throw e
  | _ =>
      w ← getWorld;
      match findPath p (vault w), findPath (parentPath p) (vault w) with
      | Some _, _ => throw "Folder already exists."
      | None, Some (TFolder _ _) =>
          vault_insert (parentPath p) (TFolder p [])
      | None, _ => throw "ENOENT: no such file or directory"
      end
  end.

(** *** The client of the remote service (notion-api.ts) *)

(** What the remote service does with the four requests that write.

    PATCH /pages/{id}: the properties sent replace those of the page. *)
Definition patched (pageId : string) (properties : Obj PropertyUpdate)
  (w : World) : World :=
  set_pages
    (alter
       (fun p =>
          {| remote_parent := remote_parent p;
             remote_properties :=
               applyUpdates properties (remote_properties p);
             remote_blocks := remote_blocks p;
             remote_last_edited_time := dateToISOString (clock w) |})
       pageId (pages w))
    (idSupply w) w.

Definition withoutBlock (blockId : string) (p : RemotePage) : RemotePage :=
  {| remote_parent := remote_parent p;
     remote_properties := remote_properties p;
     remote_blocks :=
       List.filter (fun b => negb (String.eqb (block_id b) blockId))
         (remote_blocks p);
     remote_last_edited_time := remote_last_edited_time p |}.

(** The blocks with the identifier [blockId], wherever they are. *)
Definition blocksWithId (blockId : string) (remote : gmap string RemotePage)
  : list RemoteBlock :=
  List.filter (fun b => String.eqb (block_id b) blockId)
    (flat_map (fun ip : string * RemotePage => remote_blocks ip.2)
       (map_to_list remote)).

(** DELETE /blocks/{id}: the block leaves its page; the page a child_page
    block stands for goes with it, and so do the records of the database
    a child_database block stands for. *)
Definition archived (blockId : string) (w : World) : World :=
  let found := blocksWithId blockId (pages w) in
  let remote := withoutBlock blockId <$> pages w in
  let remote :=
    if existsb isChildPage found then delete blockId remote else remote in
  let remote :=
    if existsb isChildDatabase found
    then filter
           (fun ip : string * RemotePage => remote_parent ip.2 <> blockId)
           remote
    else remote in
  set_pages remote (idSupply w) w.

(** The blocks the service keeps for the blocks it is sent, numbered
    from [n]. *)
Fixpoint storeBlocks (n : nat) (children : list NewBlock)
  : list RemoteBlock :=
  match children with
  | [] => []
  | block :: children' =>
      {| block_id := "block-" ++ JsString.ofNat n;
         block_data := asStored block |}
      :: storeBlocks (S n) children'
  end.

(** PATCH /blocks/{id}/children: the blocks sent come after those of the
    page. *)
Definition appended (pageId : string) (children : list NewBlock)
  (w : World) : World :=
  set_pages
    (alter
       (fun p =>
          {| remote_parent := remote_parent p;
             remote_properties := remote_properties p;
             remote_blocks :=
               (remote_blocks p ++ storeBlocks (idSupply w) children)%list;
             remote_last_edited_time := remote_last_edited_time p |})
       pageId (pages w))
    (idSupply w + List.length children) w.

(** POST /pages: a new page of the database, with the blocks sent.  The
    service gives it an identifier that no page has. *)
Definition newPageId (w : World) : string :=
  "page-" ++ JsString.ofNat (idSupply w).

Definition posted (databaseId : string) (properties : Obj PropertyUpdate)
  (children : list NewBlock) (w : World) : World :=
  set_pages
    (<[newPageId w :=
         {| remote_parent := databaseId;
            remote_properties := applyUpdates properties [];
            remote_blocks := storeBlocks (S (idSupply w)) children;
            remote_last_edited_time := dateToISOString (clock w) |}]>
       (pages w))
    (S (idSupply w) + List.length children) w.

(** The title [getPageInfo] extracts from the properties of a page. *)
Fixpoint extractTitle (ps : Obj NotionProp) : string :=
  match ps with
  | [] => "Untitled"
  | (_, PTitle (t :: ts)) :: _ => joinPlainText (t :: ts)
  | _ :: ps' => extractTitle ps'
  end.

(** A request that is rejected, or that asks for a page that is not
    there, is logged by [getPageInfo] and answered with null. *)
Definition getPageInfo (pageId : string) : Async (option (string * string)) :=
  tryCatch
    (f ← nextFate;
     match f with
     | Fails e => throw e
     | _ =>
         w ← getWorld;
         match pages w !! pageId with
         | Some p => mret (Some (pageId, extractTitle (remote_properties p)))
         | None => throw "Could not find page"
         end
     end)
    (fun e =>
       say Error ("Failed to get page info for " ++ pageId ++ ": " ++ e);;
       mret None).

(** GET /blocks/{id}/children *)
Definition getBlockChildren (pageId : string) : Async (list RemoteBlock) :=
  f ← nextFate;
  match f with
  | Fails e => throw e
  | _ =>
      w ← getWorld;
      match pages w !! pageId with
      | Some p => mret (remote_blocks p)
      | None => throw "Could not find block"
      end
  end.

Definition getPageContent (pageId : string) : Async string :=
  results ← getBlockChildren pageId;
  mret (blocksToMarkdown (List.map block_data results)).

(** One result of the query of [getDatabasePages]. *)
Definition fetchStep (allPages : list NotionPage)
  (ip : string * RemotePage) : Async (list NotionPage) :=
  content ← tryCatch (getPageContent ip.1)
              (fun e =>
                 say Error ("Failed to get content for page "
                            ++ ip.1 ++ ": " ++ e);;
                 mret EmptyString);
  mret (allPages ++
        [{| page_id := ip.1;
            page_properties := remote_properties ip.2;
            page_content := content;
            page_lastModified := remote_last_edited_time ip.2 |}])%list.

Definition getDatabasePages (databaseId : string)
  : Async (list NotionPage) :=
  f ← nextFate;
  match f with
  | Fails e => throw e
  | _ =>
      w ← getWorld;
      let results :=
        List.filter
          (fun ip : string * RemotePage =>
             String.eqb (remote_parent ip.2) databaseId)
          (map_to_list (pages w)) in
      forOf results [] fetchStep
  end.

(** POST /pages *)
Definition postPage (databaseId : string) (properties : Obj PropertyUpdate)
  (children : list NewBlock) : Async string :=
  fun w =>
    match pages w !! newPageId w with
    | None => (Returns (newPageId w), posted databaseId properties children w)
    | Some _ => (Throws "Conflict occurred while saving", w)
    end.

Definition createPage (databaseId : string) (properties : Obj PropertyUpdate)
  (content : string) : Async string :=
  f ← nextFate;
  match f with
  | Fails e => throw e
  | _ => postPage databaseId properties (markdownToBlocks content)
  end.

(** PATCH /pages/{id} *)
Definition patchPage (pageId : string) (properties : Obj PropertyUpdate)
  : Async unit :=
  f ← nextFate;
  match f with
  | Fails e => throw e
  | _ =>
      w ← getWorld;
      match pages w !! pageId with
      | Some _ => modifyWorld (patched pageId properties)
      | None => throw "Could not find page"
      end
  end.

(** DELETE /blocks/{id} *)
Definition deleteBlock (blockId : string) : Async unit :=
  f ← nextFate;
  match f with
  | Fails e => throw e
  | _ =>
      w ← getWorld;
      match blocksWithId blockId (pages w) with
      | _ :: _ => modifyWorld (archived blockId)
      | [] => throw "Could not find block"
      end
  end.

(** PATCH /blocks/{id}/children *)
Definition appendBlockChildren (pageId : string) (children : list NewBlock)
  : Async unit :=
  f ← nextFate;
  match f with
  | Fails e => throw e
  | _ =>
      w ← getWorld;
      match pages w !! pageId with
      | Some _ => modifyWorld (appended pageId children)
      | None => throw "Could not find block"
      end
  end.

Definition updatePage (pageId : string) (properties : Obj PropertyUpdate)
  (content : string) : Async unit :=
  patchPage pageId properties;;
  if JsString.isEmpty content then mret tt
  else
    existingBlocks ← getBlockChildren pageId;
    forOf existingBlocks tt
      (fun _ block => deleteBlock (block_id block));;
    let newBlocks := markdownToBlocks content in
    if (0 <? List.length newBlocks)%nat
    then appendBlockChildren pageId newBlocks
    else mret tt.

(** ** The engine (sync-manager.ts)

    Of the console the model keeps [Notice], [console.warn],
    [console.error] and the [console.log] lines that report a decision or
    a summary; arrows and pictographs of the messages are written in
    ASCII. *)

(** [array.sort()] on strings: by code units, in place. *)
Fixpoint insertSorted (x : string) (l : list string) : list string :=
  match l with
  | [] => [x]
  | y :: l' => if String.leb x y then x :: l else y :: insertSorted x l'
  end.

Definition sortStrings (l : list string) : list string :=
  fold_right insertSorted [] l.

(** [normalizeValue] returns its text; the second component is the value
    afterwards, since [sort] reorders the array it is called on. *)
Definition normalizeValue (value : JsValue) : string * JsValue :=
  match value with
  | VNull | VUndefined => (EmptyString, value)
  | VArray l =>
      (JsString.join "," (sortStrings l), VArray (sortStrings l))
  | _ => (JsString.trim (toStr value), value)
  end.

Definition getProp {V} (o : Obj V) (k : string) (undefined : V) : V :=
  default undefined (obj_get k o).

(** The value of [o[k]] is replaced by [v] when [o] has the entry. *)
Definition putBack (k : string) (v : JsValue) (o : Obj JsValue)
  : Obj JsValue :=
  match obj_get k o with Some _ => obj_set k v o | None => o end.

(** [hasSignificantChanges] with the two objects as it leaves them. *)
Fixpoint hasSignificantChanges_loop (mappings : list FieldMapping)
  (notion obsidian : Obj JsValue) : bool * Obj JsValue :=
  match mappings with
  | [] => (false, obsidian)
  | mapping :: rest =>
      let notionValue := getProp notion (obsidianProperty mapping) VUndefined in
      let obsidianValue :=
        getProp obsidian (obsidianProperty mapping) VUndefined in
      let n := normalizeValue notionValue in
      let o := normalizeValue obsidianValue in
      let notion' := putBack (obsidianProperty mapping) n.2 notion in
      let obsidian' := putBack (obsidianProperty mapping) o.2 obsidian in
      if negb (String.eqb n.1 o.1) then (true, obsidian')
      else hasSignificantChanges_loop rest notion' obsidian'
  end.

Definition hasSignificantChanges (notion obsidian : Obj JsValue)
  (config : SyncConfig) : bool * Obj JsValue :=
  hasSignificantChanges_loop (fieldMappings config) notion obsidian.

Definition normalizeContent (content : string) : string :=
  JsString.trim (JsString.replaceCRLF content).

Definition ensureFolderExists (folderPath : string)
  : Async (option TAbstractFile) :=
  folder ← getAbstractFileByPath folderPath;
  match folder with
  | Some f => mret (Some f)
  | None =>
      vault_createFolder folderPath;;
      getAbstractFileByPath folderPath
  end.

Definition sanitizeFileName (name : string) : string :=
  JsString.substring
    (JsString.trim
       (JsString.replaceWhiteSpaceRuns " " false
          (JsString.filterChars
             (fun c => negb (JsString.isInvalidFileChar c)) name)))
    0 100.

(** [prop.type === 'title' && prop.title.length > 0] and a first segment
    that is not blank: the text of that segment. *)
Definition titleText (prop : NotionProp) : option string :=
  match prop with
  | PTitle (t :: _) =>
      if JsString.isEmpty (JsString.trim (plain_text t)) then None
      else Some (plain_text t)
  | _ => None
  end.

Definition isTitleMapping (m : FieldMapping) : bool :=
  JsString.includes "title" (JsString.toLowerCase (notionProperty m))
  || String.eqb (JsString.toLowerCase (notionProperty m)) "name".

(** The three places [getFileNameFromPage] looks for a title. *)
Definition mappedTitle (page : NotionPage) (config : SyncConfig)
  : option string :=
  titleMapping ← List.find isTitleMapping (fieldMappings config);
  titleProp ← obj_get (notionProperty titleMapping) (page_properties page);
  titleText titleProp.

Definition anyTitle (page : NotionPage) : option string :=
  firstSome (fun kp : string * NotionProp => titleText kp.2)
    (page_properties page).

Definition nameTitle (page : NotionPage) : option string :=
  obj_get "Name" (page_properties page) ≫= titleText.

Definition getFileNameFromPage (page : NotionPage) (config : SyncConfig)
  : string :=
  match mappedTitle page config with
  | Some title => sanitizeFileName title
  | None =>
      match anyTitle page with
      | Some title => sanitizeFileName title
      | None =>
          match nameTitle page with
          | Some title => sanitizeFileName title
          | None =>
              "Notion-Page-" ++ JsString.substring (page_id page) 0 8
          end
      end
  end.

(** One turn of the loop of [getRelationDisplayText];
    [notionApi_getPageInfo] is the lookup [this.notionApi.getPageInfo]
    of the client the engine was built with. *)
Definition relationStepWith
  (notionApi_getPageInfo : string -> Async (option (string * string)))
  (relationTexts : list string) (relation : Relation)
  : Async (list string) :=
  tryCatch
    (if negb (JsString.isEmpty (relation_id relation)) then
       pageInfo ← notionApi_getPageInfo (relation_id relation);
       match pageInfo with
       | Some (_, title) =>
           if negb (JsString.isEmpty title)
           then mret (relationTexts ++ [title])%list
           else mret (relationTexts ++ ["Untitled"])%list
       | None => mret (relationTexts ++ ["Untitled"])%list
       end
     else mret relationTexts)
    (fun e =>
       say Error ("Failed to get page title for relation "
                  ++ relation_id relation ++ ": " ++ e);;
       mret (relationTexts ++ ["Unknown"])%list).

Definition getRelationDisplayTextWith
  (notionApi_getPageInfo : string -> Async (option (string * string)))
  (relations : list Relation) : Async string :=
  match relations with
  | [] => mret EmptyString
  | _ =>
      relationTexts ←
        forOf relations [] (relationStepWith notionApi_getPageInfo);
      mret (JsString.join ", " relationTexts)
  end.

(** The engine with the client of notion-api.ts. *)
Definition relationStep (relationTexts : list string) (relation : Relation)
  : Async (list string) :=
  relationStepWith getPageInfo relationTexts relation.

Definition getRelationDisplayText (relations : list Relation)
  : Async string :=
  getRelationDisplayTextWith getPageInfo relations.

Definition orElse (o : option string) (fallback : string) : string :=
  match o with
  | Some s => if JsString.isEmpty s then fallback else s
  | None => fallback
  end.

Definition optional {A} (f : A -> JsValue) (o : option A) : JsValue :=
  match o with Some a => f a | None => VUndefined end.

(** The [switch] on the type of a property, which both branches of
    [convertNotionPropertiesToFrontmatter] repeat; [None] is its
    [default] case. *)
Definition propertyValue (notionProp : NotionProp)
  : Async (option JsValue) :=
  match notionProp with
  | PTitle title => mret (Some (VString (joinPlainText title)))
  | PRichText rich_text => mret (Some (VString (joinPlainText rich_text)))
  | PNumber number => mret (Some (ofOption VNumber number))
  | PDate start => mret (Some (optional VString start))
  | PSelect name => mret (Some (optional VString name))
  | PMultiSelect names => mret (Some (VArray names))
  | PCheckbox checkbox => mret (Some (VBool checkbox))
  | PUrl url => mret (Some (ofOption VString url))
  | PEmail email => mret (Some (ofOption VString email))
  | PPhoneNumber phone_number => mret (Some (ofOption VString phone_number))
  | PStatus name => mret (Some (VString (orElse name "Not started")))
  | PRelation relations =>
      text ← getRelationDisplayText relations; mret (Some (VString text))
  | PCreatedTime created_time => mret (Some (VString created_time))
  | PLastEditedTime last_edited_time =>
      mret (Some (VString last_edited_time))
  | PCreatedBy name => mret (Some (VString (orElse name "Unknown user")))
  | PLastEditedBy name => mret (Some (VString (orElse name "Unknown user")))
  | PFormula formulaResult =>
      mret (Some match formulaResult with
                 | FString s => ofOption VString s
                 | FNumber n => ofOption VNumber n
                 | FBoolean b => ofOption VBool b
                 | FDate start => optional VString start
                 | FOther => VString "Formula result"
                 end)
  | PRollup rollupResult =>
      mret (Some match rollupResult with
                 | RArray array =>
                     VString (JsString.ofNat (List.length array) ++ " items")
                 | RNumber n => ofOption VNumber n
                 | ROther => VString "Rollup result"
                 end)
  | PPeople people =>
      mret (Some (VString
                    (orElse
                       (Some (JsString.join ", "
                                (List.map (default EmptyString) people)))
                       "No people")))
  | PFiles files =>
      mret (Some (VString
                    (match files with
                     | [] => "No files"
                     | _ => JsString.ofNat (List.length files) ++ " files"
                     end)))
  | POther _ => mret None
  end.

Definition isNullish (v : JsValue) : bool :=
  match v with VNull | VUndefined => true | _ => false end.

Definition frontmatterKey (propName : string) : string :=
  JsString.replaceWhiteSpaceRuns "_" false (JsString.toLowerCase propName).

(** One turn of the loop over all the properties (no mapping). *)
Definition autoStep (frontmatter : Obj JsValue)
  (entry : string * NotionProp) : Async (Obj JsValue) :=
  let propName := entry.1 in
  let notionProp := entry.2 in
  tryCatch
    (known ← propertyValue notionProp;
     let value :=
       match known with
       | Some v => v
       | None => VString ("[" ++ prop_type notionProp ++ "]")
       end in
     if negb (isNullish value)
     then mret (obj_assign (frontmatterKey propName) value frontmatter)
     else mret (obj_assign (frontmatterKey propName) (VString EmptyString)
                  frontmatter))
    (fun e =>
       say Error ("Error auto-converting property " ++ propName
                  ++ ": " ++ e);;
       mret (obj_assign (frontmatterKey propName)
               (VString "[conversion error]") frontmatter)).

(** One turn of the loop over the field mappings. *)
Definition mappedStep (properties : Obj NotionProp)
  (frontmatter : Obj JsValue) (mapping : FieldMapping)
  : Async (Obj JsValue) :=
  match obj_get (notionProperty mapping) properties with
  | None => mret frontmatter
  | Some notionProp =>
      tryCatch
        (known ← propertyValue notionProp;
         match known with
         | None =>
             say Warn ("Unsupported property type: "
                       ++ prop_type notionProp);;
             mret frontmatter
         | Some value =>
             if negb (isNullish value)
             then mret (obj_set (obsidianProperty mapping) value
                          frontmatter)
             else mret frontmatter
         end)
        (fun e =>
           say Error ("Error converting property "
                      ++ notionProperty mapping ++ ": " ++ e);;
           mret frontmatter)
  end.

Definition convertNotionPropertiesToFrontmatter
  (properties : Obj NotionProp) (config : SyncConfig)
  : Async (Obj JsValue) :=
  match fieldMappings config with
  | [] => forOf properties [] autoStep
  | mappings => forOf mappings [] (mappedStep properties)
  end.

Definition convertFrontmatterToNotionProperties (frontmatter : Obj JsValue)
  (config : SyncConfig) : Obj PropertyUpdate :=
  match fieldMappings config with
  | [] => []
  | mappings =>
      fold_left
        (fun (properties : Obj PropertyUpdate) (mapping : FieldMapping) =>
           let value :=
             getProp frontmatter (obsidianProperty mapping) VUndefined in
           if isNullish value then properties
           else if String.eqb (type mapping) "text" then
             obj_set (notionProperty mapping) (URichText (toStr value))
               properties
           else if String.eqb (type mapping) "list" then
             let values :=
               match value with VArray l => l | _ => [toStr value] end in
             obj_set (notionProperty mapping) (UMultiSelect values)
               properties
           else if String.eqb (type mapping) "number" then
             match toNumber value with
             | Some numValue =>
                 obj_set (notionProperty mapping) (UNumber numValue)
                   properties
             | None => properties
             end
           else if String.eqb (type mapping) "date"
                   || String.eqb (type mapping) "date & time" then
             obj_set (notionProperty mapping) (UDate (toStr value))
               properties
           else if String.eqb (type mapping) "checkbox" then
             obj_set (notionProperty mapping) (UCheckbox (truthy value))
               properties
           else properties)
        mappings []
  end.

Definition quote (s : string) : string :=
  JsString.str1 JsString.DQUOTE ++ s ++ JsString.str1 JsString.DQUOTE.

Definition yamlLine (entry : string * JsValue) : string :=
  let key := entry.1 in
  match entry.2 with
  | VArray value =>
      key ++ ": [" ++ JsString.join ", " (List.map quote value) ++ "]"
        ++ JsString.str1 JsString.LF
  | VString value => key ++ ": " ++ quote value ++ JsString.str1 JsString.LF
  | value => key ++ ": " ++ toStr value ++ JsString.str1 JsString.LF
  end.

Definition createMarkdownContent (frontmatter : Obj JsValue)
  (content : string) : string :=
  let frontmatterYaml :=
    match frontmatter with
    | [] => EmptyString
    | _ =>
        JsString.fence
          ++ fold_left (fun yaml entry => yaml ++ yamlLine entry)
               frontmatter EmptyString
          ++ JsString.fence ++ JsString.str1 JsString.LF
    end in
  frontmatterYaml ++ content.

(** The value a line of the block stands for, by its form. *)
Definition parseValue (value : string) : JsValue :=
  if JsString.startsWith (JsString.str1 JsString.DQUOTE) value
     && JsString.endsWith (JsString.str1 JsString.DQUOTE) value
  then VString (JsString.sliceInner value)
  else if JsString.startsWith "[" value && JsString.endsWith "]" value
  then VArray (List.map (fun v => JsString.stripQuotes (JsString.trim v))
                 (JsString.split "," (JsString.sliceInner value)))
  else if String.eqb value "true" then VBool true
  else if String.eqb value "false" then VBool false
  else match numOfString value with
       | Some n => VNumber n
       | None => VString value
       end.

Definition parseLine (frontmatter : Obj JsValue) (line : string)
  : Obj JsValue :=
  match JsString.indexOf ":" line with
  | Some (S c) =>
      let colonIndex := S c in
      let key := JsString.trim (JsString.substring line 0 colonIndex) in
      let value :=
        JsString.trim (JsString.substringFrom line (colonIndex + 1)) in
      obj_set key (parseValue value) frontmatter
  | _ => frontmatter
  end.

Definition mtime_of (file : TAbstractFile) : Z :=
  match file with TFile _ m _ => m | TFolder _ _ => 0%Z end.

Definition parseMarkdownFile (file : TAbstractFile) (content : string)
  : ObsidianNote :=
  let '(frontmatter, noteContent) :=
    match JsString.matchFrontmatter content with
    | Some (block, matched) =>
        (fold_left parseLine (JsString.split JsString.LF block) [],
         JsString.substringFrom content matched)
    | None => ([], content)
    end in
  {| note_path := path_of file;
     note_frontmatter := frontmatter;
     note_content := noteContent;
     note_lastModified := mtime_of file;
     note_notionId := getProp frontmatter "notionId" VUndefined |}.

(** [folder.children] of the recursion of [getAllMarkdownFiles]. *)
Fixpoint addFiles (currentFolder : TAbstractFile) : list TAbstractFile :=
  match currentFolder with
  | TFolder _ children =>
      flat_map
        (fun child =>
           match child with
           | TFile _ _ _ =>
               if String.eqb (extension child) "md" then [child] else []
           | TFolder _ _ => addFiles child
           end)
        children
  | TFile _ _ _ => []
  end.

Definition getAllMarkdownFiles (folder : TAbstractFile)
  : Async (list TAbstractFile) :=
  match folder with
  | TFolder _ _ => mret (addFiles folder)
  | TFile _ _ _ => throw "currentFolder.children is not iterable"
  end.

Definition filePathOf (config : SyncConfig) (fileName : string) : string :=
  obsidianFolder config ++ "/" ++ fileName ++ ".md".

(** The content of the document a page becomes. *)
Definition documentOfPage (page : NotionPage) (config : SyncConfig)
  : Async string :=
  frontmatter ← convertNotionPropertiesToFrontmatter
                  (page_properties page) config;
  let frontmatter := obj_set "notionId" (VString (page_id page)) frontmatter in
  stamp ← toISOString (page_lastModified page);
  let frontmatter := obj_set "lastNotionSync" (VString stamp) frontmatter in
  mret (createMarkdownContent frontmatter (page_content page)).

Definition createObsidianFromNotion (page : NotionPage) (config : SyncConfig)
  : Async unit :=
  let fileName := getFileNameFromPage page config in
  let filePath := filePathOf config fileName in
  content ← documentOfPage page config;
  vault_create filePath content;;
  mret tt.

Definition createNotionFromObsidian (note : ObsidianNote)
  (config : SyncConfig) : Async unit :=
  let properties :=
    convertFrontmatterToNotionProperties (note_frontmatter note) config in
  pageId ← createPage (notionDatabaseId config) properties
             (note_content note);
  now ← Date_now;
  let updatedFrontmatter :=
    obj_set "lastObsidianSync" (VString (dateToISOString now))
      (obj_set "notionId" (VString pageId) (note_frontmatter note)) in
  let updatedContent :=
    createMarkdownContent updatedFrontmatter (note_content note) in
  file ← getAbstractFileByPath (note_path note);
  match file with
  | Some file => vault_modify file updatedContent
  | None => mret tt
  end.

Definition updateObsidianFromNotion (page : NotionPage) (config : SyncConfig)
  : Async unit :=
  let fileName := getFileNameFromPage page config in
  let filePath := filePathOf config fileName in
  content ← documentOfPage page config;
  file ← getAbstractFileByPath filePath;
  match file with
  | Some file => vault_modify file content
  | None => vault_create filePath content;; mret tt
  end.

Definition updateNotionFromObsidian (note : ObsidianNote)
  (config : SyncConfig) : Async unit :=
  if negb (truthy (note_notionId note)) then mret tt
  else
    let properties :=
      convertFrontmatterToNotionProperties (note_frontmatter note) config in
    updatePage (toStr (note_notionId note)) properties (note_content note);;
    now ← Date_now;
    let updatedFrontmatter :=
      obj_set "lastObsidianSync" (VString (dateToISOString now))
        (note_frontmatter note) in
    let updatedContent :=
      createMarkdownContent updatedFrontmatter (note_content note) in
    file ← getAbstractFileByPath (note_path note);
    match file with
    | Some file => vault_modify file updatedContent
    | None => mret tt
    end.

Definition with_frontmatter (fm : Obj JsValue) (note : ObsidianNote)
  : ObsidianNote :=
  {| note_path := note_path note; note_frontmatter := fm;
     note_content := note_content note;
     note_lastModified := note_lastModified note;
     note_notionId := note_notionId note |}.

(** [notionModified > obsidianModified]; an invalid date is [NaN]. *)
Definition newer (notionModified : option Z) (obsidianModified : Z) : bool :=
  match notionModified with
  | Some t => (obsidianModified <? t)%Z
  | None => false
  end.

Definition resolveConflict (notionPage : NotionPage)
  (obsidianNote : ObsidianNote) (config : SyncConfig) : Async string :=
  let notionModified := dateParse (page_lastModified notionPage) in
  let obsidianModified := note_lastModified obsidianNote in
  notionFrontmatter ← convertNotionPropertiesToFrontmatter
                        (page_properties notionPage) config;
  let compared :=
    hasSignificantChanges notionFrontmatter
      (note_frontmatter obsidianNote) config in
  let hasPropertyChanges := compared.1 in
  let obsidianNote := with_frontmatter compared.2 obsidianNote in
  let hasContentChanges :=
    negb (String.eqb (normalizeContent (page_content notionPage))
            (normalizeContent (note_content obsidianNote))) in
  if negb hasPropertyChanges && negb hasContentChanges then mret "no-change"
  else
    w ← getWorld;
    let policy := conflictResolution (settings w) in
    if String.eqb policy "notion-wins" then
      updateObsidianFromNotion notionPage config;; mret "notion-wins"
    else if String.eqb policy "obsidian-wins" then
      updateNotionFromObsidian obsidianNote config;; mret "obsidian-wins"
    else if String.eqb policy "newer-wins" then
      if newer notionModified obsidianModified then
        updateObsidianFromNotion notionPage config;; mret "notion-wins"
      else
        updateNotionFromObsidian obsidianNote config;; mret "obsidian-wins"
    else if String.eqb policy "manual" then
      say Notice ("Conflict detected: " ++ note_path obsidianNote
                  ++ ". Manual resolution required.");;
      say Warn "Conflict details:";;
      mret "conflict"
    else mret "no-change".

(** The counters of a pull. *)
Record PullCount := {
  createdCount : nat;
  updatedCount : nat;
  errorCount : nat
}.

(** The [try] block of the loop of [syncNotionToObsidian]: [true] when
    the file was created, [false] when it was updated. *)
Definition pullPage (page : NotionPage) (config : SyncConfig) : Async bool :=
  let fileName := getFileNameFromPage page config in
  let filePath := filePathOf config fileName in
  content ← documentOfPage page config;
  existingFile ← getAbstractFileByPath filePath;
  match existingFile with
  | Some existingFile => vault_modify existingFile content;; mret false
  | None => vault_create filePath content;; mret true
  end.

(** One turn of that loop. *)
Definition pullStep (config : SyncConfig) (n : PullCount)
  (page : NotionPage) : Async PullCount :=
  tryCatch
    (created ← pullPage page config;
     if created : bool
     then mret {| createdCount := S (createdCount n);
                  updatedCount := updatedCount n;
                  errorCount := errorCount n |}
     else mret {| createdCount := createdCount n;
                  updatedCount := S (updatedCount n);
                  errorCount := errorCount n |})
    (fun e =>
       say Error ("Failed to sync page " ++ page_id page ++ ": " ++ e);;
       say Notice ("Failed to sync page " ++ page_id page ++ ": " ++ e);;
       mret {| createdCount := createdCount n;
               updatedCount := updatedCount n;
               errorCount := S (errorCount n) |}).

Definition pullMessage (n : PullCount) : string :=
  "Notion -> Obsidian: " ++ JsString.ofNat (createdCount n) ++ " created, "
    ++ JsString.ofNat (updatedCount n) ++ " updated".

Definition syncNotionToObsidian (config : SyncConfig) : Async unit :=
  notionPages ← getDatabasePages (notionDatabaseId config);
  match notionPages with
  | [] =>
      say Notice ("No pages found in Notion database for "
                  ++ config_name config)
  | _ =>
      ensureFolderExists (obsidianFolder config);;
      n ← forOf notionPages
            {| createdCount := 0; updatedCount := 0; errorCount := 0 |}
            (pullStep config);
      let message := pullMessage n in
      if (0 <? errorCount n)%nat then
        say Log (message ++ ", " ++ JsString.ofNat (errorCount n)
                 ++ " errors");;
        say Notice (message ++ ", " ++ JsString.ofNat (errorCount n)
                    ++ " errors. Check console for details.")
      else
        say Log message;;
        say Notice message
  end.

(** One turn of the loop of [syncObsidianToNotion]; [counts] holds
    [createdCount] and [updatedCount]. *)
Definition pushStep (config : SyncConfig) (counts : nat * nat)
  (file : TAbstractFile) : Async (nat * nat) :=
  tryCatch
    (content ← vault_read file;
     let note := parseMarkdownFile file content in
     let notionProperties :=
       convertFrontmatterToNotionProperties (note_frontmatter note) config in
     if truthy (note_notionId note) then
       updatePage (toStr (note_notionId note)) notionProperties
         (note_content note);;
       mret (counts.1, S counts.2)
     else
       pageId ← createPage (notionDatabaseId config) notionProperties
                  (note_content note);
       now ← Date_now;
       let updatedFrontmatter :=
         obj_set "lastObsidianSync" (VString (dateToISOString now))
           (obj_set "notionId" (VString pageId) (note_frontmatter note)) in
       let updatedContent :=
         createMarkdownContent updatedFrontmatter (note_content note) in
       vault_modify file updatedContent;;
       mret (S counts.1, counts.2))
    (fun e =>
       say Error ("Failed to sync file " ++ path_of file ++ ": " ++ e);;
       mret counts).

Definition syncObsidianToNotion (config : SyncConfig) : Async unit :=
  folder ← getAbstractFileByPath (obsidianFolder config);
  match folder with
  | None => throw ("Folder " ++ obsidianFolder config ++ " not found")
  | Some folder =>
      files ← getAllMarkdownFiles folder;
      counts ← forOf files (0, 0) (pushStep config);
      say Log ("Obsidian -> Notion: " ++ JsString.ofNat counts.1
               ++ " created, " ++ JsString.ofNat counts.2 ++ " updated")
  end.

(** [new Map(entries).get(key)]: the last entry of that key. *)
Definition mapGet (obsidianNotes : list ObsidianNote) (pageId : string)
  : option ObsidianNote :=
  List.find
    (fun note =>
       match note_notionId note with
       | VString i => String.eqb i pageId
       | _ => false
       end)
    (List.rev (List.filter (fun note => truthy (note_notionId note))
                 obsidianNotes)).

Definition mapHas (notionPages : list NotionPage) (key : JsValue) : bool :=
  match key with
  | VString i => existsb (fun page => String.eqb (page_id page) i) notionPages
  | _ => false
  end.

Record MergeCount := {
  conflicts : nat;
  notionToObsidian : nat;
  obsidianToNotion : nat;
  created : nat
}.

(** The three loops of [syncBidirectional]: reading the notes, the
    pages of the remote side, the notes of the local side. *)
Definition readStep (notes : list ObsidianNote) (file : TAbstractFile)
  : Async (list ObsidianNote) :=
  content ← vault_read file;
  mret (notes ++ [parseMarkdownFile file content])%list.

Definition mergePageStep (config : SyncConfig)
  (obsidianNotes : list ObsidianNote) (n : MergeCount) (page : NotionPage)
  : Async MergeCount :=
  match mapGet obsidianNotes (page_id page) with
  | None =>
      createObsidianFromNotion page config;;
      mret {| conflicts := conflicts n;
              notionToObsidian := notionToObsidian n;
              obsidianToNotion := obsidianToNotion n;
              created := S (created n) |}
  | Some correspondingNote =>
      result ← resolveConflict page correspondingNote config;
      if String.eqb result "conflict" then
        mret {| conflicts := S (conflicts n);
                notionToObsidian := notionToObsidian n;
                obsidianToNotion := obsidianToNotion n;
                created := created n |}
      else if String.eqb result "notion-wins" then
        mret {| conflicts := conflicts n;
                notionToObsidian := S (notionToObsidian n);
                obsidianToNotion := obsidianToNotion n;
                created := created n |}
      else if String.eqb result "obsidian-wins" then
        mret {| conflicts := conflicts n;
                notionToObsidian := notionToObsidian n;
                obsidianToNotion := S (obsidianToNotion n);
                created := created n |}
      else mret n
  end.

Definition mergeNoteStep (config : SyncConfig)
  (notionPages : list NotionPage) (n : MergeCount) (note : ObsidianNote)
  : Async MergeCount :=
  if negb (truthy (note_notionId note))
     || negb (mapHas notionPages (note_notionId note))
  then
    createNotionFromObsidian note config;;
    mret {| conflicts := conflicts n;
            notionToObsidian := notionToObsidian n;
            obsidianToNotion := obsidianToNotion n;
            created := S (created n) |}
  else mret n.

Definition syncBidirectional (config : SyncConfig) : Async unit :=
  notionPages ← getDatabasePages (notionDatabaseId config);
  folder ← getAbstractFileByPath (obsidianFolder config);
  obsidianNotes ←
    match folder with
    | Some folder =>
        files ← getAllMarkdownFiles folder;
        forOf files [] readStep
    | None => mret []
    end;
  n ← forOf notionPages
        {| conflicts := 0; notionToObsidian := 0; obsidianToNotion := 0;
           created := 0 |}
        (mergePageStep config obsidianNotes);
  n ← forOf obsidianNotes n (mergeNoteStep config notionPages);
  say Log ("Bidirectional sync: " ++ JsString.ofNat (created n)
           ++ " created, " ++ JsString.ofNat (notionToObsidian n)
           ++ " N->O, " ++ JsString.ofNat (obsidianToNotion n) ++ " O->N, "
           ++ JsString.ofNat (conflicts n) ++ " conflicts");;
  if (0 <? conflicts n)%nat
  then say Notice (JsString.ofNat (conflicts n)
                   ++ " conflicts detected. Check console for details.")
  else mret tt.

(** [plugin.saveSettings()] behind the lookup of the plugin instance. *)
Definition saveSettings : Async unit :=
  tryCatch
    (f ← nextFate;
     match f with
     | Fails e => throw e
     | Nothing => say Warn "Could not find plugin instance to save settings"
     | Fine => say Log "Settings saved successfully"
     end)
    (fun e => say Error ("Failed to save settings: " ++ e)).

Definition set_config (i : nat) (c : SyncConfig) (w : World) : World :=
  set_settings
    (set_syncConfigs (<[i := c]> (syncConfigs (settings w))) (settings w)) w.

(** [overrideDirection || config.syncDirection] *)
Definition directionOf (overrideDirection : option string)
  (config : SyncConfig) : string :=
  match overrideDirection with
  | Some d => if JsString.isEmpty d then syncDirection config else d
  | None => syncDirection config
  end.

(** The four parts of the [try] block of [syncConfig]: the validation of
    the configuration, the direction that the field mappings allow, the
    algorithm of that direction, and the record of the run. *)
Definition checkConfig (config : SyncConfig) : Async unit :=
  (if JsString.isEmpty (notionDatabaseId config)
   then throw "No Notion database ID specified"
   else mret tt);;
  (if JsString.isEmpty (obsidianFolder config)
   then throw "No Obsidian folder specified"
   else mret tt).

Definition noMappingsWarning (config : SyncConfig) : string :=
  "No field mappings configured for " ++ quote (config_name config)
    ++ ". Auto-sync will work for Notion->Obsidian, "
    ++ "but Obsidian->Notion requires field mappings.".

Definition noMappingsError : string :=
  "Cannot sync from Obsidian to Notion without field mappings. "
    ++ "Please configure field mappings first.".

Definition forcedDirectionNote : string :=
  "Forcing sync direction to Notion->Obsidian only "
    ++ "due to missing field mappings".

Definition chooseDirection (config : SyncConfig) (direction : string)
  : Async string :=
  match fieldMappings config with
  | [] =>
      say Warn (noMappingsWarning config);;
      if String.eqb direction SyncDirection.OBSIDIAN_TO_NOTION then
        throw noMappingsError
      else if String.eqb direction SyncDirection.BIDIRECTIONAL then
        say Log forcedDirectionNote;;
        mret SyncDirection.NOTION_TO_OBSIDIAN
      else mret direction
  | _ => mret direction
  end.

Definition runDirection (config : SyncConfig)
  (actualDirection direction : string) : Async unit :=
  if String.eqb actualDirection SyncDirection.NOTION_TO_OBSIDIAN
  then syncNotionToObsidian config
  else if String.eqb actualDirection SyncDirection.OBSIDIAN_TO_NOTION
  then syncObsidianToNotion config
  else if String.eqb actualDirection SyncDirection.BIDIRECTIONAL
  then syncBidirectional config
  else throw ("Unknown sync direction: " ++ direction).

Definition recordSync (i : nat) (config : SyncConfig) : Async unit :=
  now ← Date_now;
  modifyWorld (set_config i (set_lastSync now config));;
  saveSettings;;
  say Notice (config_name config ++ " synced successfully!").

(** [syncConfig(config, overrideDirection)]; [config] is the object at
    index [i] of [settings.syncConfigs]. *)
Definition syncConfig (i : nat) (overrideDirection : option string)
  : Async unit :=
  w ← getWorld;
  match syncConfigs (settings w) !! i with
  | None => throw "Cannot read properties of undefined"
  | Some config =>
      let direction := directionOf overrideDirection config in
      say Notice ("Syncing " ++ config_name config ++ "...");;
      tryCatch
        (checkConfig config;;
         actualDirection ← chooseDirection config direction;
         runDirection config actualDirection direction;;
         recordSync i config)
        (fun e =>
           say Error ("Sync config failed: " ++ e);;
           throw ("Failed to sync " ++ config_name config ++ ": " ++ e))
  end.

(** One turn of the loop of [syncAll], on the configuration at index
    [i]; [counts] holds [successCount] and [errorCount]. *)
Definition syncAllStep (direction : option string)
  (configs : list SyncConfig) (counts : nat * nat) (i : nat)
  : Async (nat * nat) :=
  match configs !! i with
  | None => mret counts
  | Some config =>
      if negb (enabled config) then
        say Log ("Skipping disabled config: " ++ config_name config);;
        mret counts
      else
        tryCatch
          (syncConfig i direction;;
           mret (S counts.1, counts.2))
          (fun e =>
             say Error ("Sync failed for " ++ config_name config
                        ++ ": " ++ e);;
             say Notice ("Sync failed for " ++ config_name config
                         ++ ": " ++ e);;
             mret (counts.1, S counts.2))
  end.

Definition syncAll (direction : option string) : Async unit :=
  say Notice "Starting sync...";;
  w ← getWorld;
  match syncConfigs (settings w) with
  | [] =>
      say Notice ("No sync configurations found. "
                  ++ "Please add a configuration first.")
  | configs =>
      counts ←
        forOf (seq 0 (List.length configs)) (0, 0)
          (syncAllStep direction configs);
      say Notice ("Sync completed! " ++ JsString.ofNat counts.1
                  ++ " successful, " ++ JsString.ofNat counts.2
                  ++ " failed.")
  end.

(** ** Notions the statements use *)

(** Every run of [m] leaves a world related to the one it started in. *)
Class Preserves {A} (R : World -> World -> Prop) (m : Async A) : Prop :=
  preserved : forall w, R w (m w).2.

(** A relation between the world before and the world after that the
    console and the fates do not disturb, and one that the writes of the
    engine to the vault and to the remote side do not disturb either. *)
Class Tolerates (R : World -> World -> Prop) : Prop := {
  tol_refl : forall w, R w w;
  tol_trans : forall w1 w2 w3, R w1 w2 -> R w2 w3 -> R w1 w3;
  tol_console : forall w c, R w (set_console c w);
  tol_fates : forall w fs, R w (set_fates fs w)
}.

Class ToleratesWrites (R : World -> World -> Prop) : Prop := {
  tol_base :: Tolerates R;
  tol_insert : forall w parent node,
    R w (set_vault (insertChild parent node (vault w)) w);
  tol_write : forall w p now text,
    R w (set_vault (writeFile p now text (vault w)) w);
  tol_patched : forall w pageId properties,
    R w (patched pageId properties w);
  tol_archived : forall w blockId, R w (archived blockId w);
  tol_appended : forall w pageId children,
    R w (appended pageId children w);
  tol_posted : forall w databaseId properties children,
    pages w !! newPageId w = None ->
    R w (posted databaseId properties children w)
}.

(** [m] cannot throw. *)
Class AlwaysReturns {A} (m : Async A) : Prop :=
  returned : forall w, exists a, (m w).1 = Returns a.

Fixpoint allPaths (t : TAbstractFile) : list string :=
  match t with
  | TFile p _ _ => [p]
  | TFolder p cs => p :: flat_map allPaths cs
  end.

Fixpoint filePaths (t : TAbstractFile) : list string :=
  match t with
  | TFile p _ _ => [p]
  | TFolder _ cs => flat_map filePaths cs
  end.

(** Nothing that was there is gone: the documents of the vault, what
    [getAbstractFileByPath] finds, and the records of the remote side. *)
Definition noDeletion (w w' : World) : Prop :=
  (forall p, In p (filePaths (vault w)) -> In p (filePaths (vault w')))
  /\ (forall p, is_Some (findPath p (vault w)) ->
                is_Some (findPath p (vault w')))
  /\ (forall i, is_Some (pages w !! i) -> is_Some (pages w' !! i)).

(** A block of some page has the identifier [i] and passes [kind]. *)
Definition holdsBlock (kind : RemoteBlock -> bool)
  (remote : gmap string RemotePage) (i : string) : Prop :=
  exists j p block,
    remote !! j = Some p /\ In block (remote_blocks p)
    /\ kind block = true /\ block_id block = i.

(** [i] is a child page: a block of type child_page of some page has
    this identifier. *)
Definition childPage (remote : gmap string RemotePage) (i : string)
  : Prop :=
  holdsBlock isChildPage remote i.

(** [d] is an inline database: a block of type child_database of some
    page has this identifier. *)
Definition childDatabase (remote : gmap string RemotePage) (d : string)
  : Prop :=
  holdsBlock isChildDatabase remote d.

(** The pages of [remote'] are pages of [remote], in the same place,
    and their child pages and inline databases are among those they had
    there. *)
Definition within (remote remote' : gmap string RemotePage) : Prop :=
  forall j p', remote' !! j = Some p' ->
    exists p, remote !! j = Some p
              /\ remote_parent p' = remote_parent p
              /\ forall block, In block (remote_blocks p') ->
                   isChildPage block || isChildDatabase block = true ->
                   In block (remote_blocks p).

(** [i] lies in the content of a page: it is a child page, or a record
    of an inline database. *)
Definition nested (remote : gmap string RemotePage) (i : string) : Prop :=
  childPage remote i
  \/ exists p, remote !! i = Some p /\ childDatabase remote (remote_parent p).

(** Nothing that was there is gone, but for what lay in the content of a
    page: the documents of the vault, what [getAbstractFileByPath] finds,
    and the pages of the remote side that are neither child pages nor
    records of an inline database, which also stay where they were; and
    the content of no page gained a child page or an inline database. *)
Definition onlyNestedLost (w w' : World) : Prop :=
  (forall p, In p (filePaths (vault w)) -> In p (filePaths (vault w')))
  /\ (forall p, is_Some (findPath p (vault w)) ->
                is_Some (findPath p (vault w')))
  /\ (forall i p, pages w !! i = Some p ->
                  (exists p', pages w' !! i = Some p'
                              /\ remote_parent p' = remote_parent p)
                  \/ nested (pages w) i)
  /\ (forall i, childPage (pages w') i -> childPage (pages w) i)
  /\ (forall d, childDatabase (pages w') d -> childDatabase (pages w) d).

(** Neither the settings nor the clock moved. *)
Definition sameSettings (w w' : World) : Prop :=
  settings w' = settings w /\ clock w' = clock w.

(** Neither side was written. *)
Definition sameStores (w w' : World) : Prop :=
  vault w' = vault w /\ pages w' = pages w /\ idSupply w' = idSupply w.

(** Nothing moved but the console and the fates. *)
Definition quiet (w w' : World) : Prop :=
  sameStores w w' /\ sameSettings w w'.

(** What a pull that ends with the counters [n] reports, newest first. *)
Definition pullReport (n : PullCount) : list (Channel * string) :=
  if (0 <? errorCount n)%nat then
    [(Notice, pullMessage n ++ ", " ++ JsString.ofNat (errorCount n)
              ++ " errors. Check console for details.");
     (Log, pullMessage n ++ ", " ++ JsString.ofNat (errorCount n)
           ++ " errors")]
  else [(Notice, pullMessage n); (Log, pullMessage n)].

(** The text a related identifier is shown as, given how its lookup
    ended: the title, Untitled when the lookup returned no page or no
    title, Unknown when it threw. *)
Definition shownAs (answer : Outcome (option (string * string))) : string :=
  match answer with
  | Returns (Some (_, title)) =>
      if JsString.isEmpty title then "Untitled" else title
  | Returns None => "Untitled"
  | Throws _ => "Unknown"
  end.

(** The texts of a relation list, one lookup after the other; an error
    is logged before the next lookup. *)
Fixpoint displayTexts
  (lookup : string -> Async (option (string * string)))
  (relations : list Relation) (w : World) : list string * World :=
  match relations with
  | [] => ([], w)
  | relation :: rest =>
      if JsString.isEmpty (relation_id relation)
      then displayTexts lookup rest w
      else
        let answer := lookup (relation_id relation) w in
        let w1 :=
          match answer.1 with
          | Returns _ => answer.2
          | Throws e =>
              set_console
                ((Error, "Failed to get page title for relation "
                         ++ relation_id relation ++ ": " ++ e)
                 :: console answer.2) answer.2
          end in
        let rest' := displayTexts lookup rest w1 in
        (shownAs answer.1 :: rest'.1, rest'.2)
  end.

(** The relations [getRelationDisplayText] looks up, and the text each
    one stands for, given how its lookup ends. *)
Definition linked (relations : list Relation) : list Relation :=
  List.filter (fun r => negb (JsString.isEmpty (relation_id r))) relations.

Definition titleOrUntitled (pageInfo : option (string * string)) : string :=
  match pageInfo with
  | Some (_, title) => if JsString.isEmpty title then "Untitled" else title
  | None => "Untitled"
  end.

Definition relationText (remote : gmap string RemotePage) (f : Fate)
  (relation : Relation) : string :=
  match f, remote !! relation_id relation with
  | Fails _, _ | _, None => "Untitled"
  | _, Some p => titleOrUntitled (Some (relation_id relation,
                                        extractTitle (remote_properties p)))
  end.

Fixpoint relationTexts (remote : gmap string RemotePage) (fs : list Fate)
  (rs : list Relation) : list string :=
  match rs with
  | [] => []
  | r :: rs' =>
      relationText remote (hd Fine fs) r :: relationTexts remote (tl fs) rs'
  end.

(** What the comparison of [resolveConflict] found. *)
Definition differ (notionFrontmatter : Obj JsValue) (page : NotionPage)
  (note : ObsidianNote) (config : SyncConfig) : bool :=
  (hasSignificantChanges notionFrontmatter (note_frontmatter note) config).1
  || negb (String.eqb (normalizeContent (page_content page))
             (normalizeContent (note_content note))).

(** Front-matter that survives being written and read again. *)
Definition noChar (c : ascii) (s : string) : bool :=
  JsString.allChars (fun a => negb (Ascii.eqb a c)) s.

Definition plainKey (k : string) : Prop :=
  k <> EmptyString /\ JsString.trim k = k
  /\ noChar ":" k = true /\ noChar JsString.LF k = true.

Definition plainElement (e : string) : bool :=
  noChar "," e
  && JsString.allChars (fun c => negb (JsString.isLineTerminator c)) e.

Definition plainValue (v : JsValue) : Prop :=
  match v with
  | VString s => noChar JsString.LF s = true
  | VNumber n =>
      noChar JsString.LF (numToString n) = true
      /\ JsString.trim (numToString n) = numToString n
      /\ parseValue (numToString n) = VNumber n
  | VBool _ => True
  | VArray l => l <> [] /\ forallb plainElement l = true
  | VUndefined | VNull => False
  end.

Definition isTitle (p : NotionProp) : bool :=
  match p with PTitle _ => true | _ => false end.

(** What [createMarkdownContent] writes after the key of an entry, and
    the line of an entry without its line feed. *)
Definition render (v : JsValue) : string :=
  match v with
  | VArray l => "[" ++ JsString.join ", " (List.map quote l) ++ "]"
  | VString s => quote s
  | _ => toStr v
  end.

Definition lineOf (entry : string * JsValue) : string :=
  entry.1 ++ ": " ++ render entry.2.

(** ** Sample data

    A configuration, a page of the remote side and the note linked to
    it, which agree on the mapped property and differ in their body, and
    a world that holds them. *)
Definition sampleMapping : FieldMapping :=
  {| notionProperty := "Name"; obsidianProperty := "title"; type := "text" |}.

Definition sampleConfig (mappings : list FieldMapping) (direction : string)
  : SyncConfig :=
  {| config_id := "c1"; config_name := "Tasks"; obsidianFolder := "Notes";
     notionDatabaseId := "db1"; syncDirection := direction;
     syncMode := "manual"; fieldMappings := mappings; lastSync := 0;
     enabled := true |}.

Definition samplePage : NotionPage :=
  {| page_id := "abc12345xyz";
     page_properties := [("Name", PTitle [{| plain_text := "Task" |}])];
     page_content := "remote text";
     page_lastModified := "2024-01-01T00:00:00.000Z" |}.

Definition sampleNote : ObsidianNote :=
  {| note_path := "Notes/Task.md";
     note_frontmatter :=
       [("title", VString "Task"); ("notionId", VString "abc12345xyz")];
     note_content := "local text";
     note_lastModified := 1704067200000;
     note_notionId := VString "abc12345xyz" |}.

Definition sampleRemote (lastEdited : string) : RemotePage :=
  {| remote_parent := "db1";
     remote_properties := [("Name", PTitle [{| plain_text := "Task" |}])];
     remote_blocks :=
       [{| block_id := "block-a";
           block_data :=
             KnownBlock paragraph [{| plain_text := "remote text" |}] |}];
     remote_last_edited_time := lastEdited |}.

Definition sampleWorld (policy : string) (configs : list SyncConfig)
  (remote : gmap string RemotePage) : World :=
  {| vault :=
       TFolder "/"
         [TFolder "Notes"
            [TFile "Notes/Task.md" 1704067200000
               (createMarkdownContent (note_frontmatter sampleNote)
                  "local text")]];
     pages := remote;
     idSupply := 0;
     console := [];
     clock := 1704070800000;
     settings :=
       {| notionToken := "secret"; syncConfigs := configs;
          defaultSyncMode := "manual"; syncInterval := 30;
          autoSync := false; conflictResolution := policy |};
     fates := [] |}.


(** ** Notions of the further statements *)

(** Relations between the world before and the world after that one kind
    of write does not disturb: a new node of the vault, a new text of a
    file, a record of the remote side, the settings. *)
Class ToleratesInsert (R : World -> World -> Prop) : Prop :=
  tol_insert_only : forall w parent node,
    R w (set_vault (insertChild parent node (vault w)) w).

Class ToleratesModify (R : World -> World -> Prop) : Prop :=
  tol_modify_only : forall w p now text,
    R w (set_vault (writeFile p now text (vault w)) w).

Class ToleratesRemote (R : World -> World -> Prop) : Prop :=
  tol_remote_only : forall w remote n, R w (set_pages remote n w).

Class ToleratesSettings (R : World -> World -> Prop) : Prop :=
  tol_settings_only : forall w s, R w (set_settings s w).

(** The remote side was not written. *)
Definition sameRemote (w w' : World) : Prop :=
  pages w' = pages w /\ idSupply w' = idSupply w.

(** The vault has the files and folders it had, at the places it had
    them; the text of a file may have changed. *)
Definition samePaths (w w' : World) : Prop :=
  allPaths (vault w') = allPaths (vault w).

(** A list of strings in the order [sort] leaves it in. *)
Fixpoint sortedStrings (l : list string) : Prop :=
  match l with
  | [] => True
  | x :: l' =>
      (forall y, In y l' -> String.leb x y = true) /\ sortedStrings l'
  end.

(** The text [normalizeValue] compares. *)
Definition normalized (value : JsValue) : string := (normalizeValue value).1.

(** The two objects agree on the property of a mapping, as
    [hasSignificantChanges] sees it. *)
Definition agreeOn (notion obsidian : Obj JsValue) (mapping : FieldMapping)
  : Prop :=
  normalized (getProp notion (obsidianProperty mapping) VUndefined)
  = normalized (getProp obsidian (obsidianProperty mapping) VUndefined).

(** The files and folders of a tree: the node itself and everything
    below it. *)
Fixpoint nodesOf (t : TAbstractFile) : list TAbstractFile :=
  t :: match t with
       | TFolder _ children => flat_map nodesOf children
       | TFile _ _ _ => []
       end.

Definition isMarkdownFile (f : TAbstractFile) : bool :=
  match f with
  | TFile _ _ _ => String.eqb (extension f) "md"
  | TFolder _ _ => false
  end.

(** One turn of the loop of [convertFrontmatterToNotionProperties]. *)
Definition sendStep (frontmatter : Obj JsValue)
  (properties : Obj PropertyUpdate) (mapping : FieldMapping)
  : Obj PropertyUpdate :=
  let value := getProp frontmatter (obsidianProperty mapping) VUndefined in
  if isNullish value then properties
  else if String.eqb (type mapping) "text" then
    obj_set (notionProperty mapping) (URichText (toStr value)) properties
  else if String.eqb (type mapping) "list" then
    let values := match value with VArray l => l | _ => [toStr value] end in
    obj_set (notionProperty mapping) (UMultiSelect values) properties
  else if String.eqb (type mapping) "number" then
    match toNumber value with
    | Some numValue =>
        obj_set (notionProperty mapping) (UNumber numValue) properties
    | None => properties
    end
  else if String.eqb (type mapping) "date"
          || String.eqb (type mapping) "date & time" then
    obj_set (notionProperty mapping) (UDate (toStr value)) properties
  else if String.eqb (type mapping) "checkbox" then
    obj_set (notionProperty mapping) (UCheckbox (truthy value)) properties
  else properties.

(** A value of the kind the type of a mapping stands for: a text for
    text and for the two date types, a list for list, a number for
    number, a boolean for checkbox. *)
Definition typedAs (mapping : FieldMapping) (value : JsValue) : Prop :=
  match value with
  | VString _ =>
      type mapping = "text" \/ type mapping = "date"
      \/ type mapping = "date & time"
  | VArray _ => type mapping = "list"
  | VNumber _ => type mapping = "number"
  | VBool _ => type mapping = "checkbox"
  | VNull | VUndefined => False
  end.

Definition keysOf {V} (o : Obj V) : list string := List.map fst o.

(** The front-matter value a property that was sent comes back as. *)
Definition valueOfUpdate (u : PropertyUpdate) : JsValue :=
  match u with
  | URichText content => VString content
  | UMultiSelect names => VArray names
  | UNumber n => VNumber n
  | UDate start => VString start
  | UCheckbox b => VBool b
  end.

(** The record [i] of the remote side has the content it had. *)
Definition sameContent (i : string) (w w' : World) : Prop :=
  remote_content <$> pages w' !! i = remote_content <$> pages w !! i.

(** ** The blocks of a page, read back *)

(** A block that is read back as it was written: its text is one line,
    is not empty and does not end with white space; the text of a
    paragraph does not start with white space nor with what marks a
    heading or a list item. *)
Definition plainBlock (block : NewBlock) : Prop :=
  let text := block_content block in
  text <> EmptyString
  /\ noChar JsString.LF text = true
  /\ JsString.trimEnd text = text
  /\ (block_type block = paragraph ->
      JsString.trimStart text = text
      /\ JsString.startsWith "# " text = false
      /\ JsString.startsWith "## " text = false
      /\ JsString.startsWith "### " text = false
      /\ JsString.startsWith "- " text = false
      /\ afterNumber text = None).

(** ** The editor of the field mappings (settings-tab.ts)

    [FieldMappingModal] starts from no mapping and changes its list with
    [updateMapping] and [removeMapping] only. *)

Definition removeMapping (mappings : list FieldMapping)
  (notionProperty' : string) : list FieldMapping :=
  List.filter
    (fun m => negb (String.eqb (notionProperty m) notionProperty')) mappings.

Definition updateMapping (mappings : list FieldMapping)
  (mapping : FieldMapping) : list FieldMapping :=
  let mappings :=
    List.filter
      (fun m => negb (String.eqb (notionProperty m) (notionProperty mapping)))
      mappings in
  if negb (JsString.isEmpty (JsString.trim (obsidianProperty mapping)))
  then (mappings
          ++ [{| notionProperty := notionProperty mapping;
                 obsidianProperty := JsString.trim (obsidianProperty mapping);
                 type := type mapping |}])%list
  else mappings.

Inductive MappingEdit :=
| UpdateMapping (mapping : FieldMapping)
| RemoveMapping (notionProperty : string).

Definition editMappings (edits : list MappingEdit) : list FieldMapping :=
  fold_left
    (fun mappings edit =>
       match edit with
       | UpdateMapping mapping => updateMapping mappings mapping
       | RemoveMapping k => removeMapping mappings k
       end)
    edits [].

(** ** The validation of the token (notion-api.ts)

    [validateToken] makes one search request when the token passes its
    two tests; [request] tells how that request ends, [None] when it
    returns and the error it throws otherwise. *)

Record JsError := { error_name : string; error_message : string }.

Record Validation := { valid : bool; message : string }.

Definition tokenErrorMessage (error : JsError) : string :=
  let m := error_message error in
  if JsString.includes "Failed to fetch" m || JsString.includes "fetch" m
  then "Network error: Cannot connect to Notion API. "
         ++ "Check your internet connection."
  else if JsString.includes "401" m || JsString.includes "Unauthorized" m
  then "Invalid token - check your API key"
  else if JsString.includes "403" m || JsString.includes "Forbidden" m
  then "Token lacks required permissions"
  else if JsString.includes "404" m then "API endpoint not found"
  else if JsString.includes "429" m
  then "Rate limit exceeded - try again later"
  else if String.eqb (error_name error) "TypeError"
          && JsString.includes "fetch" m
  then "Network connection failed - check if you can access notion.com"
  else "Connection error: " ++ m.

Definition validateToken (token : string) (request : option JsError)
  : Validation :=
  if JsString.isEmpty token
  then {| valid := false; message := "No token provided" |}
  else if (String.length token <? 10)%nat
  then {| valid := false; message := "Token appears to be too short" |}
  else
    match request with
    | None =>
        {| valid := true;
           message := "Token valid! Successfully connected to Notion API." |}
    | Some error => {| valid := false; message := tokenErrorMessage error |}
    end.

(** The [try] block of the loop of [syncObsidianToNotion]: [true] when
    a page was created for the note, [false] when its page was
    updated. *)
Definition pushNote (config : SyncConfig) (file : TAbstractFile)
  : Async bool :=
  content ← vault_read file;
  let note := parseMarkdownFile file content in
  let notionProperties :=
    convertFrontmatterToNotionProperties (note_frontmatter note) config in
  if truthy (note_notionId note) then
    updatePage (toStr (note_notionId note)) notionProperties
      (note_content note);;
    mret false
  else
    pageId ← createPage (notionDatabaseId config) notionProperties
               (note_content note);
    now ← Date_now;
    let updatedFrontmatter :=
      obj_set "lastObsidianSync" (VString (dateToISOString now))
        (obj_set "notionId" (VString pageId) (note_frontmatter note)) in
    let updatedContent :=
      createMarkdownContent updatedFrontmatter (note_content note) in
    vault_modify file updatedContent;;
    mret true.

(** The names of the members of [Object.prototype]. An object is
    modelled by its own entries; a read of one of these keys on an
    object without such an entry finds the inherited member in the
    program, and an assignment to __proto__ makes no entry. A mapping
    is ordinary when it reads and writes none of them that way. *)
Definition inheritedKey (k : string) : bool :=
  existsb (String.eqb k)
    ["constructor"; "hasOwnProperty"; "isPrototypeOf";
     "propertyIsEnumerable"; "toLocaleString"; "toString"; "valueOf";
     "__proto__"; "__defineGetter__"; "__defineSetter__";
     "__lookupGetter__"; "__lookupSetter__"].

Definition ordinaryMapping (m : FieldMapping) : Prop :=
  inheritedKey (obsidianProperty m) = false
  /\ notionProperty m <> "__proto__".
(** ** Awaited computations, step by step *)

Lemma run_bind {A B} (m : Async A) (k : A -> Async B) (w : World) :
  (m ≫= k) w
  = match m w with
    | (Returns a, w') => k a w'
    | (Throws e, w') => (Throws e, w')
    end.
Proof. reflexivity. Qed.

Lemma run_ret {A} (a : A) (w : World) :
  (mret a : Async A) w = (Returns a, w).
Proof. reflexivity. Qed.

Lemma run_tryCatch {A} (body : Async A) (handler : string -> Async A) w :
  tryCatch body handler w
  = match body w with
    | (Returns a, w') => (Returns a, w')
    | (Throws e, w') => handler e w'
    end.
Proof. reflexivity. Qed.

Lemma run_nextFate (w : World) :
  exists w', nextFate w = (Returns (hd Fine (fates w)), w')
             /\ fates w' = tl (fates w) /\ vault w' = vault w
             /\ pages w' = pages w /\ idSupply w' = idSupply w
             /\ console w' = console w /\ settings w' = settings w
             /\ clock w' = clock w.
Proof.
  unfold nextFate. destruct (fates w) as [|f fs] eqn:E.
  - exists w. rewrite E. auto 10.
  - eexists. split; [reflexivity|]. cbn. auto 10.
Qed.

(** ** File names (C4) *)

Lemma titleText_not_title (p : NotionProp) :
  isTitle p = false -> titleText p = None.
Proof. destruct p; cbn; congruence. Qed.

Lemma firstSome_none {A B} (f : A -> option B) (l : list A) :
  (forall x, In x l -> f x = None) -> firstSome f l = None.
Proof.
  induction l as [|x l IH]; intros H; cbn; [reflexivity|].
  rewrite (H x (or_introl eq_refl)). apply IH. intros y Hy. apply H. now right.
Qed.

Lemma obj_get_In {V} (k : string) (o : Obj V) (v : V) :
  obj_get k o = Some v -> In (k, v) o.
Proof.
  induction o as [|[k' v'] o IH]; cbn; [discriminate|].
  destruct (String.eqb_spec k' k) as [->|_].
  - intros [= ->]. now left.
  - intros H. right. now apply IH.
Qed.

Lemma untitled_page (page : NotionPage) (config : SyncConfig) :
  (forall kp, In kp (page_properties page) -> isTitle kp.2 = false) ->
  mappedTitle page config = None /\ anyTitle page = None
  /\ nameTitle page = None.
Proof.
  intros H. repeat split.
  - unfold mappedTitle.
    destruct (List.find isTitleMapping (fieldMappings config)) as [m|];
      [cbn|reflexivity].
    destruct (obj_get (notionProperty m) (page_properties page)) as [p|] eqn:E;
      [cbn|reflexivity].
    apply titleText_not_title. exact (H _ (obj_get_In _ _ _ E)).
  - apply firstSome_none. intros kp Hkp. apply titleText_not_title. auto.
  - unfold nameTitle.
    destruct (obj_get "Name" (page_properties page)) as [p|] eqn:E;
      [cbn|reflexivity].
    apply titleText_not_title. exact (H _ (obj_get_In _ _ _ E)).
Qed.

(** ** Relations (C6) *)

Lemma run_getPageInfo (pageId : string) (w : World) :
  exists w',
    getPageInfo pageId w
    = (Returns (match hd Fine (fates w), pages w !! pageId with
                | Fails _, _ | _, None => None
                | _, Some p =>
                    Some (pageId, extractTitle (remote_properties p))
                end), w')
    /\ fates w' = tl (fates w) /\ vault w' = vault w
    /\ pages w' = pages w /\ idSupply w' = idSupply w
    /\ settings w' = settings w /\ clock w' = clock w.
Proof.
  destruct (run_nextFate w) as (w' & Hrun & Hf & Hv & Hp & Hi & _ & Hs & Hk).
  unfold getPageInfo. rewrite run_tryCatch, run_bind, Hrun.
  assert (Hlook : forall f, (forall e, f <> Fails e) ->
            exists w2,
              match
                (w0 ← getWorld;
                 match pages w0 !! pageId with
                 | Some p =>
                     mret (Some (pageId, extractTitle (remote_properties p)))
                 | None => throw "Could not find page"
                 end) w'
              with
              | (Returns a, w1) => (Returns a, w1)
              | (Throws e, w1) =>
                  (say Error ("Failed to get page info for " ++ pageId
                              ++ ": " ++ e);; mret None) w1
              end
              = (Returns (match pages w !! pageId with
                          | Some p =>
                              Some (pageId,
                                    extractTitle (remote_properties p))
                          | None => None
                          end), w2)
              /\ fates w2 = tl (fates w) /\ vault w2 = vault w
              /\ pages w2 = pages w /\ idSupply w2 = idSupply w
              /\ settings w2 = settings w /\ clock w2 = clock w).
  { intros f _. unfold getWorld. rewrite run_bind, Hp.
    destruct (pages w !! pageId).
    - exists w'. split; [reflexivity|auto 10].
    - eexists. split; [reflexivity|]. cbn. auto 10. }
  destruct (hd Fine (fates w)) as [|e|].
  - destruct (Hlook Fine) as (w2 & -> & H); [discriminate|].
    exists w2. split; [|exact H]. destruct (pages w !! pageId); reflexivity.
  - eexists. split; [reflexivity|]. cbn. auto 10.
  - destruct (Hlook Nothing) as (w2 & -> & H); [discriminate|].
    exists w2. split; [|exact H]. destruct (pages w !! pageId); reflexivity.
Qed.

Lemma run_relationStep (texts : list string) (relation : Relation)
  (w : World) :
  exists w',
    relationStep texts relation w
    = (Returns (texts ++ relationTexts (pages w) (fates w)
                           (linked [relation]))%list, w')
    /\ fates w' = List.skipn (List.length (linked [relation])) (fates w)
    /\ pages w' = pages w /\ vault w' = vault w
    /\ idSupply w' = idSupply w /\ settings w' = settings w
    /\ clock w' = clock w.
Proof.
  unfold relationStep, relationStepWith, linked. cbn [List.filter].
  rewrite run_tryCatch.
  destruct (JsString.isEmpty (relation_id relation)) eqn:Hid; cbn [negb].
  - exists w. rewrite run_ret, app_nil_r. cbn. auto 10.
  - destruct (run_getPageInfo (relation_id relation) w)
      as (w' & Hrun & Hf & Hv & Hp & Hi & Hs & Hk).
    rewrite run_bind, Hrun. cbn [relationTexts relationText List.length].
    assert (Hskip : List.skipn 1 (fates w) = tl (fates w))
      by (destruct (fates w); reflexivity).
    rewrite Hskip. exists w'. split; [|auto 10].
    unfold relationText, titleOrUntitled.
    destruct (hd Fine (fates w)) as [|e|];
      destruct (pages w !! relation_id relation) as [p|]; try reflexivity;
      cbn beta iota;
      destruct (JsString.isEmpty (extractTitle (remote_properties p)));
      reflexivity.
Qed.

Lemma relationTexts_app remote (fs : list Fate) (rs1 rs2 : list Relation) :
  relationTexts remote fs (rs1 ++ rs2)
  = (relationTexts remote fs rs1
     ++ relationTexts remote (List.skipn (List.length rs1) fs) rs2)%list.
Proof.
  revert fs. induction rs1 as [|r rs1 IH]; intros fs; cbn; [reflexivity|].
  rewrite IH. destruct fs; cbn; [|reflexivity].
  now rewrite skipn_nil.
Qed.

Lemma run_relationLoop (relations : list Relation) (texts : list string)
  (w : World) :
  exists w',
    forOf relations texts relationStep w
    = (Returns (texts ++ relationTexts (pages w) (fates w)
                           (linked relations))%list, w')
    /\ fates w' = List.skipn (List.length (linked relations)) (fates w)
    /\ pages w' = pages w /\ vault w' = vault w
    /\ idSupply w' = idSupply w /\ settings w' = settings w
    /\ clock w' = clock w.
Proof.
  revert texts w. induction relations as [|r rs IH]; intros texts w.
  - exists w. cbn. rewrite app_nil_r. auto 10.
  - destruct (run_relationStep texts r w)
      as (w1 & Hrun & Hf & Hp & Hv & Hi & Hs & Hk).
    destruct (IH (texts ++ relationTexts (pages w) (fates w) (linked [r]))%list
                w1)
      as (w2 & Hrun2 & Hf2 & Hp2 & Hv2 & Hi2 & Hs2 & Hk2).
    exists w2. cbn [forOf]. rewrite run_bind, Hrun, Hrun2.
    change (r :: rs) with ([r] ++ rs)%list.
    unfold linked in *. rewrite List.filter_app, relationTexts_app, List.length_app.
    rewrite Hp, Hf, <- app_assoc, Hf2, Hf, skipn_skipn.
    split; [reflexivity|]. rewrite (Nat.add_comm (List.length _)).
    split; [reflexivity|]. repeat split; congruence.
Qed.

(** With the client of notion-api.ts: [getPageInfo] never throws, it
    answers a request that fails with null, so that a turn of the loop
    pushes the title the lookup returns and Untitled otherwise; the
    display text is the comma-joined list of one text per related
    identifier, and the call never throws. *)
Lemma getRelationDisplayText_shipped (relations : list Relation)
  (w : World) :
  (forall texts relation w0,
     relationStep texts relation w0
     = if JsString.isEmpty (relation_id relation) then (Returns texts, w0)
       else
         match getPageInfo (relation_id relation) w0 with
         | (Returns pageInfo, w1) =>
             (Returns (texts ++ [titleOrUntitled pageInfo])%list, w1)
         | (Throws e, w1) =>
             (Returns (texts ++ ["Unknown"])%list,
              set_console
                ((Error, "Failed to get page title for relation "
                         ++ relation_id relation ++ ": " ++ e)
                 :: console w1) w1)
         end)
  /\ (forall pageId w0,
        exists pageInfo w1, getPageInfo pageId w0 = (Returns pageInfo, w1))
  /\ exists w',
       getRelationDisplayText relations w
       = (Returns (JsString.join ", "
                     (relationTexts (pages w) (fates w) (linked relations))),
          w')
       /\ List.length (relationTexts (pages w) (fates w) (linked relations))
          = List.length (linked relations)
       /\ fates w' = List.skipn (List.length (linked relations)) (fates w)
       /\ sameStores w w'.
Proof.
  split.
  { intros texts relation w0. unfold relationStep, relationStepWith.
    rewrite run_tryCatch.
    destruct (JsString.isEmpty (relation_id relation)); cbn [negb];
      [reflexivity|].
    rewrite run_bind.
    destruct (getPageInfo (relation_id relation) w0) as [[[[k title]|]|e] w1];
      try reflexivity.
    unfold titleOrUntitled.
    destruct (JsString.isEmpty title); reflexivity. }
  split.
  { intros pageId w0. destruct (run_getPageInfo pageId w0) as (w1 & H & _).
    eauto. }
  assert (Hlen : forall remote rs fs,
             List.length (relationTexts remote fs rs) = List.length rs).
  { intros remote rs. induction rs; intros fs; cbn; auto. }
  destruct relations as [|r rs].
  - exists w. cbn. unfold sameStores. repeat split; reflexivity.
  - destruct (run_relationLoop (r :: rs) [] w)
      as (w' & Hrun & Hf & Hp & Hv & Hi & _).
    exists w'. unfold getRelationDisplayText, getRelationDisplayTextWith.
    change (relationStepWith getPageInfo) with relationStep.
    rewrite run_bind, Hrun. cbn [app].
    split; [reflexivity|]. split; [apply Hlen|]. split; [exact Hf|].
    unfold sameStores. auto.
Qed.

(** ** What a run leaves alone *)

#[local] Instance preserves_ret {A} R `{!Tolerates R} (a : A) :
  Preserves R (mret a : Async A).
Proof. intros w. apply tol_refl. Qed.

#[local] Instance preserves_throw {A} R `{!Tolerates R} (e : string) :
  Preserves R (throw e : Async A).
Proof. intros w. apply tol_refl. Qed.

Lemma preserves_bind {A B} R `{!Tolerates R} (m : Async A)
  (k : A -> Async B) :
  Preserves R m -> (forall a, Preserves R (k a)) -> Preserves R (m ≫= k).
Proof.
  intros Hm Hk w. rewrite run_bind. specialize (Hm w).
  destruct (m w) as [[a|e] w1]; cbn in *; [|exact Hm].
  eapply tol_trans; [exact Hm|apply Hk].
Qed.

Lemma preserves_tryCatch {A} R `{!Tolerates R} (body : Async A)
  (handler : string -> Async A) :
  Preserves R body -> (forall e, Preserves R (handler e)) ->
  Preserves R (tryCatch body handler).
Proof.
  intros Hm Hk w. rewrite run_tryCatch. specialize (Hm w).
  destruct (body w) as [[a|e] w1]; cbn in *; [exact Hm|].
  eapply tol_trans; [exact Hm|apply Hk].
Qed.

Lemma preserves_forOf {A S} R `{!Tolerates R} (l : list A) (s : S)
  (body : S -> A -> Async S) :
  (forall s x, Preserves R (body s x)) -> Preserves R (forOf l s body).
Proof.
  intros Hb. revert s. induction l as [|x l IH]; intros s; cbn [forOf].
  - apply preserves_ret; assumption.
  - apply preserves_bind; [assumption|apply Hb|intros s'; apply IH].
Qed.

#[local] Instance preserves_getWorld R `{!Tolerates R} :
  Preserves R getWorld.
Proof. intros w. apply tol_refl. Qed.

#[local] Instance preserves_say R `{!Tolerates R} (c : Channel)
  (text : string) : Preserves R (say c text).
Proof. intros w. apply tol_console. Qed.

#[local] Instance preserves_nextFate R `{!Tolerates R} :
  Preserves R nextFate.
Proof.
  intros w. unfold nextFate.
  destruct (fates w); [apply tol_refl|apply tol_fates].
Qed.

(** Walks through the body of an awaited computation; the leaves are
    found among the instances. *)
Ltac frame_step :=
  lazymatch goal with
  | |- Preserves ?R (_ ≫= _) => apply (preserves_bind R); [|intros ?]
  | |- Preserves ?R (tryCatch _ _) =>
      apply (preserves_tryCatch R); [|intros ?]
  | |- Preserves ?R (forOf _ _ _) => apply (preserves_forOf R); intros ? ?
  | |- Preserves _ (match ?x with _ => _ end) => destruct x
  | |- Preserves _ (let _ := _ in _) => cbv zeta
  | |- Preserves _ _ => solve [apply _]
  end.

Ltac frame := repeat frame_step.

#[local] Instance preserves_Date_now R `{!Tolerates R} :
  Preserves R Date_now.
Proof. unfold Date_now. frame. Qed.

#[local] Instance preserves_toISOString R `{!Tolerates R} (s : string) :
  Preserves R (toISOString s).
Proof. unfold toISOString. frame. Qed.

#[local] Instance preserves_getAbstractFileByPath R `{!Tolerates R}
  (p : string) : Preserves R (getAbstractFileByPath p).
Proof. unfold getAbstractFileByPath. frame. Qed.

#[local] Instance preserves_vault_read R `{!Tolerates R}
  (file : TAbstractFile) : Preserves R (vault_read file).
Proof. unfold vault_read. frame. Qed.

#[local] Instance preserves_getPageInfo R `{!Tolerates R}
  (pageId : string) : Preserves R (getPageInfo pageId).
Proof. unfold getPageInfo. frame. Qed.

#[local] Instance preserves_getBlockChildren R `{!Tolerates R}
  (pageId : string) : Preserves R (getBlockChildren pageId).
Proof. unfold getBlockChildren. frame. Qed.

#[local] Instance preserves_getPageContent R `{!Tolerates R}
  (pageId : string) : Preserves R (getPageContent pageId).
Proof. unfold getPageContent. frame. Qed.

#[local] Instance preserves_getDatabasePages R `{!Tolerates R}
  (databaseId : string) : Preserves R (getDatabasePages databaseId).
Proof. unfold getDatabasePages, fetchStep. frame. Qed.

#[local] Instance preserves_getAllMarkdownFiles R `{!Tolerates R}
  (folder : TAbstractFile) : Preserves R (getAllMarkdownFiles folder).
Proof. unfold getAllMarkdownFiles. frame. Qed.

#[local] Instance preserves_getRelationDisplayText R `{!Tolerates R}
  (relations : list Relation) :
  Preserves R (getRelationDisplayText relations).
Proof.
  unfold getRelationDisplayText, getRelationDisplayTextWith,
    relationStepWith.
  frame.
Qed.

#[local] Instance preserves_propertyValue R `{!Tolerates R}
  (p : NotionProp) : Preserves R (propertyValue p).
Proof. unfold propertyValue. frame. Qed.

#[local] Instance preserves_convertNotionPropertiesToFrontmatter R
  `{!Tolerates R} (properties : Obj NotionProp) (config : SyncConfig) :
  Preserves R (convertNotionPropertiesToFrontmatter properties config).
Proof.
  unfold convertNotionPropertiesToFrontmatter, autoStep, mappedStep.
  frame.
Qed.

#[local] Instance preserves_documentOfPage R `{!Tolerates R}
  (page : NotionPage) (config : SyncConfig) :
  Preserves R (documentOfPage page config).
Proof. unfold documentOfPage. frame. Qed.

#[local] Instance preserves_saveSettings R `{!Tolerates R} :
  Preserves R saveSettings.
Proof. unfold saveSettings. frame. Qed.

(** ** The vault tree *)

Lemma TAbstractFile_nested_ind (P : TAbstractFile -> Prop) :
  (forall p m d, P (TFile p m d)) ->
  (forall p cs, Forall P cs -> P (TFolder p cs)) ->
  forall t, P t.
Proof.
  intros Hfile Hfolder. fix IH 1. intros [p m d|p cs].
  - apply Hfile.
  - apply Hfolder. induction cs as [|c cs IHcs]; constructor.
    + apply IH.
    + exact IHcs.
Qed.

Lemma firstSome_is_Some {A B} (f : A -> option B) (l : list A) :
  is_Some (firstSome f l) <-> exists x, In x l /\ is_Some (f x).
Proof.
  induction l as [|x l IH]; cbn.
  - split; [intros [? [=]]|intros (? & [] & _)].
  - destruct (f x) as [b|] eqn:E.
    + split; [|eauto]. intros _. exists x. rewrite E. eauto.
    + rewrite IH. split.
      * intros (y & Hy & Hs). eauto.
      * intros (y & [->|Hy] & Hs); [rewrite E in Hs; destruct Hs; discriminate|eauto].
Qed.

Lemma findPath_allPaths (p : string) (t : TAbstractFile) :
  is_Some (findPath p t) <-> In p (allPaths t).
Proof.
  induction t as [q m d|q cs IH] using TAbstractFile_nested_ind; cbn.
  - destruct (String.eqb_spec q p) as [->|Hne].
    + split; eauto.
    + split; [intros [? [=]]|intros [?|[]]; congruence].
  - destruct (String.eqb_spec q p) as [->|Hne].
    + split; eauto.
    + rewrite firstSome_is_Some, in_flat_map. split.
      * intros (c & Hc & Hs). right. exists c. split; [exact Hc|].
        rewrite List.Forall_forall in IH. now apply IH.
      * intros [?|(c & Hc & Hin)]; [congruence|]. exists c.
        split; [exact Hc|]. rewrite List.Forall_forall in IH. now apply IH.
Qed.

Lemma allPaths_insertChild (parent : string) (node t : TAbstractFile)
  (p : string) :
  In p (allPaths t) -> In p (allPaths (insertChild parent node t)).
Proof.
  induction t as [q m d|q cs IH] using TAbstractFile_nested_ind; cbn;
    [tauto|].
  intros [<-|Hin].
  - destruct (String.eqb q parent); cbn; auto.
  - destruct (String.eqb q parent); cbn; right.
    + rewrite flat_map_app, in_app_iff. now left.
    + rewrite in_flat_map in *. destruct Hin as (c & Hc & Hin).
      exists (insertChild parent node c). split; [now apply in_map|].
      rewrite List.Forall_forall in IH. now apply IH.
Qed.

Lemma filePaths_insertChild (parent : string) (node t : TAbstractFile)
  (p : string) :
  In p (filePaths t) -> In p (filePaths (insertChild parent node t)).
Proof.
  induction t as [q m d|q cs IH] using TAbstractFile_nested_ind; cbn;
    [tauto|].
  intros Hin. destruct (String.eqb q parent); cbn.
  - rewrite flat_map_app, in_app_iff. now left.
  - rewrite in_flat_map in *. destruct Hin as (c & Hc & Hin).
    exists (insertChild parent node c). split; [now apply in_map|].
    rewrite List.Forall_forall in IH. now apply IH.
Qed.

Lemma allPaths_writeFile (q : string) (now : Z) (text : string)
  (t : TAbstractFile) :
  allPaths (writeFile q now text t) = allPaths t.
Proof.
  induction t as [p m d|p cs IH] using TAbstractFile_nested_ind; cbn.
  - destruct (String.eqb p q); reflexivity.
  - f_equal. induction IH as [|c cs Hc _ IHcs]; cbn; [reflexivity|].
    now rewrite Hc, IHcs.
Qed.

Lemma filePaths_writeFile (q : string) (now : Z) (text : string)
  (t : TAbstractFile) :
  filePaths (writeFile q now text t) = filePaths t.
Proof.
  induction t as [p m d|p cs IH] using TAbstractFile_nested_ind; cbn.
  - destruct (String.eqb p q); reflexivity.
  - induction IH as [|c cs Hc _ IHcs]; cbn; [reflexivity|].
    now rewrite Hc, IHcs.
Qed.

(** ** The three relations *)

#[local] Instance sameStores_tolerates : Tolerates sameStores.
Proof.
  split; unfold sameStores.
  - auto.
  - intros w1 w2 w3 (? & ? & ?) (? & ? & ?). repeat split; congruence.
  - auto.
  - auto.
Qed.

#[local] Instance sameSettings_tolerates : Tolerates sameSettings.
Proof.
  split; unfold sameSettings.
  - auto.
  - intros w1 w2 w3 (? & ?) (? & ?). split; congruence.
  - auto.
  - auto.
Qed.

#[local] Instance sameSettings_toleratesWrites : ToleratesWrites sameSettings.
Proof. split; [apply _|..]; unfold sameSettings; auto. Qed.

#[local] Instance quiet_tolerates : Tolerates quiet.
Proof.
  split; unfold quiet.
  - intros w. split; apply tol_refl.
  - intros w1 w2 w3 [? ?] [? ?]. split; eapply tol_trans; eassumption.
  - intros w c. split; apply tol_console.
  - intros w fs. split; apply tol_fates.
Qed.

#[local] Instance noDeletion_tolerates : Tolerates noDeletion.
Proof.
  split; unfold noDeletion.
  - auto.
  - intros w1 w2 w3 (? & ? & ?) (? & ? & ?). auto 10.
  - auto.
  - auto.
Qed.

Lemma noDeletion_set_config (i : nat) (c : SyncConfig) (w : World) :
  noDeletion w (set_config i c w).
Proof. unfold noDeletion. cbn. auto. Qed.

(** ** What the writes leave alone *)

#[local] Instance preserves_vault_insert R `{!ToleratesWrites R}
  (parent : string) (node : TAbstractFile) :
  Preserves R (vault_insert parent node).
Proof. intros w. apply tol_insert. Qed.

#[local] Instance preserves_vault_write R `{!ToleratesWrites R}
  (p : string) (now : Z) (text : string) :
  Preserves R (vault_write p now text).
Proof. intros w. apply tol_write. Qed.

#[local] Instance preserves_patched R `{!ToleratesWrites R}
  (pageId : string) (properties : Obj PropertyUpdate) :
  Preserves R (modifyWorld (patched pageId properties)).
Proof. intros w. apply tol_patched. Qed.

#[local] Instance preserves_archived R `{!ToleratesWrites R}
  (blockId : string) : Preserves R (modifyWorld (archived blockId)).
Proof. intros w. apply tol_archived. Qed.

#[local] Instance preserves_appended R `{!ToleratesWrites R}
  (pageId : string) (children : list NewBlock) :
  Preserves R (modifyWorld (appended pageId children)).
Proof. intros w. apply tol_appended. Qed.

#[local] Instance preserves_postPage R `{!ToleratesWrites R}
  (databaseId : string) (properties : Obj PropertyUpdate)
  (children : list NewBlock) :
  Preserves R (postPage databaseId properties children).
Proof.
  intros w. unfold postPage.
  destruct (pages w !! newPageId w) eqn:E; cbn [snd].
  - apply tol_refl.
  - now apply tol_posted.
Qed.

#[local] Instance preserves_vault_create R `{!ToleratesWrites R}
  (p text : string) : Preserves R (vault_create p text).
Proof. unfold vault_create. frame. Qed.

#[local] Instance preserves_vault_modify R `{!ToleratesWrites R}
  (file : TAbstractFile) (text : string) :
  Preserves R (vault_modify file text).
Proof. unfold vault_modify. frame. Qed.

#[local] Instance preserves_vault_createFolder R `{!ToleratesWrites R}
  (p : string) : Preserves R (vault_createFolder p).
Proof. unfold vault_createFolder. frame. Qed.

#[local] Instance preserves_createPage R `{!ToleratesWrites R}
  (databaseId : string) (properties : Obj PropertyUpdate)
  (content : string) : Preserves R (createPage databaseId properties content).
Proof. unfold createPage. frame. Qed.

#[local] Instance preserves_updatePage R `{!ToleratesWrites R}
  (pageId : string) (properties : Obj PropertyUpdate) (content : string) :
  Preserves R (updatePage pageId properties content).
Proof.
  unfold updatePage, patchPage, getBlockChildren, deleteBlock,
    appendBlockChildren.
  frame.
Qed.

#[local] Instance preserves_ensureFolderExists R `{!ToleratesWrites R}
  (folderPath : string) : Preserves R (ensureFolderExists folderPath).
Proof. unfold ensureFolderExists. frame. Qed.

#[local] Instance preserves_createObsidianFromNotion R
  `{!ToleratesWrites R} (page : NotionPage) (config : SyncConfig) :
  Preserves R (createObsidianFromNotion page config).
Proof. unfold createObsidianFromNotion. frame. Qed.

#[local] Instance preserves_createNotionFromObsidian R
  `{!ToleratesWrites R} (note : ObsidianNote) (config : SyncConfig) :
  Preserves R (createNotionFromObsidian note config).
Proof. unfold createNotionFromObsidian. frame. Qed.

#[local] Instance preserves_updateObsidianFromNotion R
  `{!ToleratesWrites R} (page : NotionPage) (config : SyncConfig) :
  Preserves R (updateObsidianFromNotion page config).
Proof. unfold updateObsidianFromNotion. frame. Qed.

#[local] Instance preserves_updateNotionFromObsidian R
  `{!ToleratesWrites R} (note : ObsidianNote) (config : SyncConfig) :
  Preserves R (updateNotionFromObsidian note config).
Proof. unfold updateNotionFromObsidian. frame. Qed.

#[local] Instance preserves_resolveConflict R `{!ToleratesWrites R}
  (page : NotionPage) (note : ObsidianNote) (config : SyncConfig) :
  Preserves R (resolveConflict page note config).
Proof. unfold resolveConflict. frame. Qed.

#[local] Instance preserves_pullPage R `{!ToleratesWrites R}
  (page : NotionPage) (config : SyncConfig) :
  Preserves R (pullPage page config).
Proof. unfold pullPage. frame. Qed.

#[local] Instance preserves_pullStep R `{!ToleratesWrites R}
  (config : SyncConfig) (n : PullCount) (page : NotionPage) :
  Preserves R (pullStep config n page).
Proof. unfold pullStep. frame. Qed.

#[local] Instance preserves_syncNotionToObsidian R `{!ToleratesWrites R}
  (config : SyncConfig) : Preserves R (syncNotionToObsidian config).
Proof. unfold syncNotionToObsidian. frame. Qed.

#[local] Instance preserves_pushStep R `{!ToleratesWrites R}
  (config : SyncConfig) (counts : nat * nat) (file : TAbstractFile) :
  Preserves R (pushStep config counts file).
Proof. unfold pushStep. frame. Qed.

#[local] Instance preserves_syncObsidianToNotion R `{!ToleratesWrites R}
  (config : SyncConfig) : Preserves R (syncObsidianToNotion config).
Proof. unfold syncObsidianToNotion. frame. Qed.

#[local] Instance preserves_mergePageStep R `{!ToleratesWrites R}
  (config : SyncConfig) (notes : list ObsidianNote) (n : MergeCount)
  (page : NotionPage) : Preserves R (mergePageStep config notes n page).
Proof. unfold mergePageStep. frame. Qed.

#[local] Instance preserves_mergeNoteStep R `{!ToleratesWrites R}
  (config : SyncConfig) (notionPages : list NotionPage) (n : MergeCount)
  (note : ObsidianNote) :
  Preserves R (mergeNoteStep config notionPages n note).
Proof. unfold mergeNoteStep. frame. Qed.

#[local] Instance preserves_syncBidirectional R `{!ToleratesWrites R}
  (config : SyncConfig) : Preserves R (syncBidirectional config).
Proof. unfold syncBidirectional, readStep. frame. Qed.

#[local] Instance preserves_checkConfig R `{!Tolerates R}
  (config : SyncConfig) : Preserves R (checkConfig config).
Proof. unfold checkConfig. frame. Qed.

#[local] Instance preserves_chooseDirection R `{!Tolerates R}
  (config : SyncConfig) (direction : string) :
  Preserves R (chooseDirection config direction).
Proof. unfold chooseDirection. frame. Qed.

#[local] Instance preserves_runDirection R `{!ToleratesWrites R}
  (config : SyncConfig) (actualDirection direction : string) :
  Preserves R (runDirection config actualDirection direction).
Proof. unfold runDirection. frame. Qed.

(** ** What cannot throw *)

#[local] Instance returns_ret {A} (a : A) : AlwaysReturns (mret a : Async A).
Proof. intros w. now exists a. Qed.

Lemma returns_bind {A B} (m : Async A) (k : A -> Async B) :
  AlwaysReturns m -> (forall a, AlwaysReturns (k a)) ->
  AlwaysReturns (m ≫= k).
Proof.
  intros Hm Hk w. rewrite run_bind. destruct (Hm w) as [a Ha].
  destruct (m w) as [[a'|e] w1]; cbn in Ha; [|discriminate]. apply Hk.
Qed.

Lemma returns_tryCatch {A} (body : Async A) (handler : string -> Async A) :
  (forall e, AlwaysReturns (handler e)) -> AlwaysReturns (tryCatch body handler).
Proof.
  intros Hk w. rewrite run_tryCatch.
  destruct (body w) as [[a|e] w1]; [now exists a|apply Hk].
Qed.

Lemma returns_forOf {A S} (l : list A) (s : S) (body : S -> A -> Async S) :
  (forall s x, AlwaysReturns (body s x)) -> AlwaysReturns (forOf l s body).
Proof.
  intros Hb. revert s. induction l as [|x l IH]; intros s; cbn [forOf].
  - apply returns_ret.
  - apply returns_bind; [apply Hb|intros s'; apply IH].
Qed.

#[local] Instance returns_getWorld : AlwaysReturns getWorld.
Proof. intros w. now exists w. Qed.

#[local] Instance returns_say (c : Channel) (text : string) :
  AlwaysReturns (say c text).
Proof. intros w. now exists tt. Qed.

#[local] Instance returns_nextFate : AlwaysReturns nextFate.
Proof. intros w. unfold nextFate. destruct (fates w); eauto. Qed.

Ltac total_step :=
  lazymatch goal with
  | |- AlwaysReturns (_ ≫= _) => apply returns_bind; [|intros ?]
  | |- AlwaysReturns (tryCatch _ _) => apply returns_tryCatch; intros ?
  | |- AlwaysReturns (forOf _ _ _) => apply returns_forOf; intros ? ?
  | |- AlwaysReturns (match ?x with _ => _ end) => destruct x
  | |- AlwaysReturns (let _ := _ in _) => cbv zeta
  | |- AlwaysReturns _ => solve [apply _]
  end.

Ltac total := repeat total_step.

#[local] Instance returns_Date_now : AlwaysReturns Date_now.
Proof. unfold Date_now. total. Qed.

#[local] Instance returns_getAbstractFileByPath (p : string) :
  AlwaysReturns (getAbstractFileByPath p).
Proof. unfold getAbstractFileByPath. total. Qed.

#[local] Instance returns_getRelationDisplayText (relations : list Relation) :
  AlwaysReturns (getRelationDisplayText relations).
Proof.
  unfold getRelationDisplayText, getRelationDisplayTextWith,
    relationStepWith.
  total.
Qed.

#[local] Instance returns_propertyValue (p : NotionProp) :
  AlwaysReturns (propertyValue p).
Proof. unfold propertyValue. total. Qed.

#[local] Instance returns_convertNotionPropertiesToFrontmatter
  (properties : Obj NotionProp) (config : SyncConfig) :
  AlwaysReturns (convertNotionPropertiesToFrontmatter properties config).
Proof.
  unfold convertNotionPropertiesToFrontmatter, autoStep, mappedStep. total.
Qed.

#[local] Instance returns_saveSettings : AlwaysReturns saveSettings.
Proof. unfold saveSettings. total. Qed.

(** A run that cannot throw, with what it leaves alone. *)
Lemma run_returns {A} R (m : Async A) `{!AlwaysReturns m} `{!Preserves R m}
  (w : World) : exists a w', m w = (Returns a, w') /\ R w w'.
Proof.
  destruct (returned (m := m) w) as [a Ha].
  pose proof (preserved (m := m) w) as HR.
  destruct (m w) as [[a'|e] w'] eqn:E; cbn in *; [|discriminate].
  injection Ha as ->. eauto.
Qed.

(** ** Conversion without mappings (C5) *)

Lemma obj_get_set_eq {V} (k : string) (v : V) (o : Obj V) :
  obj_get k (obj_set k v o) = Some v.
Proof.
  induction o as [|[k' v'] o IH]; cbn.
  - now rewrite String.eqb_refl.
  - destruct (String.eqb_spec k' k) as [->|Hne]; cbn.
    + now rewrite String.eqb_refl.
    + destruct (String.eqb_spec k' k); [contradiction|exact IH].
Qed.

Lemma obj_get_set_ne {V} (k k' : string) (v : V) (o : Obj V) :
  k <> k' -> obj_get k' (obj_set k v o) = obj_get k' o.
Proof.
  intros Hne. induction o as [|[k0 v0] o IH]; cbn.
  - destruct (String.eqb_spec k k'); [contradiction|reflexivity].
  - destruct (String.eqb_spec k0 k) as [->|Hne0]; cbn.
    + destruct (String.eqb_spec k k'); [contradiction|reflexivity].
    + destruct (String.eqb_spec k0 k'); [reflexivity|exact IH].
Qed.

Lemma run_autoStep (frontmatter : Obj JsValue)
  (entry : string * NotionProp) (w : World) :
  exists v w',
    autoStep frontmatter entry w
    = (Returns (obj_assign (frontmatterKey entry.1) v frontmatter), w')
    /\ isNullish v = false /\ sameStores w w'.
Proof.
  unfold autoStep. cbv zeta. rewrite run_tryCatch, run_bind.
  destruct (run_returns sameStores (propertyValue entry.2) w)
    as (known & w' & -> & HR).
  destruct known as [v|].
  - destruct (isNullish v) eqn:Hv; cbn [negb].
    + exists (VString EmptyString), w'. auto.
    + exists v, w'. auto.
  - eexists _, w'. cbn. auto.
Qed.

Lemma run_autoLoop (properties : Obj NotionProp) (acc : Obj JsValue)
  (w : World) :
  exists fm w',
    forOf properties acc autoStep w = (Returns fm, w')
    /\ (forall k, (exists v, obj_get k acc = Some v /\ isNullish v = false) ->
                  exists v, obj_get k fm = Some v /\ isNullish v = false)
    /\ (forall name prop, In (name, prop) properties ->
          frontmatterKey name <> "__proto__" ->
          exists v, obj_get (frontmatterKey name) fm = Some v
                    /\ isNullish v = false)
    /\ (forall k, obj_get k acc = None ->
                  ~ In k (List.map (fun kp => frontmatterKey kp.1) properties) ->
                  obj_get k fm = None)
    /\ (obj_get "__proto__" acc = None -> obj_get "__proto__" fm = None)
    /\ sameStores w w'.
Proof.
  revert acc w. induction properties as [|entry ps IH]; intros acc w.
  - exists acc, w. cbn. repeat split; auto. intros ? ? [].
  - destruct (run_autoStep acc entry w) as (v & w1 & Hrun & Hv & HR1).
    destruct (IH (obj_assign (frontmatterKey entry.1) v acc) w1)
      as (fm & w2 & Hrun2 & Hkeep & Hall & Hout & Hproto & HR2).
    exists fm, w2. cbn [forOf]. rewrite run_bind, Hrun, Hrun2.
    split; [reflexivity|].
    assert (Hstep : forall k,
               (exists v0, obj_get k acc = Some v0 /\ isNullish v0 = false) ->
               exists v0,
                 obj_get k (obj_assign (frontmatterKey entry.1) v acc)
                 = Some v0 /\ isNullish v0 = false).
    { intros k (v0 & Hk & Hv0). unfold obj_assign.
      destruct (String.eqb (frontmatterKey entry.1) "__proto__"); [eauto|].
      destruct (String.eqb_spec (frontmatterKey entry.1) k) as [<-|Hne].
      - rewrite obj_get_set_eq. eauto.
      - rewrite obj_get_set_ne by exact Hne. eauto. }
    split; [|split; [|split; [|split]]].
    + intros k Hk. apply Hkeep, Hstep, Hk.
    + intros name prop [->|Hin] Hkey; [|eauto].
      apply Hkeep. cbn [fst]. unfold obj_assign.
      apply String.eqb_neq in Hkey. rewrite Hkey, obj_get_set_eq. eauto.
    + intros k Hk Hnot. apply Hout; [|intros Hin; apply Hnot; now right].
      unfold obj_assign.
      destruct (String.eqb (frontmatterKey entry.1) "__proto__");
        [exact Hk|].
      rewrite obj_get_set_ne; [exact Hk|]. intros E. apply Hnot. now left.
    + intros Hk. apply Hproto. unfold obj_assign.
      destruct (String.eqb_spec (frontmatterKey entry.1) "__proto__")
        as [E|Hne]; [exact Hk|].
      now rewrite obj_get_set_ne.
    + eapply tol_trans; eassumption.
Qed.


(** ** One run of a configuration (C2, C10) *)

Lemma run_checkConfig (config : SyncConfig) (w : World) :
  checkConfig config w
  = (if JsString.isEmpty (notionDatabaseId config)
     then Throws "No Notion database ID specified"
     else if JsString.isEmpty (obsidianFolder config)
          then Throws "No Obsidian folder specified"
          else Returns tt, w).
Proof.
  unfold checkConfig.
  destruct (JsString.isEmpty (notionDatabaseId config));
    destruct (JsString.isEmpty (obsidianFolder config)); reflexivity.
Qed.

Lemma run_recordSync (i : nat) (config : SyncConfig) (w : World) :
  exists w',
    recordSync i config w = (Returns tt, w')
    /\ settings w'
       = set_syncConfigs
           (<[i := set_lastSync (clock w) config]> (syncConfigs (settings w)))
           (settings w)
    /\ sameStores w w' /\ clock w' = clock w.
Proof.
  unfold recordSync, Date_now. rewrite !run_bind. cbn [getWorld].
  rewrite run_ret, run_bind. cbn [modifyWorld]. rewrite run_bind.
  destruct (run_returns quiet saveSettings
              (set_config i (set_lastSync (clock w) config) w))
    as ([] & w1 & -> & (Hv & Hp & Hi) & Hs & Hc).
  eexists. split; [reflexivity|]. cbn in *.
  unfold sameStores. cbn. auto.
Qed.

Lemma run_rethrow (name e : string) (w : World) :
  (say Error ("Sync config failed: " ++ e);;
   throw ("Failed to sync " ++ name ++ ": " ++ e) : Async unit) w
  = (Throws ("Failed to sync " ++ name ++ ": " ++ e),
     set_console ((Error, "Sync config failed: " ++ e) :: console w) w).
Proof. reflexivity. Qed.

(** C10. [syncConfig] writes [lastSync] only once the algorithm of its
    direction has returned: a run that throws leaves the settings, and
    with them the [lastSync] of the configuration, as they were; a run
    that returns has set the [lastSync] of the configuration, and of no
    other, to the time of the clock. *)
Theorem syncConfig_lastSync (i : nat) (overrideDirection : option string)
  (config : SyncConfig) (w : World) :
  syncConfigs (settings w) !! i = Some config ->
  match syncConfig i overrideDirection w with
  | (Throws _, w') => settings w' = settings w
  | (Returns _, w') =>
      syncConfigs (settings w')
      = <[i := set_lastSync (clock w) config]> (syncConfigs (settings w))
      /\ (syncConfigs (settings w') !! i) = Some (set_lastSync (clock w) config)
  end.
Proof.
  intros Hi. unfold syncConfig. rewrite run_bind. cbn [getWorld].
  rewrite Hi. cbv zeta. rewrite run_bind. cbn [say modifyWorld].
  set (w0 := set_console _ w).
  assert (H0 : sameSettings w w0) by (split; reflexivity).
  rewrite run_tryCatch, run_bind, run_checkConfig.
  destruct (JsString.isEmpty (notionDatabaseId config));
    [rewrite run_rethrow; exact (proj1 H0)|].
  destruct (JsString.isEmpty (obsidianFolder config));
    [rewrite run_rethrow; exact (proj1 H0)|].
  rewrite run_bind.
  pose proof (preserved (R := sameSettings)
                (m := chooseDirection config
                        (directionOf overrideDirection config)) w0) as H1.
  destruct (chooseDirection config _ w0) as [[actual|e] w1]; cbn in H1;
    [|rewrite run_rethrow; cbn; destruct H0, H1; congruence].
  rewrite run_bind.
  pose proof (preserved (R := sameSettings)
                (m := runDirection config actual
                        (directionOf overrideDirection config)) w1) as H2.
  destruct (runDirection config actual _ w1) as [[[]|e] w2]; cbn in H2;
    [|rewrite run_rethrow; cbn; destruct H0, H1, H2; congruence].
  destruct (run_recordSync i config w2) as (w3 & -> & Hs & _ & _).
  destruct H0 as [Hs0 Hc0], H1 as [Hs1 Hc1], H2 as [Hs2 Hc2].
  rewrite Hs. cbn. rewrite Hs2, Hs1, Hs0, Hc2, Hc1, Hc0.
  split; [reflexivity|].
  apply list_lookup_insert_eq. eapply lookup_lt_Some, Hi.
Qed.

Lemma run_say (c : Channel) (text : string) (w : World) :
  say c text w = (Returns tt, set_console ((c, text) :: console w) w).
Proof. reflexivity. Qed.

(** C2. With an empty list of field mappings, a run whose direction is
    Obsidian to Notion throws before anything but the console is touched,
    with the message that names the missing mappings when the
    configuration is otherwise valid; a run whose direction is
    bidirectional logs the warning and a note, runs the pull from Notion
    to Obsidian in its place, and returns whenever that pull returns. *)
Theorem syncConfig_without_mappings (i : nat)
  (overrideDirection : option string) (config : SyncConfig) (w : World) :
  syncConfigs (settings w) !! i = Some config ->
  fieldMappings config = [] ->
  let started := (Notice, "Syncing " ++ config_name config ++ "...") in
  (directionOf overrideDirection config = SyncDirection.OBSIDIAN_TO_NOTION ->
   exists e entries,
     syncConfig i overrideDirection w
     = (Throws e, set_console (entries ++ console w)%list w)
     /\ (JsString.isEmpty (notionDatabaseId config) = false ->
         JsString.isEmpty (obsidianFolder config) = false ->
         e = "Failed to sync " ++ config_name config ++ ": " ++ noMappingsError
         /\ entries = [(Error, "Sync config failed: " ++ noMappingsError);
                       (Warn, noMappingsWarning config); started]))
  /\ (directionOf overrideDirection config = SyncDirection.BIDIRECTIONAL ->
      JsString.isEmpty (notionDatabaseId config) = false ->
      JsString.isEmpty (obsidianFolder config) = false ->
      let warned :=
        set_console ((Log, forcedDirectionNote)
                     :: (Warn, noMappingsWarning config) :: started
                     :: console w) w in
      syncConfig i overrideDirection w
      = match syncNotionToObsidian config warned with
        | (Returns _, w2) => recordSync i config w2
        | (Throws e, w2) =>
            (Throws ("Failed to sync " ++ config_name config ++ ": " ++ e),
             set_console ((Error, "Sync config failed: " ++ e) :: console w2)
               w2)
        end
      /\ (forall w2,
            syncNotionToObsidian config warned = (Returns tt, w2) ->
            exists w3, syncConfig i overrideDirection w = (Returns tt, w3))).
Proof.
  intros Hi Hnone started. split.
  - intros Hdir. unfold syncConfig. rewrite run_bind. cbn [getWorld].
    rewrite Hi. cbv zeta. rewrite run_bind. cbn [say modifyWorld].
    rewrite run_tryCatch, run_bind, run_checkConfig.
    destruct (JsString.isEmpty (notionDatabaseId config)).
    { rewrite run_rethrow. eexists _, [_; _]. split; [reflexivity|].
      discriminate. }
    destruct (JsString.isEmpty (obsidianFolder config)).
    { rewrite run_rethrow. eexists _, [_; _]. split; [reflexivity|].
      discriminate. }
    rewrite run_bind. unfold chooseDirection. rewrite Hnone, Hdir.
    cbn. eexists _, [_; _; _]. split; [reflexivity|]. auto.
  - intros Hdir Hdb Hfolder warned.
    assert (Hrun :
      syncConfig i overrideDirection w
      = match syncNotionToObsidian config warned with
        | (Returns _, w2) => recordSync i config w2
        | (Throws e, w2) =>
            (Throws ("Failed to sync " ++ config_name config ++ ": " ++ e),
             set_console ((Error, "Sync config failed: " ++ e) :: console w2)
               w2)
        end).
    { unfold syncConfig. rewrite run_bind. cbn [getWorld].
      rewrite Hi. cbv zeta. rewrite run_bind. cbn [say modifyWorld].
      rewrite run_tryCatch, run_bind, run_checkConfig, Hdb, Hfolder.
      rewrite run_bind. unfold chooseDirection. rewrite Hnone, Hdir.
      change (String.eqb SyncDirection.BIDIRECTIONAL
                SyncDirection.OBSIDIAN_TO_NOTION) with false.
      change (String.eqb SyncDirection.BIDIRECTIONAL
                SyncDirection.BIDIRECTIONAL) with true.
      cbv iota. rewrite run_bind, run_say, run_bind, run_say, run_ret.
      change (set_console _ (set_console _ (set_console _ w))) with warned.
      rewrite run_bind. unfold runDirection.
      change (String.eqb SyncDirection.NOTION_TO_OBSIDIAN
                SyncDirection.NOTION_TO_OBSIDIAN) with true.
      cbv iota.
      destruct (syncNotionToObsidian config warned) as [[[]|e] w2].
      - destruct (run_recordSync i config w2) as (w3 & Hrec & _).
        rewrite Hrec. reflexivity.
      - reflexivity. }
    split; [exact Hrun|].
    intros w2 Hpull. rewrite Hrun, Hpull.
    destruct (run_recordSync i config w2) as (w3 & -> & _). eauto.
Qed.

(** ** Conflicts (C1, C9) *)

Lemma run_compare (page : NotionPage) (note : ObsidianNote)
  (config : SyncConfig) (w : World) :
  exists nfm w1,
    convertNotionPropertiesToFrontmatter (page_properties page) config w
    = (Returns nfm, w1)
    /\ quiet w w1
    /\ resolveConflict page note config w
       = if differ nfm page note config then
           let pushed :=
             with_frontmatter
               (hasSignificantChanges nfm (note_frontmatter note) config).2
               note in
           let policy := conflictResolution (settings w) in
           if String.eqb policy "notion-wins" then
             (updateObsidianFromNotion page config;; mret "notion-wins") w1
           else if String.eqb policy "obsidian-wins" then
             (updateNotionFromObsidian pushed config;; mret "obsidian-wins")
               w1
           else if String.eqb policy "newer-wins" then
             if newer (dateParse (page_lastModified page))
                  (note_lastModified note)
             then (updateObsidianFromNotion page config;;
                   mret "notion-wins") w1
             else (updateNotionFromObsidian pushed config;;
                   mret "obsidian-wins") w1
           else if String.eqb policy "manual" then
             (say Notice ("Conflict detected: " ++ note_path note
                          ++ ". Manual resolution required.");;
              say Warn "Conflict details:";;
              mret "conflict") w1
           else (Returns "no-change", w1)
         else (Returns "no-change", w1).
Proof.
  destruct (run_returns quiet
              (convertNotionPropertiesToFrontmatter (page_properties page)
                 config) w) as (nfm & w1 & Hrun & Hq).
  exists nfm, w1. split; [exact Hrun|]. split; [exact Hq|].
  unfold resolveConflict. rewrite run_bind, Hrun. cbv zeta.
  unfold differ. cbn [note_content note_path with_frontmatter].
  destruct Hq as [_ [Hs _]].
  destruct (hasSignificantChanges nfm (note_frontmatter note) config).1;
    cbn [negb andb orb].
  - rewrite run_bind. cbn [getWorld]. rewrite Hs.
    repeat (destruct (String.eqb (conflictResolution (settings w)) _);
            [reflexivity|]).
    destruct (String.eqb (conflictResolution (settings w)) "newer-wins");
      [destruct (newer _ _); reflexivity|].
    destruct (String.eqb (conflictResolution (settings w)) "manual");
      reflexivity.
  - destruct (negb (String.eqb _ _)); cbn [negb]; [|reflexivity].
    rewrite run_bind. cbn [getWorld]. rewrite Hs.
    repeat (destruct (String.eqb (conflictResolution (settings w)) _);
            [reflexivity|]).
    destruct (String.eqb (conflictResolution (settings w)) "newer-wins");
      [destruct (newer _ _); reflexivity|].
    destruct (String.eqb (conflictResolution (settings w)) "manual");
      reflexivity.
Qed.

(** C9. Under a conflict-resolution policy that is none of notion-wins,
    obsidian-wins, newer-wins and manual, [resolveConflict] returns
    no-change and writes neither side, whether the pair differs or not. *)
Theorem resolveConflict_unknown_policy (page : NotionPage)
  (note : ObsidianNote) (config : SyncConfig) (w : World) :
  conflictResolution (settings w) <> "notion-wins" ->
  conflictResolution (settings w) <> "obsidian-wins" ->
  conflictResolution (settings w) <> "newer-wins" ->
  conflictResolution (settings w) <> "manual" ->
  exists w',
    resolveConflict page note config w = (Returns "no-change", w')
    /\ sameStores w w' /\ sameSettings w w'.
Proof.
  intros H1 H2 H3 H4.
  destruct (run_compare page note config w) as (nfm & w1 & _ & Hq & ->).
  exists w1. split; [|exact Hq].
  apply String.eqb_neq in H1, H2, H3, H4. cbv zeta.
  rewrite H1, H2, H3, H4. now destruct (differ nfm page note config).
Qed.


(** ** The pull (C7) *)

Lemma run_pullStep (config : SyncConfig) (n : PullCount)
  (page : NotionPage) (w : World) :
  pullStep config n page w
  = match pullPage page config w with
    | (Returns true, w') =>
        (Returns {| createdCount := S (createdCount n);
                    updatedCount := updatedCount n;
                    errorCount := errorCount n |}, w')
    | (Returns false, w') =>
        (Returns {| createdCount := createdCount n;
                    updatedCount := S (updatedCount n);
                    errorCount := errorCount n |}, w')
    | (Throws e, w') =>
        (Returns {| createdCount := createdCount n;
                    updatedCount := updatedCount n;
                    errorCount := S (errorCount n) |},
         set_console
           ((Notice, "Failed to sync page " ++ page_id page ++ ": " ++ e)
            :: (Error, "Failed to sync page " ++ page_id page ++ ": " ++ e)
            :: console w') w')
    end.
Proof.
  unfold pullStep. rewrite run_tryCatch, run_bind.
  destruct (pullPage page config w) as [[[]|e] w']; reflexivity.
Qed.

Lemma run_pullLoop (config : SyncConfig) (notionPages : list NotionPage)
  (n : PullCount) (w : World) :
  exists n' w',
    forOf notionPages n (pullStep config) w = (Returns n', w')
    /\ createdCount n' + updatedCount n' + errorCount n'
       = createdCount n + updatedCount n + errorCount n
         + List.length notionPages.
Proof.
  revert n w. induction notionPages as [|page rest IH]; intros n w.
  - exists n, w. cbn. split; [reflexivity|lia].
  - cbn [forOf]. rewrite run_bind, run_pullStep.
    destruct (pullPage page config w) as [[[]|e] w1];
      match goal with
      | |- context [forOf rest ?n1 _ ?w1] =>
          destruct (IH n1 w1) as (n' & w' & -> & Hsum)
      end;
      exists n', w'; (split; [reflexivity|]); cbn in Hsum |- *; lia.
Qed.

(** C7. In a pull, a record whose processing throws is caught and counted
    as an error, and the loop goes on: once the records are fetched and
    the folder is there, the pull returns, the three counters add up to
    the number of records fetched, and the report of the counters is the
    last thing written to the console. *)
Theorem pull_counts_every_record (config : SyncConfig) (w : World) :
  (forall n page w0,
     pullStep config n page w0
     = match pullPage page config w0 with
       | (Returns true, w') =>
           (Returns {| createdCount := S (createdCount n);
                       updatedCount := updatedCount n;
                       errorCount := errorCount n |}, w')
       | (Returns false, w') =>
           (Returns {| createdCount := createdCount n;
                       updatedCount := S (updatedCount n);
                       errorCount := errorCount n |}, w')
       | (Throws e, w') =>
           (Returns {| createdCount := createdCount n;
                       updatedCount := updatedCount n;
                       errorCount := S (errorCount n) |},
            set_console
              ((Notice, "Failed to sync page " ++ page_id page ++ ": " ++ e)
               :: (Error, "Failed to sync page " ++ page_id page ++ ": " ++ e)
               :: console w') w')
       end)
  /\ (forall notionPages w1 folder w2,
        getDatabasePages (notionDatabaseId config) w
        = (Returns notionPages, w1) ->
        notionPages <> [] ->
        ensureFolderExists (obsidianFolder config) w1
        = (Returns folder, w2) ->
        exists n w3,
          forOf notionPages
            {| createdCount := 0; updatedCount := 0; errorCount := 0 |}
            (pullStep config) w2
          = (Returns n, w3)
          /\ createdCount n + updatedCount n + errorCount n
             = List.length notionPages
          /\ syncNotionToObsidian config w
             = (Returns tt,
                set_console (pullReport n ++ console w3)%list w3)).
Proof.
  split; [intros; apply run_pullStep|].
  intros notionPages w1 folder w2 Hfetch Hsome Hfolder.
  destruct (run_pullLoop config notionPages
              {| createdCount := 0; updatedCount := 0; errorCount := 0 |} w2)
    as (n & w3 & Hloop & Hsum).
  exists n, w3. split; [exact Hloop|]. split; [exact Hsum|].
  unfold syncNotionToObsidian. rewrite run_bind, Hfetch.
  destruct notionPages as [|page rest]; [contradiction|].
  rewrite run_bind, Hfolder, run_bind, Hloop. cbv zeta.
  unfold pullReport. destruct (0 <? errorCount n)%nat; reflexivity.
Qed.

(** ** Strings *)

Import JsString.

Lemma app_cons (c : ascii) (s t : string) :
  String c s ++ t = String c (s ++ t).
Proof. reflexivity. Qed.

Lemma app_nil_l (s : string) : EmptyString ++ s = s.
Proof. reflexivity. Qed.

Lemma app_nil_r (s : string) : s ++ EmptyString = s.
Proof. induction s as [|c s IH]; [reflexivity|]. now rewrite app_cons, IH. Qed.

Lemma app_assoc (a b c : string) : (a ++ b) ++ c = a ++ (b ++ c).
Proof.
  induction a as [|x a IH]; [reflexivity|]. now rewrite !app_cons, IH.
Qed.

Lemma length_app (a b : string) :
  String.length (a ++ b) = String.length a + String.length b.
Proof.
  induction a as [|x a IH]; [reflexivity|]. rewrite app_cons. cbn.
  now rewrite IH.
Qed.

Lemma startsWith_app (p s : string) : startsWith p (p ++ s) = true.
Proof.
  induction p as [|c p IH]; [reflexivity|]. rewrite app_cons. cbn.
  now rewrite Ascii.eqb_refl, IH.
Qed.

Lemma drop_app (p s : string) (n : nat) :
  drop (String.length p + n) (p ++ s) = drop n s.
Proof. induction p as [|c p IH]; [reflexivity|]. rewrite app_cons. exact IH. Qed.

Lemma take_app (p s : string) : take (String.length p) (p ++ s) = p.
Proof.
  induction p as [|c p IH]; [now destruct s|]. rewrite app_cons. cbn.
  now rewrite IH.
Qed.

Lemma endsWith_app (suf s : string) : endsWith suf (s ++ suf) = true.
Proof.
  induction s as [|c s IH].
  - rewrite app_nil_l. destruct suf; cbn [endsWith];
      now rewrite String.eqb_refl.
  - rewrite app_cons. cbn [endsWith]. rewrite IH.
    now destruct (String.eqb _ _).
Qed.

Lemma dropLast_app (s : string) (c : ascii) : dropLast (s ++ str1 c) = s.
Proof.
  induction s as [|a s IH]; [reflexivity|]. rewrite app_cons.
  cbn [dropLast]. rewrite IH. now destruct s.
Qed.

Lemma trimEnd_app (s : string) (c : ascii) :
  isWhiteSpace c = false -> trimEnd (s ++ str1 c) = s ++ str1 c.
Proof.
  intros Hc. induction s as [|a s IH].
  - rewrite app_nil_l. cbn. now rewrite Hc.
  - rewrite app_cons. cbn [trimEnd]. rewrite IH. now destruct s.
Qed.

(** A text that starts and ends with something else than white space is
    left alone by [trim], also after a space. *)
Lemma trim_framed (a c : ascii) (s : string) :
  isWhiteSpace a = false -> isWhiteSpace c = false ->
  trim (String a (s ++ str1 c)) = String a (s ++ str1 c)
  /\ trim (" " ++ String a (s ++ str1 c)) = String a (s ++ str1 c).
Proof.
  intros Ha Hc.
  assert (H : trim (String a (s ++ str1 c)) = String a (s ++ str1 c)).
  { unfold trim. cbn [trimStart]. rewrite Ha.
    change (String a (s ++ str1 c)) with (String a s ++ str1 c).
    now apply trimEnd_app. }
  split; [exact H|]. unfold trim in *. rewrite app_cons, app_nil_l.
  cbn [trimStart]. change (isWhiteSpace " ") with true. cbv iota.
  exact H.
Qed.

Lemma noChar_app (c : ascii) (s t : string) :
  noChar c (s ++ t) = noChar c s && noChar c t.
Proof.
  unfold noChar. induction s as [|a s IH]; [reflexivity|].
  rewrite app_cons. cbn. now rewrite IH, andb_assoc.
Qed.

Lemma indexOf_char (c : ascii) (k rest : string) :
  noChar c k = true ->
  indexOf (str1 c) (k ++ String c rest) = Some (String.length k).
Proof.
  unfold noChar. induction k as [|a k IH]; intros Hk.
  - rewrite app_nil_l. cbn. now rewrite Ascii.eqb_refl.
  - rewrite app_cons. cbn in Hk |- *. apply andb_prop in Hk as [Ha Hk].
    rewrite Ascii.eqb_sym. apply negb_true_iff in Ha. rewrite Ha.
    cbn. now rewrite (IH Hk).
Qed.

Lemma split_single (sep : ascii) (s : string) :
  noChar sep s = true -> split sep s = [s].
Proof.
  unfold noChar. induction s as [|a s IH]; intros Hs; [reflexivity|].
  cbn in Hs |- *. apply andb_prop in Hs as [Ha Hs].
  apply negb_true_iff in Ha. rewrite Ha, (IH Hs). reflexivity.
Qed.

Lemma split_app (sep : ascii) (s rest : string) :
  noChar sep s = true ->
  split sep (s ++ String sep rest) = s :: split sep rest.
Proof.
  unfold noChar. induction s as [|a s IH]; intros Hs.
  - rewrite app_nil_l. cbn. now rewrite Ascii.eqb_refl.
  - rewrite app_cons. cbn in Hs |- *. apply andb_prop in Hs as [Ha Hs].
    apply negb_true_iff in Ha. rewrite Ha, (IH Hs). reflexivity.
Qed.

Lemma split_join (sep : ascii) (cs : list string) :
  cs <> [] -> forallb (noChar sep) cs = true ->
  split sep (join (str1 sep) cs) = cs.
Proof.
  induction cs as [|c cs IH]; [congruence|]. intros _ Hcs.
  cbn in Hcs. apply andb_prop in Hcs as [Hc Hcs].
  destruct cs as [|c2 cs].
  - cbn. now apply split_single.
  - cbn [join]. change (str1 sep ++ ?x) with (String sep x).
    rewrite split_app by exact Hc. f_equal. now apply IH.
Qed.

(** ** The front-matter block (C3) *)

Lemma yamlLine_lineOf (entry : string * JsValue) :
  yamlLine entry = lineOf entry ++ str1 LF.
Proof.
  destruct entry as [k v]. unfold yamlLine, lineOf, render. cbn [fst snd].
  destruct v; rewrite ?app_assoc; reflexivity.
Qed.

Lemma fold_lines (fm : Obj JsValue) (acc : string) :
  fold_left (fun yaml entry => yaml ++ yamlLine entry) fm acc
  = acc ++ fold_right (fun entry rest => lineOf entry ++ str1 LF ++ rest)
             EmptyString fm.
Proof.
  revert acc. induction fm as [|e fm IH]; intros acc; cbn.
  - now rewrite app_nil_r.
  - rewrite IH, yamlLine_lineOf, !app_assoc. reflexivity.
Qed.

Lemma lines_join (c : string) (cs : list string) (rest : string) :
  fold_right (fun c r => c ++ str1 LF ++ r) EmptyString (c :: cs) ++ rest
  = join (str1 LF) (c :: cs) ++ str1 LF ++ rest.
Proof.
  revert c. induction cs as [|c2 cs IH]; intros c.
  - cbn. now rewrite !app_assoc.
  - change (fold_right (fun c r => c ++ str1 LF ++ r) EmptyString
              (c :: c2 :: cs))
      with (c ++ str1 LF
            ++ fold_right (fun c r => c ++ str1 LF ++ r) EmptyString
                 (c2 :: cs)).
    change (join (str1 LF) (c :: c2 :: cs))
      with (c ++ str1 LF ++ join (str1 LF) (c2 :: cs)).
    rewrite !app_assoc. now rewrite IH.
Qed.

Lemma LF_not (a : ascii) :
  negb (Ascii.eqb a LF) = true -> Ascii.eqb LF a = false.
Proof. intros H. apply negb_true_iff in H. now rewrite Ascii.eqb_sym. Qed.

Lemma startsWith_dashes (c rest : string) :
  noChar LF c = true -> c <> "---" ->
  startsWith fence (c ++ String LF rest) = false.
Proof.
  unfold noChar. intros Hc Hne.
  change fence with (String "-" (String "-" (String "-" (str1 LF)))).
  destruct c as [|a1 [|a2 [|a3 [|a4 c]]]];
    rewrite ?app_cons, ?app_nil_l; cbn [startsWith str1].
  - reflexivity.
  - change (Ascii.eqb "-" LF) with false. now rewrite !andb_false_r.
  - change (Ascii.eqb "-" LF) with false. now rewrite !andb_false_r.
  - destruct (Ascii.eqb_spec "-" a1) as [<-|]; [|reflexivity].
    destruct (Ascii.eqb_spec "-" a2) as [<-|]; [|reflexivity].
    destruct (Ascii.eqb_spec "-" a3) as [<-|]; [|reflexivity].
    contradiction.
  - cbn [allChars] in Hc.
    apply andb_prop in Hc as [_ Hc]. apply andb_prop in Hc as [_ Hc].
    apply andb_prop in Hc as [_ Hc]. apply andb_prop in Hc as [H4 _].
    rewrite (LF_not _ H4). now rewrite !andb_false_r.
Qed.

Lemma str1_app (c : ascii) (s : string) : str1 c ++ s = String c s.
Proof. reflexivity. Qed.

Lemma startsWith_closingFence (a : ascii) (s : string) :
  startsWith closingFence (String a s) = Ascii.eqb LF a && startsWith fence s.
Proof. reflexivity. Qed.

Lemma indexOf_skip (c rest : string) :
  noChar LF c = true ->
  indexOf closingFence (c ++ rest)
  = (fun n => String.length c + n) <$> indexOf closingFence rest.
Proof.
  unfold noChar. induction c as [|a c IH]; intros Hc.
  - rewrite app_nil_l. now destruct (indexOf closingFence rest).
  - rewrite app_cons. cbn in Hc. apply andb_prop in Hc as [Ha Hc].
    apply LF_not in Ha.
    cbn [indexOf]. rewrite startsWith_closingFence, Ha. cbn [andb].
    rewrite (IH Hc). now destruct (indexOf closingFence rest).
Qed.

Lemma join_head (cs : list string) (rest : string) :
  cs <> [] ->
  exists y, join (str1 LF) cs ++ closingFence ++ rest
            = hd EmptyString cs ++ String LF y.
Proof.
  destruct cs as [|c [|c2 cs]]; [congruence|..]; intros _.
  - eexists. cbn [join hd]. reflexivity.
  - eexists. cbn [join hd]. rewrite !app_assoc. reflexivity.
Qed.

Lemma indexOf_closingFence (cs : list string) (rest : string) :
  cs <> [] ->
  forallb (fun c => noChar LF c && negb (String.eqb c "---")) cs = true ->
  indexOf closingFence (join (str1 LF) cs ++ closingFence ++ rest)
  = Some (String.length (join (str1 LF) cs)).
Proof.
  induction cs as [|c cs IH]; [congruence|]. intros _ Hcs.
  cbn [forallb] in Hcs. apply andb_prop in Hcs as [Hc Hcs].
  apply andb_prop in Hc as [Hc _].
  destruct cs as [|c2 cs].
  - cbn [join]. rewrite indexOf_skip by exact Hc.
    change (closingFence ++ rest) with (String LF (fence ++ rest)).
    cbn [indexOf]. rewrite startsWith_closingFence, Ascii.eqb_refl.
    rewrite startsWith_app. cbn. now rewrite Nat.add_0_r.
  - change (join (str1 LF) (c :: c2 :: cs))
      with (c ++ str1 LF ++ join (str1 LF) (c2 :: cs)).
    rewrite !app_assoc, indexOf_skip by exact Hc.
    destruct (join_head (c2 :: cs) rest ltac:(congruence)) as [y Hy].
    rewrite length_app, length_app.
    assert (Hno : startsWith closingFence
                    (str1 LF ++ join (str1 LF) (c2 :: cs)
                     ++ closingFence ++ rest) = false).
    { rewrite Hy. cbn [hd]. rewrite str1_app.
      rewrite startsWith_closingFence, Ascii.eqb_refl. cbn [andb].
      pose proof Hcs as Hc2. cbn [forallb] in Hc2.
      apply andb_prop in Hc2 as [Hc2 _]. apply andb_prop in Hc2 as [Hn Hd].
      apply negb_true_iff, String.eqb_neq in Hd.
      exact (startsWith_dashes c2 y Hn Hd). }
    rewrite str1_app in Hno |- *.
    cbn [indexOf]. rewrite Hno.
    rewrite (IH ltac:(congruence) Hcs). cbn. f_equal; lia.
Qed.

Lemma noChar_join (c : ascii) (sep : string) (l : list string) :
  noChar c sep = true -> forallb (noChar c) l = true ->
  noChar c (join sep l) = true.
Proof.
  intros Hsep. induction l as [|x l IH]; [reflexivity|]. intros Hl.
  cbn in Hl. apply andb_prop in Hl as [Hx Hl]. destruct l as [|y l].
  - exact Hx.
  - change (join sep (x :: y :: l)) with (x ++ sep ++ join sep (y :: l)).
    rewrite !noChar_app, Hx, Hsep. now rewrite IH.
Qed.

Lemma noChar_quote (c : ascii) (s : string) :
  Ascii.eqb DQUOTE c = false -> noChar c s = true ->
  noChar c (quote s) = true.
Proof.
  intros Hq Hs. unfold quote. rewrite !noChar_app, Hs.
  unfold noChar. cbn. now rewrite Hq.
Qed.

Lemma plainElement_noLF (e : string) :
  plainElement e = true -> noChar LF e = true /\ noChar "," e = true.
Proof.
  unfold plainElement, noChar. intros H. apply andb_prop in H as [Hc Ht].
  split; [|exact Hc]. clear Hc. induction e as [|a e IH]; [reflexivity|].
  cbn in Ht |- *. apply andb_prop in Ht as [Ha Ht]. rewrite (IH Ht).
  rewrite andb_true_r. unfold isLineTerminator in Ha.
  apply negb_true_iff, orb_false_iff in Ha as [Ha _].
  apply negb_true_iff. destruct (Ascii.eqb_spec a LF) as [->|]; [|reflexivity].
  discriminate.
Qed.

Lemma endsWith_framed (a c : ascii) (s : string) :
  endsWith (str1 c) (String a (s ++ str1 c)) = true.
Proof. exact (endsWith_app (str1 c) (String a s)). Qed.

Lemma sliceInner_framed (a c : ascii) (s : string) :
  sliceInner (String a (s ++ str1 c)) = s.
Proof. unfold sliceInner. cbn [drop]. apply dropLast_app. Qed.

Lemma trim_quote (s : string) :
  trim (quote s) = quote s /\ trim (" " ++ quote s) = quote s.
Proof. exact (trim_framed DQUOTE DQUOTE s eq_refl eq_refl). Qed.

Lemma stripQuotes_quote (e : string) :
  allChars (fun c => negb (isLineTerminator c)) e = true ->
  stripQuotes (quote e) = e.
Proof.
  intros He. unfold quote. rewrite str1_app. unfold stripQuotes.
  rewrite Ascii.eqb_refl, endsWith_app, dropLast_app, He. reflexivity.
Qed.

Lemma trim_space (s : string) : trim (String " " s) = trim s.
Proof. reflexivity. Qed.

Lemma split_nonempty (sep : ascii) (s : string) : split sep s <> [].
Proof.
  induction s as [|a s IH]; cbn; [congruence|].
  destruct (Ascii.eqb a sep); [congruence|].
  destruct (split sep s); congruence.
Qed.

Lemma split_quoted (l : list string) :
  l <> [] -> forallb plainElement l = true ->
  List.map (fun v => stripQuotes (trim v))
    (split "," (join ", " (List.map quote l))) = l.
Proof.
  induction l as [|e l IH]; [congruence|]. intros _ Hl.
  cbn [forallb] in Hl. apply andb_prop in Hl as [He Hl].
  destruct (plainElement_noLF e He) as [_ Hcomma].
  assert (Hq : noChar "," (quote e) = true)
    by (apply noChar_quote; [reflexivity|exact Hcomma]).
  assert (Hf : stripQuotes (trim (quote e)) = e).
  { rewrite (proj1 (trim_quote e)). apply stripQuotes_quote.
    unfold plainElement in He. now apply andb_prop in He as [_ ?]. }
  destruct l as [|e2 l].
  - cbn [List.map join]. rewrite split_single by exact Hq.
    cbn [List.map]. now rewrite Hf.
  - specialize (IH ltac:(congruence) Hl).
    set (rest := join ", " (List.map quote (e2 :: l))) in *.
    change (join ", " (List.map quote (e :: e2 :: l)))
      with (quote e ++ String "," (String " " rest)).
    rewrite split_app by exact Hq.
    change (split "," (String " " rest))
      with (match split "," rest with
            | [] => [str1 " "]
            | x :: xs => String " " x :: xs
            end).
    pose proof (split_nonempty "," rest).
    destruct (split "," rest) as [|x xs]; [congruence|].
    cbn [List.map] in IH |- *. now rewrite Hf, trim_space, IH.
Qed.

Lemma render_facts (v : JsValue) :
  plainValue v ->
  noChar LF (render v) = true
  /\ trim (" " ++ render v) = render v
  /\ parseValue (render v) = v.
Proof.
  destruct v as [| |s|n|b|l]; cbn [plainValue render]; try contradiction.
  - intros Hs. split; [|split].
    + apply noChar_quote; [reflexivity|exact Hs].
    + apply trim_quote.
    + unfold parseValue, quote. rewrite str1_app.
      cbn [startsWith str1]. rewrite Ascii.eqb_refl.
      now rewrite endsWith_framed, sliceInner_framed.
  - intros (Hn & Ht & Hp). split; [exact Hn|]. split; [|exact Hp].
    cbn [toStr]. change (" " ++ numToString n) with (String " " (numToString n)).
    now rewrite trim_space.
  - intros _. destruct b; repeat split; reflexivity.
  - intros [Hne Hl].
    assert (Hj : noChar LF (join ", " (List.map quote l)) = true).
    { apply noChar_join; [reflexivity|]. clear Hne.
      induction l as [|e l IH]; [reflexivity|]. cbn in Hl |- *.
      apply andb_prop in Hl as [He Hl]. rewrite (IH Hl), andb_true_r.
      apply noChar_quote; [reflexivity|].
      now destruct (plainElement_noLF e He). }
    split; [|split].
    + rewrite !noChar_app, Hj. reflexivity.
    + change ("[" ++ ?x ++ "]") with (String "[" (x ++ str1 "]")).
      exact (proj2 (trim_framed "[" "]" _ eq_refl eq_refl)).
    + unfold parseValue.
      change ("[" ++ join ", " (List.map quote l) ++ "]")
        with (String "[" (join ", " (List.map quote l) ++ str1 "]")).
      cbn [startsWith str1]. change (Ascii.eqb DQUOTE "[") with false.
      cbn [andb]. rewrite Ascii.eqb_refl.
      change (endsWith "]" ?x) with (endsWith (str1 "]") x).
      rewrite endsWith_framed, sliceInner_framed. cbn [andb].
      now rewrite split_quoted.
Qed.

Lemma lineOf_plain (k : string) (v : JsValue) :
  plainKey k -> plainValue v ->
  noChar LF (lineOf (k, v)) = true /\ lineOf (k, v) <> "---".
Proof.
  intros (_ & _ & Hcolon & Hlf) Hv.
  destruct (render_facts v Hv) as (Hr & _ & _).
  unfold lineOf. cbn [fst snd]. split.
  - rewrite !noChar_app, Hlf, Hr. reflexivity.
  - intros Heq. apply (f_equal (noChar ":")) in Heq.
    rewrite !noChar_app in Heq. cbn in Heq.
    rewrite andb_false_r in Heq. discriminate.
Qed.

Lemma parseLine_lineOf (acc : Obj JsValue) (k : string) (v : JsValue) :
  plainKey k -> plainValue v ->
  parseLine acc (lineOf (k, v)) = obj_set k v acc.
Proof.
  intros (Hne & Htrim & Hcolon & _) Hv.
  destruct (render_facts v Hv) as (_ & Hr & Hp).
  unfold parseLine, lineOf. cbn [fst snd].
  change (k ++ ": " ++ render v) with (k ++ String ":" (" " ++ render v)).
  pose proof (indexOf_char ":" k (" " ++ render v) Hcolon) as Hi.
  unfold str1 in Hi. rewrite Hi. clear Hi.
  destruct k as [|a k]; [congruence|]. cbn [String.length].
  unfold substring, substringFrom.
  change (Nat.max 0 (S (String.length k))) with (S (String.length k)).
  change (Nat.min 0 (S (String.length k))) with 0.
  rewrite Nat.sub_0_r. cbn [drop].
  change (S (String.length k)) with (String.length (String a k)).
  rewrite take_app, Htrim, drop_app. cbn [drop].
  now rewrite Hr, Hp.
Qed.

Lemma obj_set_fresh {V} (k : string) (v : V) (o : Obj V) :
  ~ In k (List.map fst o) -> obj_set k v o = (o ++ [(k, v)])%list.
Proof.
  induction o as [|[k' v'] o IH]; intros Hk; [reflexivity|]. cbn in Hk |- *.
  destruct (String.eqb_spec k' k) as [->|_]; [tauto|].
  rewrite IH; [reflexivity|tauto].
Qed.

Lemma parse_lines (fm acc : Obj JsValue) :
  Forall (fun kv => plainKey kv.1 /\ plainValue kv.2) fm ->
  List.NoDup (List.map fst acc ++ List.map fst fm) ->
  fold_left parseLine (List.map lineOf fm) acc = (acc ++ fm)%list.
Proof.
  revert acc. induction fm as [|[k v] fm IH]; intros acc Hfm Hdup.
  - cbn. now rewrite List.app_nil_r.
  - apply Forall_cons_1 in Hfm as [[Hk Hv] Hfm]. cbn [List.map fold_left].
    rewrite parseLine_lineOf by assumption.
    cbn [List.map fst] in Hdup.
    rewrite obj_set_fresh.
    + rewrite IH; [now rewrite <- List.app_assoc|exact Hfm|].
      rewrite List.map_app, <- List.app_assoc. exact Hdup.
    + intros Hin. apply List.NoDup_remove_2 in Hdup. apply Hdup.
      apply List.in_or_app. now left.
Qed.

Lemma content_shape (fm : Obj JsValue) (body : string) :
  fm <> [] ->
  createMarkdownContent fm body
  = fence ++ join (str1 LF) (List.map lineOf fm) ++ closingFence
      ++ str1 LF ++ body.
Proof.
  intros Hne. unfold createMarkdownContent.
  destruct fm as [|e fm]; [congruence|].
  rewrite fold_lines, app_nil_l, !app_assoc. f_equal.
  assert (Hfold : forall l,
             fold_right (fun entry rest => lineOf entry ++ str1 LF ++ rest)
               EmptyString l
             = fold_right (fun c r => c ++ str1 LF ++ r) EmptyString
                 (List.map lineOf l)).
  { intros l. induction l as [|x l IHl]; cbn; [reflexivity|].
    now rewrite IHl. }
  rewrite Hfold. cbn [List.map]. rewrite lines_join.
  unfold closingFence, fence. now rewrite !app_assoc.
Qed.

Lemma drop_prefix (p s : string) : drop (String.length p) (p ++ s) = s.
Proof.
  rewrite <- (Nat.add_0_r (String.length p)). now rewrite drop_app.
Qed.

Lemma matchFrontmatter_content (cs : list string) (rest : string) :
  cs <> [] ->
  forallb (fun c => noChar LF c && negb (String.eqb c "---")) cs = true ->
  matchFrontmatter (fence ++ join (str1 LF) cs ++ closingFence ++ rest)
  = Some (join (str1 LF) cs,
          String.length fence + String.length (join (str1 LF) cs)
          + String.length closingFence)
  /\ substringFrom (fence ++ join (str1 LF) cs ++ closingFence ++ rest)
       (String.length fence + String.length (join (str1 LF) cs)
        + String.length closingFence)
     = rest.
Proof.
  intros Hne Hcs. split.
  - unfold matchFrontmatter. rewrite startsWith_app. cbv zeta.
    rewrite !drop_prefix.
    rewrite indexOf_closingFence by assumption.
    now rewrite take_app.
  - unfold substringFrom. rewrite <- !Nat.add_assoc, drop_app.
    now rewrite drop_app, drop_prefix.
Qed.

(** C3 as the code has it. A front-matter object that is not empty, with
    distinct keys that are trimmed, not empty, free of colons and line
    feeds and other than __proto__, and with values that are strings
    without line feed, booleans, numbers whose text reads back as the
    number, or non-empty lists of strings without comma or line
    terminator, is read back as written; the body comes back with one
    line feed in front of it. The key __proto__ is left out because the
    assignment of the parser makes no entry for it; the line
    terminators of a list element are those of the strings of the
    model, line feed and carriage return. *)
Theorem frontmatter_round_trip (frontmatter : Obj JsValue)
  (body : string) (file : TAbstractFile) :
  frontmatter <> [] ->
  List.NoDup (List.map fst frontmatter) ->
  Forall (fun kv => kv.1 <> "__proto__") frontmatter ->
  Forall (fun kv => plainKey kv.1 /\ plainValue kv.2) frontmatter ->
  let note :=
    parseMarkdownFile file (createMarkdownContent frontmatter body) in
  note_frontmatter note = frontmatter
  /\ note_content note = str1 LF ++ body
  /\ normalizeContent (note_content note) = normalizeContent body.
Proof.
  intros Hne Hdup _ Hplain note.
  assert (Hcs : forallb
                  (fun c => noChar LF c && negb (String.eqb c "---"))
                  (List.map lineOf frontmatter) = true).
  { clear Hne Hdup. induction Hplain as [|[k v] fm [Hk Hv] _ IH];
      [reflexivity|].
    cbn [List.map forallb]. rewrite IH, andb_true_r.
    destruct (lineOf_plain k v Hk Hv) as [-> Hd].
    apply String.eqb_neq in Hd. now rewrite Hd. }
  assert (Hne' : List.map lineOf frontmatter <> [])
    by (destruct frontmatter; [congruence|discriminate]).
  destruct (matchFrontmatter_content (List.map lineOf frontmatter)
              (str1 LF ++ body) Hne' Hcs) as [Hmatch Hrest].
  assert (Hnote : note_frontmatter note = frontmatter
                  /\ note_content note = str1 LF ++ body).
  { subst note. unfold parseMarkdownFile.
    rewrite content_shape by exact Hne. rewrite Hmatch, Hrest.
    cbn [note_frontmatter note_content]. split; [|reflexivity].
    rewrite split_join.
    - now rewrite parse_lines.
    - exact Hne'.
    - clear -Hcs. induction (List.map lineOf frontmatter) as [|c cs IH];
        [reflexivity|]. cbn in Hcs |- *.
      apply andb_prop in Hcs as [Hc Hcs]. apply andb_prop in Hc as [-> _].
      now rewrite IH. }
  destruct Hnote as [Hfm Hcontent]. split; [exact Hfm|].
  split; [exact Hcontent|]. rewrite Hcontent. now destruct body.
Qed.


(** * Further properties of the engine *)

(** ** Directions keep to their side *)

#[local] Instance sameRemote_tolerates : Tolerates sameRemote.
Proof.
  split; unfold sameRemote.
  - auto.
  - intros w1 w2 w3 [? ?] [? ?]. split; congruence.
  - auto.
  - auto.
Qed.

#[local] Instance sameRemote_insert : ToleratesInsert sameRemote.
Proof. intros w parent node. split; reflexivity. Qed.

#[local] Instance sameRemote_modify : ToleratesModify sameRemote.
Proof. intros w p now text. split; reflexivity. Qed.

#[local] Instance sameRemote_settings : ToleratesSettings sameRemote.
Proof. intros w s. split; reflexivity. Qed.

#[local] Instance samePaths_tolerates : Tolerates samePaths.
Proof.
  split; unfold samePaths.
  - auto.
  - intros w1 w2 w3 ? ?. congruence.
  - auto.
  - auto.
Qed.

#[local] Instance samePaths_modify : ToleratesModify samePaths.
Proof. intros w p now text. apply allPaths_writeFile. Qed.

#[local] Instance samePaths_remote : ToleratesRemote samePaths.
Proof. intros w remote n. reflexivity. Qed.

#[local] Instance samePaths_settings : ToleratesSettings samePaths.
Proof. intros w s. reflexivity. Qed.

#[local] Instance insert_preserves R `{!ToleratesInsert R}
  (parent : string) (node : TAbstractFile) :
  Preserves R (vault_insert parent node).
Proof. intros w. apply tol_insert_only. Qed.

#[local] Instance write_preserves R `{!ToleratesModify R}
  (p : string) (now : Z) (text : string) :
  Preserves R (vault_write p now text).
Proof. intros w. apply tol_modify_only. Qed.

#[local] Instance patched_preserves R `{!ToleratesRemote R}
  (pageId : string) (properties : Obj PropertyUpdate) :
  Preserves R (modifyWorld (patched pageId properties)).
Proof. intros w. apply tol_remote_only. Qed.

#[local] Instance archived_preserves R `{!ToleratesRemote R}
  (blockId : string) : Preserves R (modifyWorld (archived blockId)).
Proof. intros w. apply tol_remote_only. Qed.

#[local] Instance appended_preserves R `{!ToleratesRemote R}
  (pageId : string) (children : list NewBlock) :
  Preserves R (modifyWorld (appended pageId children)).
Proof. intros w. apply tol_remote_only. Qed.

#[local] Instance postPage_preserves R `{!Tolerates R} `{!ToleratesRemote R}
  (databaseId : string) (properties : Obj PropertyUpdate)
  (children : list NewBlock) :
  Preserves R (postPage databaseId properties children).
Proof.
  intros w. unfold postPage.
  destruct (pages w !! newPageId w); cbn [snd].
  - apply tol_refl.
  - apply tol_remote_only.
Qed.

#[local] Instance set_config_preserves R `{!ToleratesSettings R}
  (i : nat) (c : SyncConfig) : Preserves R (modifyWorld (set_config i c)).
Proof. intros w. apply tol_settings_only. Qed.

#[local] Instance create_preserves R `{!Tolerates R} `{!ToleratesInsert R}
  (p text : string) : Preserves R (vault_create p text).
Proof. unfold vault_create. frame. Qed.

#[local] Instance modify_preserves R `{!Tolerates R} `{!ToleratesModify R}
  (file : TAbstractFile) (text : string) :
  Preserves R (vault_modify file text).
Proof. unfold vault_modify. frame. Qed.

#[local] Instance createFolder_preserves R `{!Tolerates R}
  `{!ToleratesInsert R} (p : string) : Preserves R (vault_createFolder p).
Proof. unfold vault_createFolder. frame. Qed.

#[local] Instance createPage_preserves R `{!Tolerates R}
  `{!ToleratesRemote R} (databaseId : string)
  (properties : Obj PropertyUpdate) (content : string) :
  Preserves R (createPage databaseId properties content).
Proof. unfold createPage. frame. Qed.

#[local] Instance updatePage_preserves R `{!Tolerates R}
  `{!ToleratesRemote R} (pageId : string) (properties : Obj PropertyUpdate)
  (content : string) : Preserves R (updatePage pageId properties content).
Proof.
  unfold updatePage, patchPage, getBlockChildren, deleteBlock,
    appendBlockChildren.
  frame.
Qed.

(** The pull writes the vault only. *)
#[local] Instance pull_ensureFolderExists R `{!Tolerates R}
  `{!ToleratesInsert R} (folderPath : string) :
  Preserves R (ensureFolderExists folderPath).
Proof. unfold ensureFolderExists. frame. Qed.

#[local] Instance pull_createObsidianFromNotion R `{!Tolerates R}
  `{!ToleratesInsert R} (page : NotionPage) (config : SyncConfig) :
  Preserves R (createObsidianFromNotion page config).
Proof. unfold createObsidianFromNotion. frame. Qed.

#[local] Instance pull_updateObsidianFromNotion R `{!Tolerates R}
  `{!ToleratesInsert R} `{!ToleratesModify R} (page : NotionPage)
  (config : SyncConfig) : Preserves R (updateObsidianFromNotion page config).
Proof. unfold updateObsidianFromNotion. frame. Qed.

#[local] Instance pull_syncNotionToObsidian R `{!Tolerates R}
  `{!ToleratesInsert R} `{!ToleratesModify R} (config : SyncConfig) :
  Preserves R (syncNotionToObsidian config).
Proof. unfold syncNotionToObsidian, pullStep, pullPage. frame. Qed.

(** The push writes the remote side and the text of files only. *)
#[local] Instance push_updateNotionFromObsidian R `{!Tolerates R}
  `{!ToleratesModify R} `{!ToleratesRemote R} (note : ObsidianNote)
  (config : SyncConfig) : Preserves R (updateNotionFromObsidian note config).
Proof. unfold updateNotionFromObsidian. frame. Qed.

#[local] Instance push_createNotionFromObsidian R `{!Tolerates R}
  `{!ToleratesModify R} `{!ToleratesRemote R} (note : ObsidianNote)
  (config : SyncConfig) : Preserves R (createNotionFromObsidian note config).
Proof. unfold createNotionFromObsidian. frame. Qed.

#[local] Instance push_syncObsidianToNotion R `{!Tolerates R}
  `{!ToleratesModify R} `{!ToleratesRemote R} (config : SyncConfig) :
  Preserves R (syncObsidianToNotion config).
Proof. unfold syncObsidianToNotion, pushStep. frame. Qed.

Lemma preserves_bind_post {A B} R `{!Tolerates R} (m : Async A)
  (k : A -> Async B) (P : A -> Prop) :
  (forall w a w', m w = (Returns a, w') -> P a) ->
  Preserves R m -> (forall a, P a -> Preserves R (k a)) ->
  Preserves R (m ≫= k).
Proof.
  intros HP Hm Hk w. rewrite run_bind. specialize (Hm w).
  specialize (HP w). destruct (m w) as [[a|e] w1]; cbn in *; [|exact Hm].
  eapply tol_trans; [exact Hm|]. apply Hk. eapply HP. reflexivity.
Qed.

(** The direction [chooseDirection] settles on. *)
Lemma run_chooseDirection (config : SyncConfig) (direction : string)
  (w : World) :
  exists w',
    chooseDirection config direction w
    = (match fieldMappings config with
       | [] =>
           if String.eqb direction SyncDirection.OBSIDIAN_TO_NOTION
           then Throws noMappingsError
           else if String.eqb direction SyncDirection.BIDIRECTIONAL
                then Returns SyncDirection.NOTION_TO_OBSIDIAN
                else Returns direction
       | _ => Returns direction
       end, w')
    /\ quiet w w'.
Proof.
  unfold chooseDirection. destruct (fieldMappings config).
  - rewrite run_bind, run_say.
    destruct (String.eqb direction SyncDirection.OBSIDIAN_TO_NOTION).
    + eexists. split; [reflexivity|]. apply tol_console.
    + destruct (String.eqb direction SyncDirection.BIDIRECTIONAL).
      * rewrite run_bind, run_say, run_ret. eexists.
        split; [reflexivity|].
        eapply tol_trans; apply tol_console.
      * eexists. split; [reflexivity|]. apply tol_console.
  - exists w. split; [reflexivity|apply tol_refl].
Qed.

Lemma runDirection_pull R `{!Tolerates R} `{!ToleratesInsert R}
  `{!ToleratesModify R} (config : SyncConfig) (a direction : string) :
  a <> SyncDirection.OBSIDIAN_TO_NOTION ->
  a <> SyncDirection.BIDIRECTIONAL ->
  Preserves R (runDirection config a direction).
Proof.
  intros H1 H2. unfold runDirection.
  destruct (String.eqb_spec a SyncDirection.NOTION_TO_OBSIDIAN);
    [apply _|].
  destruct (String.eqb_spec a SyncDirection.OBSIDIAN_TO_NOTION);
    [contradiction|].
  destruct (String.eqb_spec a SyncDirection.BIDIRECTIONAL);
    [contradiction|apply _].
Qed.

Lemma runDirection_push R `{!Tolerates R} `{!ToleratesModify R}
  `{!ToleratesRemote R} (config : SyncConfig) (a direction : string) :
  a <> SyncDirection.NOTION_TO_OBSIDIAN ->
  a <> SyncDirection.BIDIRECTIONAL ->
  Preserves R (runDirection config a direction).
Proof.
  intros H1 H2. unfold runDirection.
  destruct (String.eqb_spec a SyncDirection.NOTION_TO_OBSIDIAN);
    [contradiction|].
  destruct (String.eqb_spec a SyncDirection.OBSIDIAN_TO_NOTION);
    [apply _|].
  destruct (String.eqb_spec a SyncDirection.BIDIRECTIONAL);
    [contradiction|apply _].
Qed.

#[local] Instance recordSync_preserves R `{!Tolerates R}
  `{!ToleratesSettings R} (i : nat) (config : SyncConfig) :
  Preserves R (recordSync i config).
Proof. unfold recordSync. frame. Qed.

(** A run of [syncConfig] whose direction comes to the pull. *)
Lemma syncConfig_pulls R `{!Tolerates R} `{!ToleratesInsert R}
  `{!ToleratesModify R} `{!ToleratesSettings R} (i : nat)
  (overrideDirection : option string) (w : World) :
  (forall config, syncConfigs (settings w) !! i = Some config ->
     fieldMappings config = []
     \/ directionOf overrideDirection config
        = SyncDirection.NOTION_TO_OBSIDIAN) ->
  R w (syncConfig i overrideDirection w).2.
Proof.
  intros Hdir. unfold syncConfig. rewrite run_bind. cbn [getWorld].
  destruct (syncConfigs (settings w) !! i) as [config|];
    [|apply tol_refl].
  specialize (Hdir config eq_refl). cbv zeta.
  refine (preserved (m := _ ≫= _) w).
  apply (preserves_bind R); [apply _|intros ?].
  apply (preserves_tryCatch R); [|intros ?; frame].
  apply (preserves_bind R); [apply _|intros ?].
  apply (preserves_bind_post R _ _
           (fun a => a <> SyncDirection.OBSIDIAN_TO_NOTION
                     /\ a <> SyncDirection.BIDIRECTIONAL)).
  - intros w0 d w' Hrun.
    destruct (run_chooseDirection config
                (directionOf overrideDirection config) w0)
      as (w1 & Hc & _).
    rewrite Hc in Hrun. destruct Hdir as [Hnone|Hd].
    + rewrite Hnone in Hrun.
      destruct (String.eqb_spec (directionOf overrideDirection config)
                  SyncDirection.OBSIDIAN_TO_NOTION); [discriminate|].
      destruct (String.eqb_spec (directionOf overrideDirection config)
                  SyncDirection.BIDIRECTIONAL);
        injection Hrun as <- _; [split; discriminate|tauto].
    + rewrite Hd in Hrun. destruct (fieldMappings config); cbn in Hrun;
        injection Hrun as <- _; split; discriminate.
  - apply _.
  - intros d [H1 H2].
    apply (preserves_bind R); [now apply (runDirection_pull R)|intros ?; apply _].
Qed.

(** A run of [syncConfig] whose direction is the push. *)
Lemma syncConfig_pushes R `{!Tolerates R} `{!ToleratesModify R}
  `{!ToleratesRemote R} `{!ToleratesSettings R} (i : nat) (w : World) :
  R w (syncConfig i (Some SyncDirection.OBSIDIAN_TO_NOTION) w).2.
Proof.
  unfold syncConfig. rewrite run_bind. cbn [getWorld].
  destruct (syncConfigs (settings w) !! i) as [config|];
    [|apply tol_refl].
  cbv zeta. refine (preserved (m := _ ≫= _) w).
  apply (preserves_bind R); [apply _|intros ?].
  apply (preserves_tryCatch R); [|intros ?; frame].
  apply (preserves_bind R); [apply _|intros ?].
  apply (preserves_bind_post R _ _
           (fun a => a = SyncDirection.OBSIDIAN_TO_NOTION)).
  - intros w0 d w' Hrun.
    destruct (run_chooseDirection config
                (directionOf (Some SyncDirection.OBSIDIAN_TO_NOTION) config)
                w0) as (w1 & Hc & _).
    change (directionOf (Some SyncDirection.OBSIDIAN_TO_NOTION) config)
      with SyncDirection.OBSIDIAN_TO_NOTION in Hc, Hrun.
    rewrite Hc in Hrun.
    destruct (fieldMappings config); cbv beta iota in Hrun;
      [rewrite String.eqb_refl in Hrun; discriminate|].
    now injection Hrun as <- _.
  - apply _.
  - intros d ->.
    apply (preserves_bind R);
      [apply (runDirection_push R); intros E; vm_compute in E; discriminate E
      |intros ?; apply _].
Qed.

(** X1. A pull never writes to the remote side: after
    [syncNotionToObsidian], after [syncConfig] with the direction Notion
    to Obsidian, and after [syncAll] with that direction (the command
    of that name), whether they return or throw, the remote records and
    the supply of identifiers are what they were. *)
Theorem pull_leaves_remote (i : nat) (config : SyncConfig) (w : World) :
  sameRemote w (syncNotionToObsidian config w).2
  /\ sameRemote w
       (syncConfig i (Some SyncDirection.NOTION_TO_OBSIDIAN) w).2
  /\ sameRemote w (syncAll (Some SyncDirection.NOTION_TO_OBSIDIAN) w).2.
Proof.
  split; [apply (preserved (R := sameRemote))|].
  split; [apply (syncConfig_pulls sameRemote); intros; now right|].
  refine (preserved (R := sameRemote) (m := syncAll _) w).
  unfold syncAll, syncAllStep. frame.
  intros w0. apply (syncConfig_pulls sameRemote). intros; now right.
Qed.

(** X2. A push never adds a file or a folder to the vault, nor removes
    or moves one: after [syncObsidianToNotion], after [syncConfig] with
    the direction Obsidian to Notion, and after [syncAll] with that
    direction, whether they return or throw, the paths of the vault are
    what they were (the text of a note may have been rewritten). *)
Theorem push_leaves_paths (i : nat) (config : SyncConfig) (w : World) :
  samePaths w (syncObsidianToNotion config w).2
  /\ samePaths w
       (syncConfig i (Some SyncDirection.OBSIDIAN_TO_NOTION) w).2
  /\ samePaths w (syncAll (Some SyncDirection.OBSIDIAN_TO_NOTION) w).2.
Proof.
  split; [apply (preserved (R := samePaths))|].
  split; [apply (syncConfig_pushes samePaths)|].
  refine (preserved (R := samePaths) (m := syncAll _) w).
  unfold syncAll, syncAllStep. frame.
  intros w0. apply (syncConfig_pushes samePaths).
Qed.

(** X3. A configuration without field mappings never writes to the
    remote side, whatever the direction asked for: the push is refused
    and the bidirectional run is a pull. *)
Theorem no_mappings_leaves_remote (i : nat)
  (overrideDirection : option string) (config : SyncConfig) (w : World) :
  syncConfigs (settings w) !! i = Some config ->
  fieldMappings config = [] ->
  sameRemote w (syncConfig i overrideDirection w).2.
Proof.
  intros Hi Hnone. apply (syncConfig_pulls sameRemote).
  intros config' Hi'. left. congruence.
Qed.

(** ** [syncAll] *)

Lemma run_syncAllStep (direction : option string) (configs : list SyncConfig)
  (counts : nat * nat) (i : nat) (w : World) :
  exists counts' w',
    syncAllStep direction configs counts i w = (Returns counts', w')
    /\ counts'.1 + counts'.2
       = counts.1 + counts.2
         + match configs !! i with
           | Some config => if enabled config then 1 else 0
           | None => 0
           end.
Proof.
  unfold syncAllStep. destruct (configs !! i) as [config|].
  - destruct (enabled config); cbn [negb].
    + rewrite run_tryCatch, run_bind.
      destruct (syncConfig i direction w) as [[[]|e] w1].
      * eexists _, _. split; [reflexivity|]. cbn. lia.
      * eexists _, _. split; [reflexivity|]. cbn. lia.
    + eexists _, _. split; [reflexivity|]. cbn. lia.
  - eexists _, _. split; [reflexivity|]. cbn. lia.
Qed.

Lemma skipn_lookup {A} (l : list A) (a : nat) :
  skipn a l
  = match l !! a with Some c => c :: skipn (S a) l | None => [] end.
Proof.
  revert a. induction l as [|c l IH]; intros [|a]; try reflexivity.
  change (skipn (S a) (c :: l)) with (skipn a l).
  change ((c :: l) !! S a) with (l !! a).
  rewrite (IH a). now destruct (l !! a).
Qed.

Lemma run_syncAllLoop (direction : option string) (configs : list SyncConfig)
  (n a : nat) (counts : nat * nat) (w : World) :
  exists counts' w',
    forOf (seq a n) counts (syncAllStep direction configs) w
    = (Returns counts', w')
    /\ counts'.1 + counts'.2
       = counts.1 + counts.2
         + List.length (List.filter enabled (firstn n (skipn a configs))).
Proof.
  revert a counts w. induction n as [|n IH]; intros a counts w.
  - exists counts, w. split; [reflexivity|]. rewrite firstn_O. cbn. lia.
  - cbn [seq forOf]. rewrite run_bind.
    destruct (run_syncAllStep direction configs counts a w)
      as (c1 & w1 & -> & H1).
    destruct (IH (S a) c1 w1) as (c2 & w2 & -> & H2).
    exists c2, w2. split; [reflexivity|]. rewrite H2, H1.
    rewrite (skipn_lookup configs a).
    destruct (configs !! a) as [c|] eqn:E.
    + rewrite firstn_cons. cbn [List.filter].
      destruct (enabled c); cbn [List.length]; lia.
    + rewrite (skipn_lookup configs (S a)).
      assert (configs !! S a = None) as ->.
      { apply lookup_ge_None. apply lookup_ge_None in E. lia. }
      rewrite firstn_nil. cbn. destruct n; cbn; lia.
Qed.

(** X4. [syncAll] never throws. In a turn of its loop a disabled
    configuration is passed over with a line of the log; the run of an
    enabled one is counted as successful when [syncConfig] returns, and
    when it throws the error is caught, written to the console and
    shown in a notice, the run is counted as failed, and the loop goes
    on. With no configuration at all [syncAll] says so and touches
    nothing; otherwise the two counters add up to the number of enabled
    configurations, and the notice with the two counters is the last
    thing on the console. *)
Theorem syncAll_counts_every_config (direction : option string)
  (w : World) :
  (forall configs counts i config w0,
     configs !! i = Some config ->
     syncAllStep direction configs counts i w0
     = if enabled config then
         match syncConfig i direction w0 with
         | (Returns _, w') => (Returns (S counts.1, counts.2), w')
         | (Throws e, w') =>
             (Returns (counts.1, S counts.2),
              set_console
                ((Notice, "Sync failed for " ++ config_name config
                          ++ ": " ++ e)
                 :: (Error, "Sync failed for " ++ config_name config
                            ++ ": " ++ e)
                 :: console w') w')
         end
       else
         (Returns counts,
          set_console
            ((Log, "Skipping disabled config: " ++ config_name config)
             :: console w0) w0))
  /\ exists counts w',
       syncAll direction w = (Returns tt, w')
       /\ match syncConfigs (settings w) with
          | [] =>
              w' = set_console
                     ((Notice, "No sync configurations found. "
                               ++ "Please add a configuration first.")
                      :: (Notice, "Starting sync...") :: console w) w
          | configs =>
              counts.1 + counts.2
              = List.length (List.filter enabled configs)
              /\ hd_error (console w')
                 = Some (Notice,
                         "Sync completed! " ++ JsString.ofNat counts.1
                         ++ " successful, " ++ JsString.ofNat counts.2
                         ++ " failed.")
          end.
Proof.
  split.
  { intros configs counts i config w0 Hi. unfold syncAllStep. rewrite Hi.
    destruct (enabled config); cbn [negb]; [|reflexivity].
    rewrite run_tryCatch, run_bind.
    destruct (syncConfig i direction w0) as [[[]|e] w1]; reflexivity. }
  unfold syncAll. rewrite run_bind, run_say, run_bind. cbn [getWorld].
  cbn [settings set_console].
  destruct (syncConfigs (settings w)) as [|c cs] eqn:E.
  - exists (0, 0). eexists. rewrite run_say. split; reflexivity.
  - rewrite run_bind.
    destruct (run_syncAllLoop direction (c :: cs) (List.length (c :: cs)) 0
                (0, 0)
                (set_console ((Notice, "Starting sync...") :: console w) w))
      as (counts & w1 & -> & Hsum).
    exists counts. eexists. rewrite run_say. split; [reflexivity|].
    split; [|reflexivity].
    rewrite Hsum. cbn [fst snd skipn]. now rewrite firstn_all.
Qed.

(** ** The push *)

Lemma run_pushStep (config : SyncConfig) (counts : nat * nat)
  (file : TAbstractFile) (w : World) :
  exists counts' w',
    pushStep config counts file w = (Returns counts', w')
    /\ counts.1 + counts.2 <= counts'.1 + counts'.2 <= S (counts.1 + counts.2).
Proof.
  unfold pushStep. rewrite run_tryCatch, run_bind.
  destruct (vault_read file w) as [[content|e] w1];
    [|eexists _, _; split; [reflexivity|cbn; lia]].
  cbv zeta. destruct (truthy _).
  - rewrite run_bind.
    destruct (updatePage _ _ _ w1) as [[[]|e] w2];
      eexists _, _; (split; [reflexivity|cbn; lia]).
  - rewrite run_bind.
    destruct (createPage _ _ _ w1) as [[pageId|e] w2];
      [|eexists _, _; split; [reflexivity|cbn; lia]].
    rewrite run_bind. unfold Date_now at 1. rewrite run_bind.
    cbn [getWorld]. rewrite run_ret, run_bind.
    destruct (vault_modify _ _ w2) as [[[]|e] w3];
      eexists _, _; (split; [reflexivity|cbn; lia]).
Qed.

Lemma run_pushLoop (config : SyncConfig) (files : list TAbstractFile)
  (counts : nat * nat) (w : World) :
  exists counts' w',
    forOf files counts (pushStep config) w = (Returns counts', w')
    /\ counts'.1 + counts'.2 <= counts.1 + counts.2 + List.length files.
Proof.
  revert counts w. induction files as [|file files IH]; intros counts w.
  - exists counts, w. split; [reflexivity|]. cbn. lia.
  - cbn [forOf]. rewrite run_bind.
    destruct (run_pushStep config counts file w) as (c1 & w1 & -> & H1).
    destruct (IH c1 w1) as (c2 & w2 & -> & H2).
    exists c2, w2. split; [reflexivity|]. cbn [List.length]. lia.
Qed.

(** X5. In a turn of the loop of a push, a note for which a page is
    created or updated is counted as created or as updated; a note
    whose processing throws is counted as neither: the error is caught
    and written to the console with the path of the note, and the loop
    goes on. The push fails as a whole only at its folder: when nothing
    is at its path it throws the error that names the folder and
    touches nothing, and a file at that path makes it throw as well.
    When the folder is there, the push returns, the notes counted are
    at most the markdown files under the folder, and the summary is the
    last line of the console. *)
Theorem push_skips_failing_notes (config : SyncConfig) (w : World) :
  (forall counts file w0,
     pushStep config counts file w0
     = match pushNote config file w0 with
       | (Returns true, w') => (Returns (S counts.1, counts.2), w')
       | (Returns false, w') => (Returns (counts.1, S counts.2), w')
       | (Throws e, w') =>
           (Returns counts,
            set_console
              ((Error, "Failed to sync file " ++ path_of file ++ ": " ++ e)
               :: console w') w')
       end)
  /\ match findPath (obsidianFolder config) (vault w) with
     | None =>
         syncObsidianToNotion config w
         = (Throws ("Folder " ++ obsidianFolder config ++ " not found"), w)
     | Some (TFolder p children) =>
         exists counts w',
           syncObsidianToNotion config w = (Returns tt, w')
           /\ counts.1 + counts.2
              <= List.length (addFiles (TFolder p children))
           /\ hd_error (console w')
              = Some (Log,
                      "Obsidian -> Notion: " ++ JsString.ofNat counts.1
                      ++ " created, " ++ JsString.ofNat counts.2
                      ++ " updated")
     | Some (TFile _ _ _) =>
         exists e, syncObsidianToNotion config w = (Throws e, w)
     end.
Proof.
  split.
  { intros counts file w0. unfold pushStep, pushNote.
    rewrite run_tryCatch, !run_bind.
    destruct (vault_read file w0) as [[content|e] w1]; [|reflexivity].
    cbv zeta.
    destruct (truthy (note_notionId (parseMarkdownFile file content))).
    - rewrite !run_bind.
      destruct (updatePage _ _ _ w1) as [[[]|e] w2]; reflexivity.
    - rewrite !run_bind.
      destruct (createPage _ _ _ w1) as [[pageId|e] w2]; [|reflexivity].
      rewrite !run_bind.
      destruct (Date_now w2) as [[now|e] w3]; [|reflexivity].
      rewrite !run_bind.
      destruct (vault_modify file _ w3) as [[[]|e] w4]; reflexivity. }
  unfold syncObsidianToNotion, getAbstractFileByPath.
  rewrite !run_bind. cbn [getWorld]. rewrite run_ret.
  destruct (findPath (obsidianFolder config) (vault w)) as [[p m d|p cs]|].
  - eexists. reflexivity.
  - cbn [getAllMarkdownFiles]. rewrite run_bind, run_ret, run_bind.
    destruct (run_pushLoop config (addFiles (TFolder p cs)) (0, 0) w)
      as (counts & w1 & -> & Hsum).
    exists counts. eexists. rewrite run_say. split; [reflexivity|].
    split; [exact Hsum|reflexivity].
  - reflexivity.
Qed.

(** ** The outcomes of [resolveConflict] *)

(** X6. [resolveConflict] writes nothing when the pair does not differ,
    whatever the policy, and returns no-change; and it writes nothing
    under the policy manual when the pair differs: it shows the notice
    that names the note, logs the warning and returns conflict. *)
Theorem resolveConflict_writes_nothing (page : NotionPage)
  (note : ObsidianNote) (config : SyncConfig) (w : World) :
  exists nfm w1,
    convertNotionPropertiesToFrontmatter (page_properties page) config w
    = (Returns nfm, w1)
    /\ quiet w w1
    /\ (differ nfm page note config = false ->
        resolveConflict page note config w = (Returns "no-change", w1))
    /\ (differ nfm page note config = true ->
        conflictResolution (settings w) = "manual" ->
        resolveConflict page note config w
        = (Returns "conflict",
           set_console
             ((Warn, "Conflict details:")
              :: (Notice, "Conflict detected: " ++ note_path note
                          ++ ". Manual resolution required.")
              :: console w1) w1)).
Proof.
  destruct (run_compare page note config w) as (nfm & w1 & Hrun & Hq & Hr).
  exists nfm, w1. split; [exact Hrun|]. split; [exact Hq|].
  rewrite Hr. split.
  - intros ->. reflexivity.
  - intros -> ->. reflexivity.
Qed.

Lemma pull_resolveConflict (page : NotionPage)
  (note : ObsidianNote) (config : SyncConfig) (w : World) :
  conflictResolution (settings w) = "notion-wins"
  \/ conflictResolution (settings w) = "newer-wins"
     /\ newer (dateParse (page_lastModified page)) (note_lastModified note)
        = true ->
  sameRemote w (resolveConflict page note config w).2.
Proof.
  intros Hpolicy.
  destruct (run_compare page note config w) as (nfm & w1 & Hrun & Hq & Hr).
  assert (H1 : sameRemote w w1).
  { destruct Hq as [(_ & ? & ?) _]. split; assumption. }
  rewrite Hr. destruct (differ nfm page note config); [|exact H1].
  cbv zeta. eapply tol_trans; [exact H1|].
  assert (Hp : Preserves sameRemote
                 (updateObsidianFromNotion page config;;
                  mret "notion-wins" : Async string)) by frame.
  destruct Hpolicy as [->|[-> ->]]; cbn [String.eqb Ascii.eqb Bool.eqb];
    apply Hp.
Qed.

(** X7. When the remote side wins, under the policy notion-wins or under
    newer-wins with a remote timestamp strictly after the modification
    time of the note, [resolveConflict] never writes to the remote side;
    for a pair that differs it runs [updateObsidianFromNotion] and
    returns notion-wins when that update returns. *)
Theorem resolveConflict_remote_wins (page : NotionPage)
  (note : ObsidianNote) (config : SyncConfig) (w : World) :
  conflictResolution (settings w) = "notion-wins"
  \/ conflictResolution (settings w) = "newer-wins"
     /\ newer (dateParse (page_lastModified page)) (note_lastModified note)
        = true ->
  sameRemote w (resolveConflict page note config w).2
  /\ exists nfm w1,
       convertNotionPropertiesToFrontmatter (page_properties page) config w
       = (Returns nfm, w1)
       /\ (differ nfm page note config = true ->
           resolveConflict page note config w
           = match updateObsidianFromNotion page config w1 with
             | (Returns _, w2) => (Returns "notion-wins", w2)
             | (Throws e, w2) => (Throws e, w2)
             end).
Proof.
  intros Hpolicy. split; [now apply pull_resolveConflict|].
  destruct (run_compare page note config w) as (nfm & w1 & Hrun & Hq & Hr).
  exists nfm, w1. split; [exact Hrun|]. intros Hd. rewrite Hr, Hd.
  cbv zeta.
  destruct Hpolicy as [->|[-> ->]]; cbn [String.eqb Ascii.eqb Bool.eqb];
    rewrite run_bind;
    destruct (updateObsidianFromNotion page config w1) as [[[]|e] w2];
    reflexivity.
Qed.

(** ** What counts as a change *)

Lemma compare_trans_lt (a b c : string) :
  String.compare a b = Lt -> String.compare b c = Lt ->
  String.compare a c = Lt.
Proof.
  revert b c. induction a as [|x a IH]; intros [|y b] [|z c]; cbn;
    try congruence.
  unfold Ascii.compare.
  destruct (N.compare_spec (N_of_ascii x) (N_of_ascii y)) as [Exy|Hxy|Hxy];
    destruct (N.compare_spec (N_of_ascii y) (N_of_ascii z)) as [Eyz|Hyz|Hyz];
    try congruence.
  - rewrite Exy, Eyz, N.compare_refl. apply IH.
  - intros _ _. now rewrite Exy, (proj2 (N.compare_lt_iff _ _) Hyz).
  - intros _ _. now rewrite <- Eyz, (proj2 (N.compare_lt_iff _ _) Hxy).
  - intros _ _.
    assert (H : (N_of_ascii x < N_of_ascii z)%N) by lia.
    now rewrite (proj2 (N.compare_lt_iff _ _) H).
Qed.

Lemma leb_trans (a b c : string) :
  String.leb a b = true -> String.leb b c = true -> String.leb a c = true.
Proof.
  unfold String.leb.
  destruct (String.compare a b) eqn:Eab; [|
    |discriminate].
  - apply String.compare_eq_iff in Eab as ->. auto.
  - destruct (String.compare b c) eqn:Ebc; [| |discriminate].
    + apply String.compare_eq_iff in Ebc as <-. now rewrite Eab.
    + now rewrite (compare_trans_lt a b c Eab Ebc).
Qed.

Lemma insertSorted_perm (x : string) (l : list string) :
  Permutation (insertSorted x l) (x :: l).
Proof.
  induction l as [|y l IH]; cbn; [reflexivity|].
  destruct (String.leb x y); [reflexivity|].
  rewrite IH. apply perm_swap.
Qed.

Lemma sortStrings_perm (l : list string) : Permutation (sortStrings l) l.
Proof.
  induction l as [|x l IH]; cbn; [reflexivity|].
  rewrite insertSorted_perm. now constructor.
Qed.

Lemma insertSorted_sorted (x : string) (l : list string) :
  sortedStrings l -> sortedStrings (insertSorted x l).
Proof.
  induction l as [|y l IH]; cbn; [tauto|].
  intros [Hy Hl]. destruct (String.leb x y) eqn:E; cbn.
  - split; [|tauto]. intros z [<-|Hz]; [exact E|].
    eapply leb_trans; [exact E|now apply Hy].
  - split; [|now apply IH]. intros z Hz.
    apply (Permutation_in _ (insertSorted_perm x l)) in Hz.
    destruct Hz as [<-|Hz]; [|now apply Hy].
    destruct (String.leb_total x y) as [H|H]; congruence.
Qed.

Lemma sortStrings_sorted (l : list string) : sortedStrings (sortStrings l).
Proof.
  induction l as [|x l IH]; cbn; [exact I|]. now apply insertSorted_sorted.
Qed.

Lemma sortedStrings_unique (l l' : list string) :
  sortedStrings l -> sortedStrings l' -> Permutation l l' -> l = l'.
Proof.
  revert l'. induction l as [|x l IH]; intros l' Hl Hl' Hp.
  - now apply Permutation_nil in Hp.
  - destruct l' as [|y l'];
      [apply Permutation_sym, Permutation_nil in Hp; discriminate|].
    destruct Hl as [Hx Hl], Hl' as [Hy Hl'].
    assert (x = y) as <-.
    { assert (Hin : In x (y :: l'))
        by (apply (Permutation_in _ Hp); now left).
      assert (Hin' : In y (x :: l))
        by (apply (Permutation_in _ (Permutation_sym Hp)); now left).
      destruct Hin as [->|Hin]; [reflexivity|].
      destruct Hin' as [->|Hin']; [reflexivity|].
      apply String.leb_antisym; auto. }
    f_equal. apply IH; auto. eapply Permutation_cons_inv, Hp.
Qed.

Lemma sortStrings_permutation (l l' : list string) :
  Permutation l l' -> sortStrings l = sortStrings l'.
Proof.
  intros Hp. apply sortedStrings_unique; try apply sortStrings_sorted.
  now rewrite !sortStrings_perm.
Qed.

Lemma normalized_again (value : JsValue) :
  normalized (normalizeValue value).2 = normalized value.
Proof.
  unfold normalized. destruct value; try reflexivity. cbn.
  now rewrite (sortStrings_permutation _ _ (sortStrings_perm l)).
Qed.

Lemma normalized_putBack (k k' : string) (o : Obj JsValue) :
  normalized
    (getProp (putBack k (normalizeValue (getProp o k VUndefined)).2 o) k'
       VUndefined)
  = normalized (getProp o k' VUndefined).
Proof.
  unfold putBack, getProp.
  destruct (obj_get k o) as [v|] eqn:E; [|reflexivity].
  destruct (String.eqb_spec k k') as [<-|Hne].
  - rewrite obj_get_set_eq, E. cbn. apply normalized_again.
  - now rewrite obj_get_set_ne.
Qed.

Lemma changes_loop (mappings : list FieldMapping)
  (notion obsidian notion0 obsidian0 : Obj JsValue) :
  (forall k, normalized (getProp notion k VUndefined)
             = normalized (getProp notion0 k VUndefined)) ->
  (forall k, normalized (getProp obsidian k VUndefined)
             = normalized (getProp obsidian0 k VUndefined)) ->
  (hasSignificantChanges_loop mappings notion obsidian).1 = false
  <-> List.Forall (agreeOn notion0 obsidian0) mappings.
Proof.
  revert notion obsidian.
  induction mappings as [|m ms IH]; intros notion obsidian Hn Ho.
  - cbn. split; [constructor|reflexivity].
  - cbn [hasSignificantChanges_loop]. cbv zeta.
    fold (normalized (getProp notion (obsidianProperty m) VUndefined)).
    fold (normalized (getProp obsidian (obsidianProperty m) VUndefined)).
    destruct (String.eqb_spec
                (normalized (getProp notion (obsidianProperty m) VUndefined))
                (normalized (getProp obsidian (obsidianProperty m)
                               VUndefined))) as [E|E]; cbn [negb].
    + rewrite IH.
      * split; [intros H; constructor; [|exact H]|now inversion 1].
        unfold agreeOn. now rewrite <- Hn, <- Ho.
      * intros k. now rewrite normalized_putBack.
      * intros k. now rewrite normalized_putBack.
    + cbn [fst]. split; [discriminate|]. inversion 1 as [|? ? Hm _]; subst.
      unfold agreeOn in Hm. rewrite <- Hn, <- Ho in Hm. contradiction.
Qed.

(** X8. [hasSignificantChanges] compares the properties named by the
    field mappings and nothing else: it reports no change exactly when,
    for every mapping, the two values of its Obsidian property have the
    same normal form. That [normalizeValue] sorts the arrays it is
    given in place does not alter any later comparison; in particular,
    without field mappings there is never a property change. *)
Theorem hasSignificantChanges_mapped_only (notion obsidian : Obj JsValue)
  (config : SyncConfig) :
  ((hasSignificantChanges notion obsidian config).1 = false
   <-> List.Forall (agreeOn notion obsidian) (fieldMappings config))
  /\ (fieldMappings config = [] ->
      (hasSignificantChanges notion obsidian config).1 = false).
Proof.
  split.
  - unfold hasSignificantChanges. now apply changes_loop.
  - unfold hasSignificantChanges. now intros ->.
Qed.

(** X9. The order of the elements of a list value never counts as a
    change: [hasSignificantChanges] gives the same verdict when the
    elements of a list of the note are reordered (the multi-select of a
    page and the list of a note are compared as sorted lists). *)
Theorem hasSignificantChanges_ignores_order (notion obsidian : Obj JsValue)
  (config : SyncConfig) (k : string) (l l' : list string) :
  Permutation l l' ->
  (hasSignificantChanges notion (obj_set k (VArray l) obsidian) config).1
  = (hasSignificantChanges notion (obj_set k (VArray l') obsidian) config).1.
Proof.
  intros Hp.
  assert (Hsame : forall key,
            normalized (getProp (obj_set k (VArray l) obsidian) key
                          VUndefined)
            = normalized (getProp (obj_set k (VArray l') obsidian) key
                            VUndefined)).
  { intros key. unfold getProp.
    destruct (String.eqb_spec k key) as [<-|Hne].
    - rewrite !obj_get_set_eq. unfold normalized. cbn.
      now rewrite (sortStrings_permutation l l' Hp).
    - now rewrite !obj_get_set_ne. }
  unfold hasSignificantChanges.
  pose proof (changes_loop (fieldMappings config) notion
                (obj_set k (VArray l) obsidian) notion
                (obj_set k (VArray l') obsidian)
                (fun _ => eq_refl) Hsame) as H1.
  pose proof (changes_loop (fieldMappings config) notion
                (obj_set k (VArray l') obsidian) notion
                (obj_set k (VArray l') obsidian)
                (fun _ => eq_refl) (fun _ => eq_refl)) as H2.
  destruct (hasSignificantChanges_loop _ notion (obj_set k (VArray l) _)).1,
    (hasSignificantChanges_loop _ notion (obj_set k (VArray l') _)).1;
    try reflexivity.
  - apply H1, H2. reflexivity.
  - symmetry. apply H2, H1. reflexivity.
Qed.

(** ** File names *)

Lemma allChars_filterChars (p : ascii -> bool) (s : string) :
  allChars p (filterChars p s) = true.
Proof.
  induction s as [|c s IH]; cbn; [reflexivity|].
  destruct (p c) eqn:E; cbn; [now rewrite E|exact IH].
Qed.

Lemma allChars_weaken (p q : ascii -> bool) (s : string) :
  (forall c, p c = true -> q c = true) ->
  allChars p s = true -> allChars q s = true.
Proof.
  intros Hpq. induction s as [|c s IH]; cbn; [reflexivity|].
  intros [Hc Hs]%andb_prop. now rewrite (Hpq c Hc), IH.
Qed.

Lemma allChars_replaceWhiteSpaceRuns (p : ascii -> bool) (b : bool)
  (s : string) :
  p " "%char = true -> allChars p s = true ->
  allChars p (replaceWhiteSpaceRuns " " b s) = true.
Proof.
  intros Hsp. revert b. induction s as [|c s IH]; intros b; cbn;
    [reflexivity|].
  intros [Hc Hs]%andb_prop.
  destruct (isWhiteSpace c); [destruct b|]; [auto| |cbn; rewrite Hc; cbn [andb]; auto].
  change (allChars p (String " " (replaceWhiteSpaceRuns " " true s)) = true).
  cbn. rewrite Hsp. cbn [andb]. auto.
Qed.

Lemma spaces_replaceWhiteSpaceRuns (b : bool) (s : string) :
  allChars (fun c => negb (isWhiteSpace c) || Ascii.eqb c " ")
    (replaceWhiteSpaceRuns " " b s) = true.
Proof.
  revert b. induction s as [|c s IH]; intros b; cbn; [reflexivity|].
  destruct (isWhiteSpace c) eqn:E; [destruct b|]; [auto| |cbn; rewrite E; cbn [negb orb andb]; auto].
  change (allChars (fun c => negb (isWhiteSpace c) || Ascii.eqb c " ")
            (String " " (replaceWhiteSpaceRuns " " true s)) = true).
  cbn [allChars]. rewrite IH. reflexivity.
Qed.

Lemma allChars_trimStart (p : ascii -> bool) (s : string) :
  allChars p s = true -> allChars p (trimStart s) = true.
Proof.
  induction s as [|c s IH]; cbn; [reflexivity|].
  intros [Hc Hs]%andb_prop.
  destruct (isWhiteSpace c); cbn; [auto|now rewrite Hc, Hs].
Qed.

Lemma allChars_trimEnd (p : ascii -> bool) (s : string) :
  allChars p s = true -> allChars p (trimEnd s) = true.
Proof.
  induction s as [|c s IH]; cbn; [reflexivity|].
  intros [Hc Hs]%andb_prop. specialize (IH Hs).
  destruct (trimEnd s); [destruct (isWhiteSpace c)|]; cbn in *;
    rewrite ?Hc; auto.
Qed.

Lemma allChars_take (p : ascii -> bool) (n : nat) (s : string) :
  allChars p s = true -> allChars p (take n s) = true.
Proof.
  revert s. induction n as [|n IH]; intros [|c s]; cbn; try reflexivity.
  intros [Hc Hs]%andb_prop. now rewrite Hc, IH.
Qed.

Lemma length_take (n : nat) (s : string) : String.length (take n s) <= n.
Proof.
  revert s. induction n as [|n IH]; intros [|c s]; cbn; try lia.
  specialize (IH s). lia.
Qed.

Lemma trimStart_trimEnd (s : string) :
  trimStart s = s -> trimStart (trimEnd s) = trimEnd s.
Proof.
  destruct s as [|c s]; [reflexivity|]. cbn [trimStart].
  destruct (isWhiteSpace c) eqn:E.
  - intros H. exfalso.
    assert (Hlen : forall t, String.length (trimStart t) <= String.length t).
    { induction t as [|a t IHt]; cbn; [lia|].
      destruct (isWhiteSpace a); cbn; lia. }
    specialize (Hlen s). rewrite H in Hlen. cbn in Hlen. lia.
  - intros _. cbn [trimEnd].
    destruct (trimEnd s); rewrite ?E; unfold str1; cbn [trimStart];
      now rewrite E.
Qed.

Lemma trimStart_idem (s : string) : trimStart (trimStart s) = trimStart s.
Proof.
  induction s as [|c s IH]; cbn; [reflexivity|].
  destruct (isWhiteSpace c) eqn:E; [exact IH|]. cbn. now rewrite E.
Qed.

Lemma trimStart_take (n : nat) (s : string) :
  trimStart s = s -> trimStart (take n s) = take n s.
Proof.
  destruct s as [|c s], n as [|n]; try reflexivity. cbn.
  destruct (isWhiteSpace c) eqn:E; [|reflexivity].
  intros H. exfalso.
  assert (Hlen : forall t, String.length (trimStart t) <= String.length t).
  { induction t as [|a t IHt]; cbn; [lia|].
    destruct (isWhiteSpace a); cbn; lia. }
  specialize (Hlen s). rewrite H in Hlen. cbn in Hlen. lia.
Qed.

(** X10. A sanitized file name has at most 100 code units, none of the
    nine characters that are removed (angle brackets, colon, double
    quote, slash, backslash, bar, question mark, star), no white space
    other than the plain space (tabs and line breaks are replaced), and
    no white space in front. *)
Theorem sanitizeFileName_safe (name : string) :
  String.length (sanitizeFileName name) <= 100
  /\ allChars (fun c => negb (isInvalidFileChar c)) (sanitizeFileName name)
     = true
  /\ allChars (fun c => negb (isWhiteSpace c) || Ascii.eqb c " ")
       (sanitizeFileName name) = true
  /\ trimStart (sanitizeFileName name) = sanitizeFileName name.
Proof.
  unfold sanitizeFileName, substring.
  change (Nat.max 0 100 - Nat.min 0 100) with 100.
  change (drop (Nat.min 0 100) ?s) with s.
  split; [apply length_take|]. split; [|split].
  - apply allChars_take. unfold trim.
    apply allChars_trimEnd, allChars_trimStart.
    apply allChars_replaceWhiteSpaceRuns; [reflexivity|].
    apply allChars_filterChars.
  - apply allChars_take. unfold trim.
    apply allChars_trimEnd, allChars_trimStart, spaces_replaceWhiteSpaceRuns.
  - apply trimStart_take. unfold trim.
    apply trimStart_trimEnd, trimStart_idem.
Qed.

Lemma trimStart_blank (s : string) :
  allChars isWhiteSpace s = true -> trimStart s = EmptyString.
Proof.
  induction s as [|c s IH]; cbn; [reflexivity|].
  intros [Hc Hs]%andb_prop. rewrite Hc. auto.
Qed.

Lemma blank_replaceWhiteSpaceRuns (b : bool) (s : string) :
  allChars isWhiteSpace s = true ->
  allChars isWhiteSpace (replaceWhiteSpaceRuns " " b s) = true.
Proof.
  revert b. induction s as [|c s IH]; intros b; cbn; [reflexivity|].
  intros [Hc Hs]%andb_prop. rewrite Hc. destruct b; [auto|].
  change (allChars isWhiteSpace
            (String " " (replaceWhiteSpaceRuns " " true s)) = true).
  cbn [allChars]. now rewrite IH.
Qed.

Lemma blank_filterChars (s : string) :
  allChars (fun c => isInvalidFileChar c || isWhiteSpace c) s = true ->
  allChars isWhiteSpace
    (filterChars (fun c => negb (isInvalidFileChar c)) s) = true.
Proof.
  induction s as [|c s IH]; cbn; [reflexivity|].
  intros [Hc Hs]%andb_prop.
  destruct (isInvalidFileChar c); cbn in *; [auto|].
  now rewrite Hc, IH.
Qed.

(** X11. The file name can be empty. A page whose first title is not
    blank but is made only of characters that are removed and of white
    space (three question marks, say) is given the empty file name, and
    so the path of the folder followed by a slash and the extension:
    the test for a usable title comes before the sanitizing, and the
    fallback to the identifier of the page is not taken. *)
Theorem getFileNameFromPage_can_be_empty (page : NotionPage)
  (config : SyncConfig) (k : string) (t : RichText) (ts : list RichText)
  (rest : Obj NotionProp) :
  fieldMappings config = [] ->
  page_properties page = (k, PTitle (t :: ts)) :: rest ->
  trim (plain_text t) <> EmptyString ->
  allChars (fun c => isInvalidFileChar c || isWhiteSpace c) (plain_text t)
  = true ->
  getFileNameFromPage page config = EmptyString
  /\ filePathOf config (getFileNameFromPage page config)
     = obsidianFolder config ++ "/.md".
Proof.
  intros Hnone Hprops Htitle Hchars.
  assert (Hname : getFileNameFromPage page config = EmptyString).
  { unfold getFileNameFromPage, mappedTitle, anyTitle.
    rewrite Hnone, Hprops. cbn [List.find mbind option_bind firstSome snd].
    cbn [titleText].
    destruct (trim (plain_text t)) eqn:E; [contradiction|].
    cbn [isEmpty]. unfold sanitizeFileName, trim.
    rewrite (trimStart_blank _
               (blank_replaceWhiteSpaceRuns false _
                  (blank_filterChars _ Hchars))).
    reflexivity. }
  split; [exact Hname|]. now rewrite Hname.
Qed.

(** ** The notes of a folder *)

Lemma addFiles_nodes (t f : TAbstractFile) :
  In f (addFiles t)
  <-> In f (List.tl (nodesOf t)) /\ isMarkdownFile f = true.
Proof.
  induction t as [p m d|p cs IH] using TAbstractFile_nested_ind.
  - cbn. tauto.
  - cbn [addFiles nodesOf List.tl]. rewrite !in_flat_map. split.
    + intros (c & Hc & Hf). rewrite List.Forall_forall in IH.
      destruct c as [q m d|q cs'].
      * destruct (String.eqb (extension (TFile q m d)) "md") eqn:E;
          [|destruct Hf].
        destruct Hf as [<-|[]]. split; [|exact E].
        exists (TFile q m d). split; [exact Hc|now left].
      * apply (IH _ Hc) in Hf as [Hin Hmd]. split; [|exact Hmd].
        exists (TFolder q cs'). split; [exact Hc|]. now right.
    + intros [(c & Hc & Hin) Hmd]. exists c. split; [exact Hc|].
      rewrite List.Forall_forall in IH.
      destruct c as [q m d|q cs'].
      * destruct Hin as [<-|[]]. unfold isMarkdownFile in Hmd.
        rewrite Hmd. now left.
      * destruct Hin as [<-|Hin]; [discriminate|].
        apply (IH _ Hc). split; [exact Hin|exact Hmd].
Qed.

(** X12. [getAllMarkdownFiles] returns exactly the markdown files below
    the folder, at any depth: a file is in the list if and only if it
    is somewhere under the folder and its extension is md, in lower
    case; folders and files of another extension are never in it. *)
Theorem getAllMarkdownFiles_exact (p : string)
  (children : list TAbstractFile) (f : TAbstractFile) (w : World) :
  getAllMarkdownFiles (TFolder p children) w
  = (Returns (addFiles (TFolder p children)), w)
  /\ (In f (addFiles (TFolder p children))
      <-> In f (flat_map nodesOf children)
          /\ exists q m d, f = TFile q m d
                           /\ extension (TFile q m d) = "md").
Proof.
  split; [reflexivity|]. rewrite addFiles_nodes. cbn [nodesOf List.tl].
  split; intros [Hin H]; (split; [exact Hin|]).
  - destruct f as [q m d|q cs]; [|discriminate].
    exists q, m, d. split; [reflexivity|]. now apply String.eqb_eq.
  - destruct H as (q & m & d & -> & E). cbn. now apply String.eqb_eq.
Qed.

(** ** The two conversions *)

Lemma convert_fold (frontmatter : Obj JsValue) (config : SyncConfig) :
  convertFrontmatterToNotionProperties frontmatter config
  = fold_left (sendStep frontmatter) (fieldMappings config) [].
Proof.
  unfold convertFrontmatterToNotionProperties.
  now destruct (fieldMappings config).
Qed.

Lemma In_obj_set {V} (k k' : string) (v v' : V) (o : Obj V) :
  In (k, v) (obj_set k' v' o) -> (k, v) = (k', v') \/ In (k, v) o.
Proof.
  induction o as [|[k0 v0] o IH]; cbn.
  - intros [[= <- <-]|[]]. now left.
  - destruct (String.eqb k0 k'); cbn.
    + intros [[= <- <-]|H]; auto.
    + intros [H|H]; auto. destruct (IH H); auto.
Qed.

Lemma sendStep_entries (frontmatter : Obj JsValue)
  (properties : Obj PropertyUpdate) (mapping : FieldMapping)
  (k : string) (u : PropertyUpdate) :
  In (k, u) (sendStep frontmatter properties mapping) ->
  In (k, u) properties
  \/ k = notionProperty mapping
     /\ isNullish (getProp frontmatter (obsidianProperty mapping) VUndefined)
        = false.
Proof.
  unfold sendStep. cbv zeta.
  destruct (isNullish _) eqn:E; [auto|].
  repeat (match goal with
          | |- context [if ?b then _ else _] => destruct b
          | |- context [match toNumber ?v with _ => _ end] =>
              destruct (toNumber v)
          end;
          try (intros [[= -> _]|H]%In_obj_set; auto)); auto.
Qed.

(** X13. With ordinary field mappings, whose Obsidian properties name
    no member of [Object.prototype],
    [convertFrontmatterToNotionProperties] sends mapped properties
    only: every property of its result is the Notion property of a field
    mapping whose Obsidian property has a value in the front-matter that
    is neither null nor undefined. Front-matter without a mapping, as
    the identifier of the page and the time stamps of the engine, is
    never sent; without field mappings nothing is. *)
Theorem convertFrontmatterToNotionProperties_mapped_only
  (frontmatter : Obj JsValue) (config : SyncConfig) (k : string)
  (u : PropertyUpdate) :
  List.Forall ordinaryMapping (fieldMappings config) ->
  In (k, u) (convertFrontmatterToNotionProperties frontmatter config) ->
  exists mapping,
    In mapping (fieldMappings config)
    /\ notionProperty mapping = k
    /\ exists value,
         obj_get (obsidianProperty mapping) frontmatter = Some value
         /\ isNullish value = false.
Proof.
  rewrite convert_fold.
  assert (H : forall ms acc,
             In (k, u) (fold_left (sendStep frontmatter) ms acc) ->
             In (k, u) acc
             \/ exists mapping,
                  In mapping ms /\ notionProperty mapping = k
                  /\ exists value,
                       obj_get (obsidianProperty mapping) frontmatter
                       = Some value
                       /\ isNullish value = false).
  { induction ms as [|m ms IH]; intros acc; cbn [fold_left]; [auto|].
    intros Hin. destruct (IH _ Hin) as [Hacc|(m' & Hm' & Hk & Hv)].
    - apply sendStep_entries in Hacc as [Hacc|[-> Hv]]; [auto|].
      right. exists m. split; [now left|]. split; [reflexivity|].
      unfold getProp in Hv.
      destruct (obj_get (obsidianProperty m) frontmatter) as [v|];
        [eauto|discriminate].
    - right. exists m'. split; [now right|]. auto. }
  intros _ Hin. destruct (H _ _ Hin) as [[]|Hm]. exact Hm.
Qed.

Lemma run_mappedStep (properties : Obj NotionProp)
  (frontmatter : Obj JsValue) (mapping : FieldMapping) (w : World) :
  exists frontmatter' w',
    mappedStep properties frontmatter mapping w = (Returns frontmatter', w')
    /\ (frontmatter' = frontmatter
        \/ exists value,
             is_Some (obj_get (notionProperty mapping) properties)
             /\ isNullish value = false
             /\ frontmatter'
                = obj_set (obsidianProperty mapping) value frontmatter).
Proof.
  unfold mappedStep.
  destruct (obj_get (notionProperty mapping) properties) as [p|];
    [|eexists _, _; split; [reflexivity|now left]].
  rewrite run_tryCatch, run_bind.
  destruct (run_returns quiet (propertyValue p) w)
    as ([value|] & w1 & -> & _).
  - destruct (isNullish value) eqn:E; cbn [negb];
      eexists _, _; (split; [reflexivity|]); [now left|].
    right. exists value. eauto.
  - rewrite run_bind, run_say. eexists _, _. split; [reflexivity|now left].
Qed.

Lemma run_mappedStep_sent (properties : Obj NotionProp)
  (frontmatter : Obj JsValue) (mapping : FieldMapping)
  (u : PropertyUpdate) (w : World) :
  obj_get (notionProperty mapping) properties = Some (applyUpdate u) ->
  mappedStep properties frontmatter mapping w
  = (Returns (obj_set (obsidianProperty mapping) (valueOfUpdate u)
                frontmatter), w).
Proof.
  intros E. unfold mappedStep. rewrite E.
  destruct u; reflexivity.
Qed.

Lemma run_mappedLoop (properties : Obj NotionProp)
  (mappings : list FieldMapping) (frontmatter : Obj JsValue) (w : World) :
  exists frontmatter' w',
    forOf mappings frontmatter (mappedStep properties) w
    = (Returns frontmatter', w')
    /\ (forall k v,
          In (k, v) frontmatter' ->
          In (k, v) frontmatter
          \/ exists mapping,
               In mapping mappings /\ obsidianProperty mapping = k
               /\ is_Some (obj_get (notionProperty mapping) properties)
               /\ isNullish v = false)
    /\ (forall k,
          ~ In k (List.map obsidianProperty mappings) ->
          obj_get k frontmatter' = obj_get k frontmatter).
Proof.
  revert frontmatter w.
  induction mappings as [|m ms IH]; intros frontmatter w.
  - exists frontmatter, w. split; [reflexivity|]. split; auto.
  - cbn [forOf]. rewrite run_bind.
    destruct (run_mappedStep properties frontmatter m w)
      as (fm1 & w1 & -> & Hstep).
    destruct (IH fm1 w1) as (fm2 & w2 & -> & Hin & Hout).
    exists fm2, w2. split; [reflexivity|]. split.
    + intros k v Hkv. destruct (Hin k v Hkv) as [H1|(m' & ? & ? & ? & ?)].
      * destruct Hstep as [->|(value & Hp & Hv & ->)]; [auto|].
        apply In_obj_set in H1 as [[= -> ->]|H1]; [|auto].
        right. exists m. split; [now left|]. auto.
      * right. exists m'. split; [now right|]. auto.
    + intros k Hk. cbn in Hk. rewrite Hout by tauto.
      destruct Hstep as [->|(value & _ & _ & ->)]; [reflexivity|].
      apply obj_get_set_ne. intros <-. tauto.
Qed.

(** X14. With field mappings, [convertNotionPropertiesToFrontmatter]
    cannot throw and emits mapped properties only: every entry of the
    front-matter it returns is under the Obsidian property of a mapping
    whose Notion property the page has, and its value is neither null
    nor undefined (an empty property of the page is left out, where the
    conversion without mappings emits an empty text). *)
Theorem mappedConversion_mapped_only (properties : Obj NotionProp)
  (config : SyncConfig) (w : World) :
  fieldMappings config <> [] ->
  exists frontmatter w',
    convertNotionPropertiesToFrontmatter properties config w
    = (Returns frontmatter, w')
    /\ forall k v,
         In (k, v) frontmatter ->
         exists mapping,
           In mapping (fieldMappings config)
           /\ obsidianProperty mapping = k
           /\ is_Some (obj_get (notionProperty mapping) properties)
           /\ isNullish v = false.
Proof.
  intros Hsome. unfold convertNotionPropertiesToFrontmatter.
  destruct (fieldMappings config) as [|m ms] eqn:E; [contradiction|].
  destruct (run_mappedLoop properties (m :: ms) [] w)
    as (fm & w' & Hrun & Hin & _).
  exists fm, w'. split; [exact Hrun|].
  intros k v Hkv. destruct (Hin k v Hkv) as [[]|H]. exact H.
Qed.

Lemma sendStep_other (frontmatter : Obj JsValue)
  (properties : Obj PropertyUpdate) (mapping : FieldMapping) (k : string) :
  k <> notionProperty mapping ->
  obj_get k (sendStep frontmatter properties mapping) = obj_get k properties.
Proof.
  intros Hne. unfold sendStep. cbv zeta.
  repeat (match goal with
          | |- context [if ?b then _ else _] => destruct b
          | |- context [match toNumber ?v with _ => _ end] =>
              destruct (toNumber v)
          end; try reflexivity; try (apply obj_get_set_ne; congruence)).
Qed.

Lemma sendStep_typed (frontmatter : Obj JsValue)
  (properties : Obj PropertyUpdate) (mapping : FieldMapping)
  (value : JsValue) :
  obj_get (obsidianProperty mapping) frontmatter = Some value ->
  typedAs mapping value ->
  exists u,
    valueOfUpdate u = value
    /\ sendStep frontmatter properties mapping
       = obj_set (notionProperty mapping) u properties.
Proof.
  intros Hget Htyped. unfold sendStep, getProp. rewrite Hget. cbn [default].
  destruct value; cbn in Htyped; try contradiction; cbn [isNullish].
  - destruct Htyped as [->|[->| ->]]; cbn;
      eexists; (split; [|reflexivity]); reflexivity.
  - rewrite Htyped. cbn. eexists; (split; [|reflexivity]); reflexivity.
  - rewrite Htyped. cbn. eexists; (split; [|reflexivity]); reflexivity.
  - rewrite Htyped. cbn. eexists; (split; [|reflexivity]); reflexivity.
Qed.

Lemma sendLoop_other (frontmatter : Obj JsValue)
  (mappings : list FieldMapping) (acc : Obj PropertyUpdate) (k : string) :
  ~ In k (List.map notionProperty mappings) ->
  obj_get k (fold_left (sendStep frontmatter) mappings acc) = obj_get k acc.
Proof.
  revert acc. induction mappings as [|m ms IH]; intros acc Hk; cbn in *;
    [reflexivity|].
  rewrite IH by tauto. apply sendStep_other. intros ->. tauto.
Qed.

Lemma sendLoop_sent (frontmatter : Obj JsValue)
  (mappings : list FieldMapping) (acc : Obj PropertyUpdate)
  (mapping : FieldMapping) (value : JsValue) :
  List.NoDup (List.map notionProperty mappings) ->
  In mapping mappings ->
  obj_get (obsidianProperty mapping) frontmatter = Some value ->
  typedAs mapping value ->
  exists u,
    valueOfUpdate u = value
    /\ obj_get (notionProperty mapping)
         (fold_left (sendStep frontmatter) mappings acc) = Some u.
Proof.
  intros Hnd Hin Hget Htyped. revert acc.
  induction mappings as [|m ms IH]; intros acc; [destruct Hin|].
  cbn [fold_left]. cbn in Hnd. apply List.NoDup_cons_iff in Hnd as [Hm Hnd].
  destruct Hin as [->|Hin].
  - destruct (sendStep_typed frontmatter acc mapping value Hget Htyped)
      as (u & Hu & ->).
    exists u. split; [exact Hu|].
    rewrite sendLoop_other by exact Hm. apply obj_get_set_eq.
  - now apply IH.
Qed.

Lemma keysOf_obj_set {V} (k : string) (v : V) (o : Obj V) :
  (forall k', In k' (keysOf (obj_set k v o)) -> k' = k \/ In k' (keysOf o))
  /\ (List.NoDup (keysOf o) -> List.NoDup (keysOf (obj_set k v o))).
Proof.
  unfold keysOf. induction o as [|[k0 v0] o [IH1 IH2]]; cbn.
  - split; [intros k' [<-|[]]; auto|].
    intros _. constructor; [intros []|constructor].
  - destruct (String.eqb_spec k0 k) as [->|Hne]; cbn.
    + split; [intros k' [<-|Hk']; auto|auto].
    + split.
      * intros k' [<-|Hk']; [auto|]. destruct (IH1 k' Hk'); auto.
      * intros [Hk0 Hnd]%List.NoDup_cons_iff. constructor; [|auto].
        intros Hin. destruct (IH1 k0 Hin); [congruence|contradiction].
Qed.

Lemma sendStep_keys (frontmatter : Obj JsValue)
  (properties : Obj PropertyUpdate) (mapping : FieldMapping) :
  List.NoDup (keysOf properties) ->
  List.NoDup (keysOf (sendStep frontmatter properties mapping)).
Proof.
  intros Hnd. unfold sendStep. cbv zeta.
  repeat (match goal with
          | |- context [if ?b then _ else _] => destruct b
          | |- context [match toNumber ?v with _ => _ end] =>
              destruct (toNumber v)
          end; try exact Hnd; try (now apply keysOf_obj_set)).
Qed.

Lemma sendLoop_keys (frontmatter : Obj JsValue)
  (mappings : list FieldMapping) (acc : Obj PropertyUpdate) :
  List.NoDup (keysOf acc) ->
  List.NoDup (keysOf (fold_left (sendStep frontmatter) mappings acc)).
Proof.
  revert acc. induction mappings as [|m ms IH]; intros acc Hnd;
    cbn [fold_left]; [exact Hnd|].
  now apply IH, sendStep_keys.
Qed.

Lemma applyUpdates_other (us : Obj PropertyUpdate) (ps : Obj NotionProp)
  (k : string) :
  ~ In k (keysOf us) -> obj_get k (applyUpdates us ps) = obj_get k ps.
Proof.
  unfold applyUpdates. revert ps.
  induction us as [|[k0 u0] us IH]; intros ps Hk; cbn in *; [reflexivity|].
  rewrite IH by tauto. apply obj_get_set_ne. intros ->. tauto.
Qed.

Lemma applyUpdates_sent (us : Obj PropertyUpdate) (ps : Obj NotionProp)
  (k : string) (u : PropertyUpdate) :
  List.NoDup (keysOf us) -> obj_get k us = Some u ->
  obj_get k (applyUpdates us ps) = Some (applyUpdate u).
Proof.
  revert ps. induction us as [|[k0 u0] us IH]; intros ps Hnd Hget;
    [discriminate|].
  cbn in Hnd, Hget. apply List.NoDup_cons_iff in Hnd as [Hk0 Hnd].
  change (applyUpdates ((k0, u0) :: us) ps)
    with (applyUpdates us (obj_set k0 (applyUpdate u0) ps)).
  destruct (String.eqb_spec k0 k) as [->|Hne].
  - injection Hget as ->. rewrite applyUpdates_other by exact Hk0.
    apply obj_get_set_eq.
  - now apply IH.
Qed.

Lemma mappedLoop_sent (properties : Obj NotionProp)
  (mappings : list FieldMapping) (mapping : FieldMapping)
  (u : PropertyUpdate) (frontmatter : Obj JsValue) (w : World) :
  List.NoDup (List.map obsidianProperty mappings) ->
  In mapping mappings ->
  obj_get (notionProperty mapping) properties = Some (applyUpdate u) ->
  exists frontmatter' w',
    forOf mappings frontmatter (mappedStep properties) w
    = (Returns frontmatter', w')
    /\ obj_get (obsidianProperty mapping) frontmatter'
       = Some (valueOfUpdate u).
Proof.
  intros Hnd Hin Hget. revert frontmatter w.
  induction mappings as [|m ms IH]; intros frontmatter w; [destruct Hin|].
  cbn in Hnd. apply List.NoDup_cons_iff in Hnd as [Hm Hnd].
  cbn [forOf]. rewrite run_bind. destruct Hin as [->|Hin].
  - rewrite (run_mappedStep_sent _ _ _ u) by exact Hget.
    destruct (run_mappedLoop properties ms
                (obj_set (obsidianProperty mapping) (valueOfUpdate u)
                   frontmatter) w) as (fm2 & w2 & -> & _ & Hout).
    exists fm2, w2. split; [reflexivity|].
    rewrite Hout by exact Hm. apply obj_get_set_eq.
  - destruct (run_mappedStep properties frontmatter m w)
      as (fm1 & w1 & -> & _).
    now apply IH.
Qed.


(** ** Updating a page *)

#[local] Instance sameContent_tolerates (i : string) :
  Tolerates (sameContent i).
Proof.
  split; unfold sameContent.
  - auto.
  - intros w1 w2 w3 ? ?. congruence.
  - auto.
  - auto.
Qed.

#[local] Instance sameContent_insert (i : string) :
  ToleratesInsert (sameContent i).
Proof. intros w parent node. reflexivity. Qed.

#[local] Instance sameContent_modify (i : string) :
  ToleratesModify (sameContent i).
Proof. intros w p now text. reflexivity. Qed.

#[local] Instance sameContent_patched (i pageId : string)
  (properties : Obj PropertyUpdate) :
  Preserves (sameContent i) (modifyWorld (patched pageId properties)).
Proof.
  intros w. unfold sameContent, patched.
  cbn [modifyWorld snd pages set_pages].
  destruct (String.eqb_spec pageId i) as [->|Hne].
  - rewrite lookup_alter_eq. now destruct (pages w !! i).
  - now rewrite lookup_alter_ne.
Qed.

#[local] Instance updatePage_empty_content (i pageId : string)
  (properties : Obj PropertyUpdate) :
  Preserves (sameContent i) (updatePage pageId properties EmptyString).
Proof. unfold updatePage, patchPage. cbn [JsString.isEmpty]. frame. Qed.

(** X16. Pushing a note whose body is empty never changes the content of
    a remote page: [updatePage] with an empty content sends the
    properties only, and [updateNotionFromObsidian] on such a note,
    whether it returns or throws, leaves every remote page with the
    content it had. *)
Theorem empty_note_keeps_remote_content (note : ObsidianNote)
  (config : SyncConfig) (i pageId : string)
  (properties : Obj PropertyUpdate) (w : World) :
  sameContent i w (updatePage pageId properties EmptyString w).2
  /\ (note_content note = EmptyString ->
      sameContent i w (updateNotionFromObsidian note config w).2).
Proof.
  split; [apply (preserved (R := sameContent i))|].
  intros Hempty.
  refine (preserved (R := sameContent i) (m := updateNotionFromObsidian _ _)
            w).
  unfold updateNotionFromObsidian. rewrite Hempty. frame.
Qed.

(** ** Markdown to blocks *)

Lemma trimEnd_cons (c : ascii) (s : string) :
  trimEnd (String c s)
  = match trimEnd s with
    | EmptyString => if isWhiteSpace c then EmptyString else str1 c
    | t => String c t
    end.
Proof. reflexivity. Qed.

Lemma trimEnd_idem (s : string) : trimEnd (trimEnd s) = trimEnd s.
Proof.
  induction s as [|c s IH]; [reflexivity|]. rewrite trimEnd_cons.
  destruct (trimEnd s) as [|a t] eqn:E.
  - destruct (isWhiteSpace c) eqn:Ec; [reflexivity|]. cbn. now rewrite Ec.
  - now rewrite trimEnd_cons, IH.
Qed.

Lemma trimEnd_tail (c : ascii) (s : string) :
  trimEnd (String c s) = String c s -> s <> EmptyString -> trimEnd s = s.
Proof.
  rewrite trimEnd_cons. destruct (trimEnd s) as [|a t] eqn:E.
  - destruct (isWhiteSpace c); [discriminate|]. unfold str1.
    intros [= <-]. congruence.
  - now intros [= <-].
Qed.

Lemma trimEnd_drop (n : nat) (s : string) :
  trimEnd s = s -> drop n s <> EmptyString -> trimEnd (drop n s) = drop n s.
Proof.
  revert s. induction n as [|n IH]; intros [|c s]; cbn [drop]; auto.
  intros Hs Hne. apply IH; [|exact Hne].
  apply (trimEnd_tail c); [exact Hs|]. intros ->. now destruct n.
Qed.

Lemma trimEnd_prefix (p s : string) :
  trimEnd s = s -> s <> EmptyString -> trimEnd (p ++ s) = p ++ s.
Proof.
  intros Hs Hne. induction p as [|c p IH]; [exact Hs|].
  rewrite app_cons, trimEnd_cons, IH.
  destruct (p ++ s) eqn:E; [|reflexivity].
  destruct p; [contradiction|discriminate].
Qed.

Lemma allChars_drop (p : ascii -> bool) (n : nat) (s : string) :
  allChars p s = true -> allChars p (drop n s) = true.
Proof.
  revert s. induction n as [|n IH]; intros [|c s]; cbn; auto.
  intros [_ Hs]%andb_prop. auto.
Qed.

Lemma startsWith_split (p s : string) :
  startsWith p s = true -> s = p ++ drop (String.length p) s.
Proof.
  revert s. induction p as [|a p IH]; intros s; [reflexivity|].
  destruct s as [|b s]; [discriminate|]. cbn.
  intros [Hab Hp]%andb_prop. apply Ascii.eqb_eq in Hab as ->.
  rewrite app_cons. f_equal. now apply IH.
Qed.

Lemma skipDigits_drop (s : string) :
  exists n, skipDigits s = drop n s.
Proof.
  induction s as [|c s [n IH]]; [now exists 0|]. cbn.
  destruct (IntRuntime.isDigit c); [now exists (S n)|now exists 0].
Qed.

Lemma split_noChar (sep : ascii) (s : string) :
  forallb (noChar sep) (split sep s) = true.
Proof.
  unfold noChar. induction s as [|c s IH]; [reflexivity|]. cbn [split].
  destruct (Ascii.eqb c sep) eqn:E; [exact IH|].
  destruct (split sep s) as [|x xs]; cbn in *; rewrite E; [reflexivity|].
  exact IH.
Qed.

(** What holds of the state of the loop: the blocks are sound, and the
    pending paragraph is one line without white space at its end. *)
Lemma blockStep_sound (state : list NewBlock * string) (line : string)
  (Q := fun text =>
          noChar LF text = true /\ trimEnd text = text) :
  List.Forall (fun b => block_content b <> EmptyString
                        /\ Q (block_content b)) state.1 ->
  Q state.2 -> noChar LF line = true ->
  List.Forall (fun b => block_content b <> EmptyString
                        /\ Q (block_content b)) (blockStep state line).1
  /\ Q (blockStep state line).2.
Proof.
  intros Hblocks Hcur Hline. subst Q. cbn beta in *.
  assert (Hflush : List.Forall
                     (fun b => block_content b <> EmptyString
                               /\ noChar LF (block_content b) = true
                               /\ trimEnd (block_content b)
                                  = block_content b)
                     (flushParagraph state).1
                   /\ noChar LF (flushParagraph state).2 = true
                   /\ trimEnd (flushParagraph state).2
                      = (flushParagraph state).2).
  { unfold flushParagraph. destruct state as [blocks cur]. cbn [fst snd] in *.
    destruct cur as [|c cur]; cbn [isEmpty fst snd]; [auto|].
    split; [|auto]. apply List.Forall_app. split; [exact Hblocks|].
    constructor; [|constructor]. cbn. split; [discriminate|exact Hcur]. }
  assert (Ht : noChar LF (trim line) = true /\ trimEnd (trim line) = trim line).
  { split; [|apply trimEnd_idem].
    now apply allChars_trimEnd, allChars_trimStart. }
  destruct Ht as [Ht1 Ht2].
  assert (Hpush : forall t n,
            drop n (trim line) <> EmptyString ->
            List.Forall
              (fun b => block_content b <> EmptyString
                        /\ noChar LF (block_content b) = true
                        /\ trimEnd (block_content b) = block_content b)
              ((flushParagraph state).1
                 ++ [{| block_type := t;
                        block_content := drop n (trim line) |}])%list).
  { intros t n Hne. apply List.Forall_app. split; [apply Hflush|].
    constructor; [|constructor]. cbn. split; [exact Hne|].
    split; [now apply allChars_drop|now apply trimEnd_drop]. }
  assert (Hmark : forall p,
            trimEnd p <> p -> startsWith p (trim line) = true ->
            drop (String.length p) (trim line) <> EmptyString).
  { intros p Hp Hs E. apply startsWith_split in Hs. rewrite E in Hs.
    rewrite app_nil_r in Hs. congruence. }
  unfold blockStep. cbv zeta.
  destruct (isEmpty (trim line)) eqn:Hempty; [exact Hflush|].
  destruct (startsWith "# " (trim line)) eqn:H1.
  { cbn [fst snd]. split; [|auto].
    apply (Hpush heading_1 2), (Hmark "# "); [discriminate|exact H1]. }
  destruct (startsWith "## " (trim line)) eqn:H2.
  { cbn [fst snd]. split; [|auto].
    apply (Hpush heading_2 3), (Hmark "## "); [discriminate|exact H2]. }
  destruct (startsWith "### " (trim line)) eqn:H3.
  { cbn [fst snd]. split; [|auto].
    apply (Hpush heading_3 4), (Hmark "### "); [discriminate|exact H3]. }
  destruct (startsWith "- " (trim line)) eqn:H4.
  { cbn [fst snd]. split; [|auto].
    apply (Hpush bulleted_list_item 2), (Hmark "- ");
      [discriminate|exact H4]. }
  destruct (afterNumber (trim line)) as [content|] eqn:H5.
  - cbn [fst snd]. split; [|auto]. unfold afterNumber in H5.
    destruct (skipDigits_drop (trim line)) as [n Hn]. rewrite Hn in H5.
    destruct (_ && startsWith ". " (drop n (trim line))) eqn:H6;
      [|discriminate].
    apply andb_prop in H6 as [_ H6]. injection H5 as H5.
    assert (Hne : drop n (trim line) <> EmptyString)
      by (intros E; rewrite E in H6; discriminate).
    pose proof (trimEnd_drop n _ Ht2 Hne) as Hd.
    assert (E2 : content = drop (2 + n) (trim line)).
    { rewrite <- H5. clear. generalize (trim line).
      induction n as [|n IH]; intros s; [reflexivity|].
      destruct s as [|c s]; [reflexivity|]. apply IH. }
    rewrite E2. apply Hpush. rewrite <- E2, <- H5. intros E.
    change (drop 2 (drop n (trim line)) = EmptyString) in E.
    apply startsWith_split in H6.
    change (drop (String.length ". ") (drop n (trim line)))
      with (drop 2 (drop n (trim line))) in H6.
    rewrite E, app_nil_r in H6. rewrite H6 in Hd. discriminate.
  - cbn [fst snd]. split; [exact Hblocks|].
    assert (Hne : trim line <> EmptyString)
      by (intros E; rewrite E in Hempty; discriminate).
    destruct Hcur as [Hc1 Hc2]. split.
    + rewrite !noChar_app, Hc1, Ht1. now destruct (isEmpty state.2).
    + rewrite <- app_assoc. now apply trimEnd_prefix.
Qed.

(** X17. [markdownToBlocks] never builds an empty block, nor a block
    whose text spans several lines or ends with white space: the lines
    of a paragraph are joined by single spaces, and what marks a
    heading or a list item is never the whole of a line. *)
Theorem markdownToBlocks_sound (markdown : string) (block : NewBlock) :
  In block (markdownToBlocks markdown) ->
  block_content block <> EmptyString
  /\ noChar LF (block_content block) = true
  /\ trimEnd (block_content block) = block_content block.
Proof.
  unfold markdownToBlocks.
  assert (H : forall lines state,
             forallb (noChar LF) lines = true ->
             List.Forall
               (fun b => block_content b <> EmptyString
                         /\ noChar LF (block_content b) = true
                         /\ trimEnd (block_content b) = block_content b)
               state.1 ->
             noChar LF state.2 = true /\ trimEnd state.2 = state.2 ->
             List.Forall
               (fun b => block_content b <> EmptyString
                         /\ noChar LF (block_content b) = true
                         /\ trimEnd (block_content b) = block_content b)
               (flushParagraph (fold_left blockStep lines state)).1).
  { induction lines as [|line lines IH]; intros state Hlines Hb Hc.
    - cbn [fold_left]. unfold flushParagraph.
      destruct (isEmpty state.2) eqn:E; [exact Hb|]. cbn [fst].
      apply List.Forall_app. split; [exact Hb|].
      constructor; [|constructor]. cbn. split; [|exact Hc].
      intros E'. rewrite E' in E. discriminate.
    - cbn in Hlines. apply andb_prop in Hlines as [Hline Hlines].
      cbn [fold_left].
      destruct (blockStep_sound state line Hb Hc Hline) as [Hb' Hc'].
      now apply IH. }
  intros Hin.
  specialize (H (split LF markdown) ([], EmptyString) (split_noChar LF _)
                (List.Forall_nil _) (conj eq_refl eq_refl)).
  rewrite List.Forall_forall in H. exact (H block Hin).
Qed.

(** [markdownToBlocks] reads a line through [trim] only, so that white
    space around the text makes no difference. *)
Lemma blockStep_trim (state : list NewBlock * string) (line line' : string) :
  trim line = trim line' -> blockStep state line = blockStep state line'.
Proof. intros E. unfold blockStep. now rewrite E. Qed.

Lemma flushParagraph_idem (state : list NewBlock * string) :
  flushParagraph (flushParagraph state) = flushParagraph state.
Proof.
  unfold flushParagraph. destruct (isEmpty state.2) eqn:E; [now rewrite E|].
  reflexivity.
Qed.

Lemma blockStep_blank (state : list NewBlock * string) :
  blockStep state EmptyString = flushParagraph state.
Proof. reflexivity. Qed.

Lemma trimEnd_ws (s : string) (c : ascii) :
  isWhiteSpace c = true -> trimEnd (s ++ str1 c) = trimEnd s.
Proof.
  intros Hc. induction s as [|a s IH].
  - rewrite app_nil_l. cbn. now rewrite Hc.
  - now rewrite app_cons, !trimEnd_cons, IH.
Qed.

Lemma trim_snoc_ws (s : string) (c : ascii) :
  isWhiteSpace c = true -> trim (s ++ str1 c) = trim s.
Proof.
  intros Hc. unfold trim. induction s as [|a s IH].
  - rewrite app_nil_l. cbn. now rewrite Hc.
  - rewrite app_cons. cbn [trimStart].
    destruct (isWhiteSpace a); [exact IH|].
    change (String a (s ++ str1 c)) with (String a s ++ str1 c).
    now apply trimEnd_ws.
Qed.

Lemma split_snoc_sep (sep : ascii) (s : string) :
  split sep (s ++ str1 sep) = (split sep s ++ [EmptyString])%list.
Proof.
  induction s as [|c s IH].
  - rewrite app_nil_l. cbn. now rewrite Ascii.eqb_refl.
  - rewrite app_cons. cbn [split]. rewrite IH.
    destruct (Ascii.eqb c sep); [reflexivity|].
    pose proof (split_nonempty sep s) as Hne.
    destruct (split sep s); [congruence|reflexivity].
Qed.

Lemma split_snoc_other (sep c : ascii) (s : string) :
  Ascii.eqb c sep = false ->
  exists init last,
    split sep s = (init ++ [last])%list
    /\ split sep (s ++ str1 c) = (init ++ [(last ++ str1 c)%string])%list.
Proof.
  intros Hc. induction s as [|a s (init & last & E1 & E2)].
  - exists [], EmptyString. rewrite app_nil_l. cbn. now rewrite Hc.
  - rewrite app_cons. cbn [split]. rewrite E1, E2.
    destruct (Ascii.eqb a sep).
    + exists (EmptyString :: init), last. split; reflexivity.
    + destruct init as [|x init]; cbn [app].
      * exists [], (String a last). split; reflexivity.
      * exists (String a x :: init), last. split; reflexivity.
Qed.

Lemma markdownToBlocks_snoc_ws (s : string) (c : ascii) :
  isWhiteSpace c = true ->
  markdownToBlocks (s ++ str1 c) = markdownToBlocks s.
Proof.
  intros Hc. unfold markdownToBlocks.
  destruct (Ascii.eqb c LF) eqn:E.
  - apply Ascii.eqb_eq in E as ->. rewrite split_snoc_sep, fold_left_app.
    cbn [fold_left]. now rewrite blockStep_blank, flushParagraph_idem.
  - destruct (split_snoc_other LF c s E) as (init & last & -> & ->).
    rewrite !fold_left_app. cbn [fold_left].
    now rewrite (blockStep_trim _ _ last (trim_snoc_ws last c Hc)).
Qed.

Lemma markdownToBlocks_cons_ws (s : string) (c : ascii) :
  isWhiteSpace c = true ->
  markdownToBlocks (String c s) = markdownToBlocks s.
Proof.
  intros Hc. unfold markdownToBlocks. cbn [split].
  destruct (Ascii.eqb c LF) eqn:E; [reflexivity|].
  pose proof (split_nonempty LF s) as Hne.
  destruct (split LF s) as [|x xs]; [congruence|]. cbn [fold_left].
  rewrite (blockStep_trim _ (String c x) x); [reflexivity|].
  unfold trim. cbn [trimStart]. now rewrite Hc.
Qed.

Lemma markdownToBlocks_trimStart (s : string) :
  markdownToBlocks (trimStart s) = markdownToBlocks s.
Proof.
  induction s as [|c s IH]; [reflexivity|]. cbn [trimStart].
  destruct (isWhiteSpace c) eqn:E; [|reflexivity].
  now rewrite IH, markdownToBlocks_cons_ws.
Qed.

Lemma trimEnd_tail_ws (s : string) :
  exists tail,
    s = trimEnd s ++ tail /\ allChars isWhiteSpace tail = true.
Proof.
  induction s as [|c s (tail & E & Hws)].
  - now exists EmptyString.
  - rewrite trimEnd_cons. destruct (trimEnd s) as [|a t] eqn:Et.
    + rewrite app_nil_l in E. subst tail.
      destruct (isWhiteSpace c) eqn:Ec.
      * exists (String c s). split; [reflexivity|]. cbn. now rewrite Ec.
      * exists s. split; [reflexivity|exact Hws].
    + exists tail. split; [|exact Hws]. rewrite app_cons. now f_equal.
Qed.

Lemma markdownToBlocks_app_ws (s tail : string) :
  allChars isWhiteSpace tail = true ->
  markdownToBlocks (s ++ tail) = markdownToBlocks s.
Proof.
  revert s. induction tail as [|c tail IH]; intros s Hws.
  - now rewrite app_nil_r.
  - cbn in Hws. apply andb_prop in Hws as [Hc Hws].
    change (String c tail) with (str1 c ++ tail).
    rewrite <- app_assoc, IH by exact Hws.
    now apply markdownToBlocks_snoc_ws.
Qed.

Lemma markdownToBlocks_trim (s : string) :
  markdownToBlocks (trim s) = markdownToBlocks s.
Proof.
  unfold trim. destruct (trimEnd_tail_ws (trimStart s)) as (tail & E & Hws).
  rewrite <- (markdownToBlocks_trimStart s). rewrite E at 2.
  now rewrite markdownToBlocks_app_ws.
Qed.

Lemma fold_markdown {A} (f : A -> string) (l : list A) (acc : string) :
  fold_left (fun markdown x => markdown ++ f x) l acc
  = acc ++ fold_right (fun x rest => f x ++ rest) EmptyString l.
Proof.
  revert acc. induction l as [|x l IH]; intros acc; cbn.
  - now rewrite app_nil_r.
  - now rewrite IH, app_assoc.
Qed.

Lemma trim_plain_line (p text : string) (c : ascii) :
  isWhiteSpace c = false -> trimEnd text = text -> text <> EmptyString ->
  trim (String c p ++ text) = String c p ++ text.
Proof.
  intros Hc Ht Hne. unfold trim. rewrite app_cons. cbn [trimStart].
  rewrite Hc. change (String c (p ++ text)) with (String c p ++ text).
  now apply trimEnd_prefix.
Qed.

Lemma afterNumber_one (text : string) :
  afterNumber ("1. " ++ text) = Some text.
Proof.
  assert (H : (S (S (String.length text))
               <? S (S (S (String.length text))))%nat = true)
    by (apply Nat.ltb_lt; lia).
  change ("1. " ++ text) with (String "1" (String "." (String " " text))).
  unfold afterNumber.
  change (skipDigits (String "1" (String "." (String " " text))))
    with (String "." (String " " text)).
  cbv zeta.
  change (startsWith ". " (String "." (String " " text))) with true.
  change (drop 2 (String "." (String " " text))) with text.
  change (String.length (String "." (String " " text)))
    with (S (S (String.length text))).
  change (String.length (String "1" (String "." (String " " text))))
    with (S (S (S (String.length text)))).
  now rewrite H.
Qed.

(** One written block, read again. *)
Lemma read_block (block : NewBlock) (blocks : list NewBlock)
  (rest : string) :
  plainBlock block ->
  fold_left blockStep
    (split LF (blockMarkdown (asStored block) ++ rest))
    (blocks, EmptyString)
  = fold_left blockStep (split LF rest)
      ((blocks ++ [block])%list, EmptyString).
Proof.
  destruct block as [t text]. unfold plainBlock. cbn [block_type block_content].
  intros (Hne & Hlf & Hend & Hpar).
  assert (Hjoin : joinPlainText [{| plain_text := text |}] = text)
    by reflexivity.
  unfold asStored. cbn [block_type block_content].
  assert (Hstep : forall p c,
            isWhiteSpace c = false -> noChar LF (String c p) = true ->
            forall rest',
              fold_left blockStep
                (split LF ((String c p ++ text) ++ String LF rest'))
                (blocks, EmptyString)
              = fold_left blockStep (split LF rest')
                  (blockStep (blocks, EmptyString) (String c p ++ text))).
  { intros p c Hc Hp rest'. rewrite split_app; [reflexivity|].
    now rewrite noChar_app, Hp, Hlf. }
  assert (Hblank : forall st rest',
            fold_left blockStep (split LF (String LF rest')) st
            = fold_left blockStep (split LF rest') (flushParagraph st)).
  { intros st rest'. cbn [split]. now rewrite Ascii.eqb_refl. }
  destruct t; unfold blockMarkdown; rewrite Hjoin.
  - (* paragraph *)
    destruct Hpar as (Hstart & H1 & H2 & H3 & H4 & H5); [reflexivity|].
    rewrite !app_assoc, !str1_app, split_app by exact Hlf.
    cbn [fold_left]. rewrite Hblank. f_equal.
    unfold blockStep. cbv zeta.
    assert (Htrim : trim text = text)
      by (unfold trim; now rewrite Hstart, Hend).
    rewrite Htrim, H1, H2, H3, H4, H5.
    destruct text as [|c text]; [contradiction|]. reflexivity.
  - (* heading_1 *)
    rewrite !app_assoc, !str1_app.
    change ("# " ++ text ++ String LF (String LF rest))
      with (("# " ++ text) ++ String LF (String LF rest)).
    rewrite (Hstep " " "#"%char eq_refl eq_refl), Hblank. f_equal.
    unfold blockStep. cbv zeta.
    rewrite (trim_plain_line " " text "#"%char eq_refl Hend Hne).
    destruct text as [|c text]; [contradiction|]. reflexivity.
  - (* heading_2 *)
    rewrite !app_assoc, !str1_app.
    change ("## " ++ text ++ String LF (String LF rest))
      with (("## " ++ text) ++ String LF (String LF rest)).
    rewrite (Hstep "# " "#"%char eq_refl eq_refl), Hblank. f_equal.
    unfold blockStep. cbv zeta.
    rewrite (trim_plain_line "# " text "#"%char eq_refl Hend Hne).
    destruct text as [|c text]; [contradiction|]. reflexivity.
  - (* heading_3 *)
    rewrite !app_assoc, !str1_app.
    change ("### " ++ text ++ String LF (String LF rest))
      with (("### " ++ text) ++ String LF (String LF rest)).
    rewrite (Hstep "## " "#"%char eq_refl eq_refl), Hblank. f_equal.
    unfold blockStep. cbv zeta.
    rewrite (trim_plain_line "## " text "#"%char eq_refl Hend Hne).
    destruct text as [|c text]; [contradiction|]. reflexivity.
  - (* bulleted_list_item *)
    rewrite !app_assoc, !str1_app.
    change ("- " ++ text ++ String LF rest)
      with (("- " ++ text) ++ String LF rest).
    rewrite (Hstep " " "-"%char eq_refl eq_refl). f_equal.
    unfold blockStep. cbv zeta.
    rewrite (trim_plain_line " " text "-"%char eq_refl Hend Hne).
    destruct text as [|c text]; [contradiction|]. reflexivity.
  - (* numbered_list_item *)
    rewrite !app_assoc, !str1_app.
    change ("1. " ++ text ++ String LF rest)
      with (("1. " ++ text) ++ String LF rest).
    rewrite (Hstep ". " "1"%char eq_refl eq_refl). f_equal.
    unfold blockStep. cbv zeta.
    rewrite (trim_plain_line ". " text "1"%char eq_refl Hend Hne).
    rewrite afterNumber_one.
    destruct text as [|c text]; [contradiction|]. reflexivity.
Qed.

(** X18. Blocks survive the markdown they are turned into. A list of
    blocks whose texts are plain (one line, not empty, no white space at
    the end; for a paragraph, no white space in front and nothing that
    marks a heading or a list item) is built again, block by block and
    in the same order, by [markdownToBlocks] from the markdown that
    [blocksToMarkdown] makes of the blocks as they are stored. *)
Theorem blocks_round_trip (blocks : list NewBlock) :
  List.Forall plainBlock blocks ->
  markdownToBlocks (blocksToMarkdown (List.map asStored blocks)) = blocks.
Proof.
  intros Hplain. unfold blocksToMarkdown.
  rewrite markdownToBlocks_trim, fold_markdown, app_nil_l.
  unfold markdownToBlocks.
  assert (H : forall acc,
             fold_left blockStep
               (split LF
                  (fold_right (fun x rest => blockMarkdown x ++ rest)
                     EmptyString (List.map asStored blocks)))
               (acc, EmptyString)
             = ((acc ++ blocks)%list, EmptyString)).
  { induction Hplain as [|b bs Hb _ IH]; intros acc.
    - cbn. now rewrite List.app_nil_r.
    - cbn [List.map fold_right]. rewrite read_block by exact Hb.
      rewrite IH, <- List.app_assoc. reflexivity. }
  now rewrite H.
Qed.

(** ** The editor of the field mappings *)

Lemma trim_idem (s : string) : trim (trim s) = trim s.
Proof.
  unfold trim.
  rewrite (trimStart_trimEnd (trimStart s) (trimStart_idem s)).
  apply trimEnd_idem.
Qed.

Lemma filter_keys (k : string) (mappings : list FieldMapping) :
  List.NoDup (List.map notionProperty mappings) ->
  List.NoDup
    (List.map notionProperty
       (List.filter (fun m => negb (String.eqb (notionProperty m) k))
          mappings))
  /\ ~ In k (List.map notionProperty
               (List.filter (fun m => negb (String.eqb (notionProperty m) k))
                  mappings)).
Proof.
  induction mappings as [|m ms IH]; cbn.
  - intros _. split; [constructor|tauto].
  - intros [Hm Hnd]%List.NoDup_cons_iff. destruct (IH Hnd) as [IH1 IH2].
    destruct (String.eqb_spec (notionProperty m) k) as [E|E]; cbn;
      [auto|].
    split.
    + constructor; [|exact IH1]. intros Hin. apply Hm.
      apply in_map_iff in Hin as (m' & <- & Hin').
      apply List.filter_In in Hin' as [Hin' _]. now apply in_map.
    + intros [?|?]; [congruence|contradiction].
Qed.

(** X19. The editor of the field mappings keeps the Notion properties of
    its list distinct, and every Obsidian property trimmed and not
    blank: whatever the sequence of [updateMapping] and [removeMapping]
    that built the list, no two mappings have the same Notion property;
    an update with a blank Obsidian property removes the mapping of that
    Notion property. *)
Theorem editMappings_invariant (edits : list MappingEdit) :
  List.NoDup (List.map notionProperty (editMappings edits))
  /\ List.Forall
       (fun m => trim (obsidianProperty m) = obsidianProperty m
                 /\ obsidianProperty m <> EmptyString)
       (editMappings edits)
  /\ forall mapping,
       trim (obsidianProperty mapping) = EmptyString ->
       ~ In (notionProperty mapping)
           (List.map notionProperty
              (updateMapping (editMappings edits) mapping)).
Proof.
  unfold editMappings.
  assert (H : forall ms,
             List.NoDup (List.map notionProperty ms) ->
             List.Forall
               (fun m => trim (obsidianProperty m) = obsidianProperty m
                         /\ obsidianProperty m <> EmptyString) ms ->
             let ms' :=
               fold_left
                 (fun mappings edit =>
                    match edit with
                    | UpdateMapping mapping => updateMapping mappings mapping
                    | RemoveMapping k => removeMapping mappings k
                    end) edits ms in
             List.NoDup (List.map notionProperty ms')
             /\ List.Forall
                  (fun m => trim (obsidianProperty m) = obsidianProperty m
                            /\ obsidianProperty m <> EmptyString) ms').
  { induction edits as [|e edits IH]; intros ms Hnd Hobs; cbn [fold_left];
      [auto|].
    apply IH.
    - destruct e as [mapping|k]; [|now apply filter_keys].
      unfold updateMapping. cbv zeta.
      destruct (filter_keys (notionProperty mapping) ms Hnd) as [H1 H2].
      destruct (negb _); [|exact H1].
      rewrite List.map_app. cbn [List.map notionProperty].
      apply List.NoDup_app.
      + exact H1.
      + constructor; [intros []|constructor].
      + intros k Hk [<-|[]]. contradiction.
    - assert (Hf : forall k,
                List.Forall
                  (fun m => trim (obsidianProperty m) = obsidianProperty m
                            /\ obsidianProperty m <> EmptyString)
                  (List.filter
                     (fun m => negb (String.eqb (notionProperty m) k)) ms)).
      { intros k. rewrite List.Forall_forall in *. intros m Hm.
        apply List.filter_In in Hm as [Hm _]. auto. }
      destruct e as [mapping|k]; [|apply Hf].
      unfold updateMapping. cbv zeta.
      destruct (isEmpty (trim (obsidianProperty mapping))) eqn:E;
        cbn [negb]; [apply Hf|].
      apply List.Forall_app. split; [apply Hf|].
      constructor; [|constructor]. cbn. split; [apply trim_idem|].
      intros E'. rewrite E' in E. discriminate. }
  destruct (H [] (List.NoDup_nil _) (List.Forall_nil _)) as [H1 H2].
  split; [exact H1|]. split; [exact H2|].
  intros mapping Hblank. unfold updateMapping. cbv zeta.
  rewrite Hblank. cbn [isEmpty negb]. now apply filter_keys.
Qed.

(** ** The first push of a note *)

Lemma findPath_writeFile (p q : string) (now : Z) (text : string)
  (t : TAbstractFile) :
  findPath p (writeFile q now text t) = writeFile q now text <$> findPath p t.
Proof.
  induction t as [r m d|r cs IH] using TAbstractFile_nested_ind.
  - cbn [writeFile]. destruct (String.eqb r q) eqn:E.
    + cbn [findPath path_of]. destruct (String.eqb r p); [|reflexivity].
      cbn. now rewrite E.
    + cbn [findPath path_of]. destruct (String.eqb r p); [|reflexivity].
      cbn. now rewrite E.
  - cbn [writeFile findPath path_of].
    destruct (String.eqb r p); [reflexivity|].
    induction IH as [|c cs Hc _ IHcs]; [reflexivity|].
    cbn [List.map firstSome]. cbn [firstSome] in IHcs. rewrite Hc.
    destruct (findPath p c); [reflexivity|exact IHcs].
Qed.

Lemma noChar_ofNat (c : ascii) (n : nat) :
  IntRuntime.isDigit c = false -> noChar c (ofNat n) = true.
Proof.
  intros Hc. unfold ofNat, noChar.
  assert (Hd : forall d, IntRuntime.isDigit d = true ->
                         negb (Ascii.eqb d c) = true).
  { intros d Hdigit. apply negb_true_iff.
    destruct (Ascii.eqb_spec d c) as [->|]; [congruence|reflexivity]. }
  assert (H : forall d,
             allChars (fun a => negb (Ascii.eqb a c))
               (NilEmpty.string_of_uint d) = true).
  { induction d as [|d IH|d IH|d IH|d IH|d IH|d IH|d IH|d IH|d IH|d IH];
      [reflexivity|..];
      cbn [NilEmpty.string_of_uint allChars]; rewrite IH, andb_true_r;
      now apply Hd. }
  unfold NilZero.string_of_uint.
  destruct (Nat.to_uint n); try apply H.
  cbn [allChars]. rewrite andb_true_r. now apply Hd.
Qed.

Lemma Forall_obj_set {V} (P : string * V -> Prop) (k : string) (v : V)
  (o : Obj V) :
  P (k, v) -> List.Forall P o -> List.Forall P (obj_set k v o).
Proof.
  intros Hkv. induction 1 as [|[k0 v0] o H0 Ho IH]; cbn.
  - constructor; [exact Hkv|constructor].
  - destruct (String.eqb k0 k); constructor; auto.
Qed.

Lemma obj_set_not_nil {V} (k : string) (v : V) (o : Obj V) :
  obj_set k v o <> [].
Proof. destruct o as [|[k0 v0] o]; cbn; [|destruct (String.eqb k0 k)]; discriminate. Qed.

Lemma parsed_keys (lines : list string) (acc : Obj JsValue) :
  List.NoDup (keysOf acc) ->
  List.NoDup (keysOf (fold_left parseLine lines acc)).
Proof.
  revert acc. induction lines as [|line lines IH]; intros acc Hnd;
    cbn [fold_left]; [exact Hnd|].
  apply IH. unfold parseLine.
  destruct (indexOf ":" line) as [[|c]|]; try exact Hnd.
  now apply keysOf_obj_set.
Qed.

Lemma parseMarkdownFile_keys (file : TAbstractFile) (content : string) :
  List.NoDup (keysOf (note_frontmatter (parseMarkdownFile file content))).
Proof.
  unfold parseMarkdownFile.
  destruct (matchFrontmatter content) as [[block matched]|];
    cbn [note_frontmatter]; [|constructor].
  apply parsed_keys. constructor.
Qed.

(** A document with plain front-matter, read again. *)
Lemma parse_written (frontmatter : Obj JsValue) (body : string)
  (file : TAbstractFile) :
  frontmatter <> [] ->
  List.NoDup (keysOf frontmatter) ->
  List.Forall (fun kv => plainKey kv.1 /\ plainValue kv.2) frontmatter ->
  parseMarkdownFile file (createMarkdownContent frontmatter body)
  = {| note_path := path_of file;
       note_frontmatter := frontmatter;
       note_content := str1 LF ++ body;
       note_lastModified := mtime_of file;
       note_notionId := getProp frontmatter "notionId" VUndefined |}.
Proof.
  intros Hne Hdup Hplain.
  assert (Hcs : forallb
                  (fun c => noChar LF c && negb (String.eqb c "---"))
                  (List.map lineOf frontmatter) = true).
  { clear Hne Hdup. induction Hplain as [|[k v] fm [Hk Hv] _ IH];
      [reflexivity|].
    cbn [List.map forallb]. rewrite IH, andb_true_r.
    destruct (lineOf_plain k v Hk Hv) as [-> Hd].
    apply String.eqb_neq in Hd. now rewrite Hd. }
  assert (Hne' : List.map lineOf frontmatter <> [])
    by (destruct frontmatter; [congruence|discriminate]).
  destruct (matchFrontmatter_content (List.map lineOf frontmatter)
              (str1 LF ++ body) Hne' Hcs) as [Hmatch Hrest].
  unfold parseMarkdownFile.
  rewrite content_shape by exact Hne. rewrite Hmatch, Hrest.
  rewrite split_join.
  - now rewrite parse_lines.
  - exact Hne'.
  - clear -Hcs. induction (List.map lineOf frontmatter) as [|c cs IH];
      [reflexivity|]. cbn in Hcs |- *.
    apply andb_prop in Hcs as [Hc Hcs]. apply andb_prop in Hc as [-> _].
    now rewrite IH.
Qed.

Lemma run_nextFate_fine (w : World) :
  fates w = [] -> nextFate w = (Returns Fine, w).
Proof. intros H. unfold nextFate. now rewrite H. Qed.

Lemma map_storeBlocks (n : nat) (children : list NewBlock) :
  List.map block_data (storeBlocks n children) = List.map asStored children.
Proof.
  revert n. induction children as [|c cs IH]; intros n; [reflexivity|].
  cbn. now rewrite IH.
Qed.

(** X20. The first push of a note links it. When every call goes
    through and the service has an unused identifier to give, a note of
    the vault without a page identifier, with plain front-matter that
    has no key __proto__, is pushed by [pushStep], under mappings that
    read no member of Object.prototype, as a new page of the database
    that holds its mapped properties and the blocks [markdownToBlocks]
    makes of its body, so that the page reads back as the markdown of
    those blocks; the step counts one creation, and the file of the
    note is rewritten so that reading it again gives the identifier of
    the new page: the next push updates that page and creates no
    other. *)
Theorem pushStep_links_new_note (config : SyncConfig) (counts : nat * nat)
  (path data : string) (mtime : Z) (w : World) :
  let file := TFile path mtime data in
  let note := parseMarkdownFile file data in
  let pageId := "page-" ++ ofNat (idSupply w) in
  fates w = [] ->
  pages w !! pageId = None ->
  findPath path (vault w) = Some file ->
  truthy (note_notionId note) = false ->
  List.Forall (fun kv => plainKey kv.1 /\ plainValue kv.2)
    (note_frontmatter note) ->
  List.Forall (fun kv => kv.1 <> "__proto__") (note_frontmatter note) ->
  List.Forall ordinaryMapping (fieldMappings config) ->
  noChar LF (dateToISOString (clock w)) = true ->
  exists w' text,
    pushStep config counts file w = (Returns (S counts.1, counts.2), w')
    /\ pages w' !! pageId
       = Some {| remote_parent := notionDatabaseId config;
                 remote_properties :=
                   applyUpdates
                     (convertFrontmatterToNotionProperties
                        (note_frontmatter note) config) [];
                 remote_blocks :=
                   storeBlocks (S (idSupply w))
                     (markdownToBlocks (note_content note));
                 remote_last_edited_time := dateToISOString (clock w) |}
    /\ remote_content <$> pages w' !! pageId
       = Some (blocksToMarkdown
                 (List.map asStored (markdownToBlocks (note_content note))))
    /\ findPath path (vault w') = Some (TFile path (clock w) text)
    /\ note_notionId (parseMarkdownFile (TFile path (clock w) text) text)
       = VString pageId.
Proof.
  intros file note pageId Hfates Hfresh Hfile Hnew Hplain _ _ Hstamp.
  set (fm := obj_set "lastObsidianSync" (VString (dateToISOString (clock w)))
               (obj_set "notionId" (VString pageId) (note_frontmatter note))).
  set (text := createMarkdownContent fm (note_content note)).
  set (page := {| remote_parent := notionDatabaseId config;
                  remote_properties :=
                    applyUpdates
                      (convertFrontmatterToNotionProperties
                         (note_frontmatter note) config) [];
                  remote_blocks :=
                   storeBlocks (S (idSupply w))
                     (markdownToBlocks (note_content note));
                  remote_last_edited_time := dateToISOString (clock w) |}).
  set (w1 := posted (notionDatabaseId config)
               (convertFrontmatterToNotionProperties
                  (note_frontmatter note) config)
               (markdownToBlocks (note_content note)) w).
  set (w2 := set_vault (writeFile path (clock w) text (vault w1)) w1).
  exists w2, text.
  assert (Hread : vault_read file w = (Returns data, w)).
  { unfold vault_read. rewrite run_bind, run_nextFate_fine by exact Hfates.
    rewrite run_bind. cbn [getWorld]. cbn [path_of file]. now rewrite Hfile. }
  assert (Hcreate : createPage (notionDatabaseId config)
                      (convertFrontmatterToNotionProperties
                         (note_frontmatter note) config)
                      (note_content note) w
                    = (Returns pageId, w1)).
  { unfold createPage. rewrite run_bind, run_nextFate_fine by exact Hfates.
    unfold postPage. fold pageId in Hfresh |- *.
    change (newPageId w) with pageId. now rewrite Hfresh. }
  assert (Hmodify : vault_modify file text w1 = (Returns tt, w2)).
  { unfold vault_modify. rewrite run_bind, run_nextFate_fine by exact Hfates.
    rewrite run_bind. cbn [getWorld]. cbn [path_of file].
    change (vault w1) with (vault w). rewrite Hfile. reflexivity. }
  split.
  { unfold pushStep. rewrite run_tryCatch, run_bind, Hread. cbv zeta.
    fold file. fold note. rewrite Hnew, run_bind, Hcreate.
    unfold Date_now. rewrite !run_bind. cbn [getWorld]. rewrite run_ret.
    change (clock w1) with (clock w). fold pageId. fold fm. fold text.
    rewrite run_bind, Hmodify. reflexivity. }
  split; [apply lookup_insert_eq|].
  split.
  { change (pages w2) with (<[pageId := page]> (pages w)).
    rewrite lookup_insert_eq. cbn [fmap option_fmap option_map].
    unfold remote_content, page. cbn [remote_blocks].
    now rewrite map_storeBlocks. }
  split.
  { cbn [w2 set_vault vault]. change (vault w1) with (vault w).
    rewrite findPath_writeFile, Hfile. cbn. now rewrite String.eqb_refl. }
  assert (Hfm : List.Forall (fun kv => plainKey kv.1 /\ plainValue kv.2) fm).
  { apply Forall_obj_set.
    - split; [|exact Hstamp]. repeat split; try reflexivity. discriminate.
    - apply Forall_obj_set; [|exact Hplain].
      split; [repeat split; try reflexivity; discriminate|].
      cbn [snd plainValue]. unfold pageId.
      change ("page-" ++ ofNat (idSupply w))
        with (String "p" (String "a" (String "g" (String "e"
               (String "-" (ofNat (idSupply w))))))).
      unfold noChar. cbn [allChars].
      change (allChars _ (ofNat (idSupply w)))
        with (noChar LF (ofNat (idSupply w))).
      now rewrite noChar_ofNat. }
  subst text. rewrite parse_written.
  - cbn [note_notionId]. unfold getProp, fm.
    rewrite obj_get_set_ne by discriminate. now rewrite obj_get_set_eq.
  - apply obj_set_not_nil.
  - repeat apply keysOf_obj_set. apply parseMarkdownFile_keys.
  - exact Hfm.
Qed.

(** ** The validation of the token *)

(** X21. [validateToken] accepts a token exactly when it has at least
    ten code units and the search request returns. A shorter token is
    refused whatever the request would answer. An error whose message
    mentions fetch is reported as a network error before any status is
    looked at, so that the answer of the last test of the chain, the
    one for a TypeError, is never given. *)
Theorem validateToken_verdicts (token : string) (request : option JsError) :
  (valid (validateToken token request) = true
   <-> 10 <= String.length token /\ request = None)
  /\ (String.length token < 10 ->
      validateToken token request = validateToken token None)
  /\ (forall error,
        includes "fetch" (error_message error) = true ->
        10 <= String.length token ->
        message (validateToken token (Some error))
        = "Network error: Cannot connect to Notion API. "
            ++ "Check your internet connection.")
  /\ message (validateToken token request)
     <> "Network connection failed - check if you can access notion.com".
Proof.
  unfold validateToken. split; [|split; [|split]].
  - destruct token as [|c t]; cbn [isEmpty];
      [cbn; split; [discriminate|lia]|].
    destruct (Nat.ltb_spec (String.length (String c t)) 10).
    + cbn [valid]. split; [discriminate|lia].
    + destruct request; cbn [valid]; split; try discriminate; auto.
      intros [_ [=]].
  - intros Hshort. destruct (isEmpty token); [reflexivity|].
    destruct (Nat.ltb_spec (String.length token) 10); [reflexivity|lia].
  - intros error Hfetch Hlong.
    destruct token as [|c t]; cbn [isEmpty]; [cbn in Hlong; lia|].
    destruct (Nat.ltb_spec (String.length (String c t)) 10); [lia|].
    cbn [message]. unfold tokenErrorMessage. cbv zeta.
    now rewrite Hfetch, orb_true_r.
  - destruct (isEmpty token); [discriminate|].
    destruct (String.length token <? 10)%nat; [discriminate|].
    destruct request as [error|]; [|discriminate].
    cbn [message]. unfold tokenErrorMessage. cbv zeta.
    destruct (includes "fetch" (error_message error)) eqn:Hfetch.
    + rewrite orb_true_r. discriminate.
    + rewrite orb_false_r, andb_false_r.
      repeat (match goal with
              | |- context [if ?b then _ else _] => destruct b
              end; try discriminate).
Qed.

(** ** What a pull leaves in the vault *)

Lemma findPath_self (p : string) (node : TAbstractFile) :
  path_of node = p -> findPath p node = Some node.
Proof.
  intros <-. destruct node; cbn [findPath path_of];
    now rewrite String.eqb_refl.
Qed.

Lemma findPath_path_of (p : string) (t f : TAbstractFile) :
  findPath p t = Some f -> path_of f = p.
Proof.
  induction t as [q m d|q cs IH] using TAbstractFile_nested_ind;
    cbn [findPath path_of].
  - destruct (String.eqb_spec q p) as [->|]; [|discriminate].
    now intros [= <-].
  - destruct (String.eqb_spec q p) as [->|]; [now intros [= <-]|].
    induction IH as [|c cs Hc _ IHcs]; cbn [firstSome]; [discriminate|].
    destruct (findPath p c); [exact Hc|exact IHcs].
Qed.

Lemma insertChild_absent (parent : string) (node t : TAbstractFile) :
  findPath parent t = None -> insertChild parent node t = t.
Proof.
  induction t as [q m d|q cs IH] using TAbstractFile_nested_ind;
    cbn [findPath insertChild path_of]; [reflexivity|].
  destruct (String.eqb q parent); [discriminate|].
  intros Hnone. f_equal.
  induction IH as [|c cs Hc _ IHcs]; [reflexivity|].
  cbn [firstSome] in Hnone. cbn [List.map].
  destruct (findPath parent c); [discriminate|].
  now rewrite Hc, IHcs.
Qed.

Lemma findPath_insertChild (p parent : string) (node t : TAbstractFile)
  (d : string) (children : list TAbstractFile) :
  path_of node = p ->
  findPath p t = None ->
  findPath parent t = Some (TFolder d children) ->
  findPath p (insertChild parent node t) = Some node.
Proof.
  intros Hnode.
  induction t as [q m text|q cs IH] using TAbstractFile_nested_ind;
    cbn [findPath insertChild path_of].
  - destruct (String.eqb q p); [discriminate|].
    destruct (String.eqb q parent); discriminate.
  - destruct (String.eqb q p) eqn:Ep; [discriminate|].
    destruct (String.eqb q parent).
    + intros Hnone _. cbn [findPath path_of]. rewrite Ep.
      clear IH. induction cs as [|c cs IHcs]; cbn [firstSome List.app].
      * now rewrite (findPath_self p node Hnode).
      * cbn [firstSome] in Hnone.
        destruct (findPath p c); [discriminate|auto].
    + intros Hnone Hparent. cbn [findPath path_of]. rewrite Ep.
      induction IH as [|c cs Hc _ IHcs]; [discriminate|].
      cbn [firstSome] in Hnone, Hparent. cbn [List.map firstSome].
      destruct (findPath p c) eqn:Ec; [discriminate|].
      destruct (findPath parent c) as [f|] eqn:Ef.
      * now rewrite Hc.
      * rewrite (insertChild_absent parent node c Ef), Ec. auto.
Qed.

Lemma run_vault_create (p text : string) (f : TAbstractFile) (w w' : World) :
  vault_create p text w = (Returns f, w') ->
  findPath p (vault w) = None
  /\ findPath p (vault w') = Some (TFile p (clock w) text).
Proof.
  unfold vault_create. rewrite run_bind.
  destruct (run_nextFate w) as (w0 & -> & _ & Hv & _ & _ & _ & _ & Hc).
  assert (Hgo : (w1 ← getWorld;
                 match findPath p (vault w1),
                       findPath (parentPath p) (vault w1) with
                 | Some _, _ => throw "File already exists."
                 | None, Some (TFolder _ _) =>
                     let file := TFile p (clock w1) text in
                     vault_insert (parentPath p) file;;
                     mret file
                 | None, _ => throw "ENOENT: no such file or directory"
                 end) w0 = (Returns f, w') ->
                findPath p (vault w) = None
                /\ findPath p (vault w') = Some (TFile p (clock w) text)).
  { rewrite run_bind. cbn [getWorld]. rewrite Hv, Hc.
    destruct (findPath p (vault w)) eqn:Ep; [discriminate|].
    destruct (findPath (parentPath p) (vault w)) as [[|d cs]|] eqn:Ed;
      try discriminate.
    cbv zeta. rewrite run_bind. unfold vault_insert, modifyWorld.
    rewrite run_ret. intros [= _ <-]. split; [reflexivity|].
    cbn [vault set_vault]. rewrite Hv.
    now apply (findPath_insertChild p (parentPath p) _ _ d cs). }
  destruct (hd Fine (fates w)); [exact Hgo|discriminate|exact Hgo].
Qed.

Lemma run_vault_modify (file : TAbstractFile) (text : string)
  (w w' : World) :
  vault_modify file text w = (Returns tt, w') ->
  findPath (path_of file) (vault w) <> None
  /\ findPath (path_of file) (vault w')
     = Some (TFile (path_of file) (clock w) text).
Proof.
  unfold vault_modify. rewrite run_bind.
  destruct (run_nextFate w) as (w0 & -> & _ & Hv & _ & _ & _ & _ & Hc).
  destruct file as [p m d|p cs];
    [|destruct (hd Fine (fates w)); discriminate].
  cbn [path_of].
  destruct (hd Fine (fates w)); [|discriminate|];
    (rewrite run_bind; cbn [getWorld]; rewrite Hv, Hc;
     destruct (findPath p (vault w)) as [[q m' d'|q cs]|] eqn:Ep;
       try discriminate;
     unfold vault_write, modifyWorld; intros [= <-];
     split; [discriminate|]; cbn [vault set_vault];
     rewrite Hv, findPath_writeFile, Ep; cbn [fmap option_fmap option_map];
     pose proof (findPath_path_of _ _ _ Ep) as Hq; cbn [path_of] in Hq;
     subst q; cbn [writeFile]; now rewrite String.eqb_refl).
Qed.

Lemma autoLoop_keys (properties : Obj NotionProp)
  (frontmatter : Obj JsValue) (w : World) :
  List.NoDup (keysOf frontmatter) ->
  exists frontmatter' w',
    forOf properties frontmatter autoStep w = (Returns frontmatter', w')
    /\ List.NoDup (keysOf frontmatter').
Proof.
  revert frontmatter w.
  induction properties as [|entry properties IH]; intros frontmatter w Hnd.
  - exists frontmatter, w. split; [reflexivity|exact Hnd].
  - cbn [forOf]. rewrite run_bind.
    destruct (run_autoStep frontmatter entry w) as (v & w1 & -> & _).
    apply IH. unfold obj_assign.
    destruct (String.eqb (frontmatterKey entry.1) "__proto__");
      [exact Hnd|].
    now apply keysOf_obj_set.
Qed.

Lemma mappedLoop_keys (properties : Obj NotionProp)
  (mappings : list FieldMapping) (frontmatter : Obj JsValue) (w : World) :
  List.NoDup (keysOf frontmatter) ->
  exists frontmatter' w',
    forOf mappings frontmatter (mappedStep properties) w
    = (Returns frontmatter', w')
    /\ List.NoDup (keysOf frontmatter').
Proof.
  revert frontmatter w.
  induction mappings as [|m ms IH]; intros frontmatter w Hnd.
  - exists frontmatter, w. split; [reflexivity|exact Hnd].
  - cbn [forOf]. rewrite run_bind.
    destruct (run_mappedStep properties frontmatter m w)
      as (fm1 & w1 & -> & Hstep).
    apply IH. destruct Hstep as [->|(value & _ & _ & ->)]; [exact Hnd|].
    now apply keysOf_obj_set.
Qed.

Lemma conversion_keys (properties : Obj NotionProp) (config : SyncConfig)
  (w : World) :
  exists frontmatter w',
    convertNotionPropertiesToFrontmatter properties config w
    = (Returns frontmatter, w')
    /\ List.NoDup (keysOf frontmatter).
Proof.
  unfold convertNotionPropertiesToFrontmatter.
  destruct (fieldMappings config) as [|m ms].
  - apply autoLoop_keys. constructor.
  - apply mappedLoop_keys. constructor.
Qed.

(** The document of a page is the front-matter of its properties, with
    the identifier of the page and the stamp of the pull, over its
    content. *)
Lemma run_documentOfPage (page : NotionPage) (config : SyncConfig)
  (content : string) (w w1 : World) :
  documentOfPage page config w = (Returns content, w1) ->
  exists frontmatter,
    content = createMarkdownContent frontmatter (page_content page)
    /\ frontmatter <> []
    /\ List.NoDup (keysOf frontmatter)
    /\ getProp frontmatter "notionId" VUndefined = VString (page_id page).
Proof.
  unfold documentOfPage. rewrite run_bind.
  destruct (conversion_keys (page_properties page) config w)
    as (fm & w0 & -> & Hnd).
  cbv zeta. rewrite run_bind. unfold toISOString.
  destruct (dateParse (page_lastModified page)) as [t|]; [|discriminate].
  rewrite !run_ret. intros [= <- _].
  eexists. split; [reflexivity|]. split; [apply obj_set_not_nil|].
  split; [now apply keysOf_obj_set, keysOf_obj_set|].
  unfold getProp. rewrite obj_get_set_ne by discriminate.
  now rewrite obj_get_set_eq.
Qed.

(** A turn of the pull that returns has put the document of the page at
    the path of its name. *)
Lemma run_pullPage (page : NotionPage) (config : SyncConfig)
  (created : bool) (w w' : World) :
  pullPage page config w = (Returns created, w') ->
  exists content w1 mtime,
    documentOfPage page config w = (Returns content, w1)
    /\ findPath (filePathOf config (getFileNameFromPage page config))
         (vault w')
       = Some (TFile (filePathOf config (getFileNameFromPage page config))
                 mtime content)
    /\ (created = true
        <-> findPath (filePathOf config (getFileNameFromPage page config))
              (vault w) = None).
Proof.
  unfold pullPage. cbv zeta. rewrite run_bind.
  pose proof (preserved (R := sameStores)
                (m := documentOfPage page config) w) as (Hv & _).
  destruct (documentOfPage page config w) as [[content|e] w1];
    [|discriminate].
  cbn [snd] in Hv. rewrite run_bind.
  assert (Hget : forall p w0,
             getAbstractFileByPath p w0
             = (Returns (findPath p (vault w0)), w0)) by reflexivity.
  rewrite Hget, Hv.
  destruct (findPath (filePathOf config (getFileNameFromPage page config))
              (vault w)) as [file|] eqn:Ep; rewrite run_bind.
  - destruct (vault_modify file content w1) as [[[]|e] w2] eqn:Em;
      [|discriminate].
    rewrite run_ret. intros [= <- <-].
    apply run_vault_modify in Em as [_ Hfile].
    rewrite (findPath_path_of _ _ _ Ep) in Hfile.
    exists content, w1, (clock w1). split; [reflexivity|].
    split; [exact Hfile|]. split; discriminate.
  - destruct (vault_create _ content w1) as [[f|e] w2] eqn:Ec;
      [|discriminate].
    rewrite run_ret. intros [= <- <-].
    apply run_vault_create in Ec as [_ Hfile].
    exists content, w1, (clock w1). split; [reflexivity|].
    split; [exact Hfile|]. split; reflexivity.
Qed.

(** X22. A pull links the file it writes to its page. When the turn of
    the pull for a page returns, the file at the path of the name of the
    page holds the document of the page, whose front-matter carries the
    identifier of the page under notionId; the turn created the file
    exactly when no file or folder was at that path before. When the
    front-matter is plain, reading the file again gives that
    front-matter, the content of the page after one line feed, and the
    identifier of the page as the identifier of the note. *)
Theorem pullPage_stores_document (page : NotionPage) (config : SyncConfig)
  (created : bool) (w w' : World) :
  let path := filePathOf config (getFileNameFromPage page config) in
  pullPage page config w = (Returns created, w') ->
  exists frontmatter mtime,
    let content := createMarkdownContent frontmatter (page_content page) in
    (documentOfPage page config w).1 = Returns content
    /\ getProp frontmatter "notionId" VUndefined = VString (page_id page)
    /\ findPath path (vault w') = Some (TFile path mtime content)
    /\ (created = true <-> findPath path (vault w) = None)
    /\ (List.Forall (fun kv => plainKey kv.1 /\ plainValue kv.2)
          frontmatter ->
        parseMarkdownFile (TFile path mtime content) content
        = {| note_path := path;
             note_frontmatter := frontmatter;
             note_content := str1 LF ++ page_content page;
             note_lastModified := mtime;
             note_notionId := VString (page_id page) |}).
Proof.
  intros path Hrun.
  destruct (run_pullPage page config created w w' Hrun)
    as (content & w1 & mtime & Hdoc & Hfile & Hcreated).
  destruct (run_documentOfPage page config content w w1 Hdoc)
    as (frontmatter & -> & Hsome & Hnd & Hid).
  exists frontmatter, mtime. cbv zeta. rewrite Hdoc.
  split; [reflexivity|]. split; [exact Hid|]. split; [exact Hfile|].
  split; [exact Hcreated|].
  intros Hplain. rewrite parse_written by assumption.
  cbn [path_of mtime_of]. now rewrite Hid.
Qed.

(** X23. Two pages of one name share one file. When the names derived
    for two pages are the same and the turns of the pull for the first
    and then the second both return, the second turn is counted as an
    update and the file at the path of that name holds the document of
    the second page: the document of the first page is overwritten. *)
Theorem pull_same_name_overwrites (page1 page2 : NotionPage)
  (config : SyncConfig) (created1 created2 : bool) (w w1 w2 : World) :
  let path := filePathOf config (getFileNameFromPage page2 config) in
  getFileNameFromPage page1 config = getFileNameFromPage page2 config ->
  pullPage page1 config w = (Returns created1, w1) ->
  pullPage page2 config w1 = (Returns created2, w2) ->
  created2 = false
  /\ exists content mtime,
       (documentOfPage page2 config w1).1 = Returns content
       /\ findPath path (vault w2) = Some (TFile path mtime content).
Proof.
  intros path Hname Hrun1 Hrun2.
  destruct (run_pullPage page1 config created1 w w1 Hrun1)
    as (content1 & w0 & mtime1 & _ & Hfile1 & _).
  destruct (run_pullPage page2 config created2 w1 w2 Hrun2)
    as (content2 & w3 & mtime2 & Hdoc & Hfile2 & Hcreated).
  rewrite Hname in Hfile1. split.
  - destruct created2; [|reflexivity].
    destruct Hcreated as [Hnone _]. rewrite Hnone in Hfile1 by reflexivity.
    discriminate.
  - exists content2, mtime2. rewrite Hdoc. split; [reflexivity|exact Hfile2].
Qed.

(** ** What a run can delete (C8) *)

Lemma blocksWithId_spec (blockId : string) (remote : gmap string RemotePage)
  (block : RemoteBlock) :
  In block (blocksWithId blockId remote)
  <-> block_id block = blockId
      /\ exists j p, remote !! j = Some p /\ In block (remote_blocks p).
Proof.
  unfold blocksWithId. rewrite List.filter_In, in_flat_map. split.
  - intros [([j p] & Hjp & Hin) Hid]. apply String.eqb_eq in Hid.
    split; [exact Hid|]. exists j, p. split; [|exact Hin].
    now apply elem_of_map_to_list, list_elem_of_In.
  - intros (Hid & j & p & Hjp & Hin). split.
    + exists (j, p). split; [|exact Hin].
      now apply list_elem_of_In, elem_of_map_to_list.
    + now apply String.eqb_eq.
Qed.

Lemma childPage_mono (remote remote' : gmap string RemotePage) :
  within remote remote' ->
  forall i, childPage remote' i -> childPage remote i.
Proof.
  intros Hsub i (j & p' & block & Hj & Hin & Hchild & Hid).
  destruct (Hsub j p' Hj) as (p & Hp & _ & Hblocks).
  exists j, p, block. repeat split; auto.
  apply Hblocks; [exact Hin|]. now rewrite Hchild.
Qed.

Lemma childDatabase_mono (remote remote' : gmap string RemotePage) :
  within remote remote' ->
  forall d, childDatabase remote' d -> childDatabase remote d.
Proof.
  intros Hsub i (j & p' & block & Hj & Hin & Hchild & Hid).
  destruct (Hsub j p' Hj) as (p & Hp & _ & Hblocks).
  exists j, p, block. repeat split; auto.
  apply Hblocks; [exact Hin|]. rewrite Hchild. apply orb_true_r.
Qed.

Lemma storeBlocks_not_child (n : nat) (children : list NewBlock)
  (block : RemoteBlock) :
  In block (storeBlocks n children) ->
  isChildPage block || isChildDatabase block = false.
Proof.
  revert n. induction children as [|c cs IH]; intros n; cbn; [tauto|].
  intros [<-|Hin]; [reflexivity|eauto].
Qed.

Lemma within_alter (f : RemotePage -> RemotePage) (pageId : string)
  (remote : gmap string RemotePage) :
  (forall p, remote_parent (f p) = remote_parent p
             /\ forall block, In block (remote_blocks (f p)) ->
                  isChildPage block || isChildDatabase block = true ->
                  In block (remote_blocks p)) ->
  within remote (alter f pageId remote).
Proof.
  intros Hf j p' Hj. destruct (String.eqb_spec pageId j) as [E|Hne].
  - rewrite E, lookup_alter_eq in Hj.
    destruct (remote !! j) as [p|]; [|discriminate].
    injection Hj as <-. exists p. split; [reflexivity|apply Hf].
  - rewrite lookup_alter_ne in Hj by exact Hne. exists p'. auto.
Qed.

Lemma kept_alter (f : RemotePage -> RemotePage) (pageId i : string)
  (remote : gmap string RemotePage) (p : RemotePage) :
  (forall q, remote_parent (f q) = remote_parent q) ->
  remote !! i = Some p ->
  exists p', alter f pageId remote !! i = Some p'
             /\ remote_parent p' = remote_parent p.
Proof.
  intros Hf Hi. destruct (String.eqb_spec pageId i) as [E|Hne].
  - rewrite E, lookup_alter_eq, Hi. eexists. split; [reflexivity|apply Hf].
  - rewrite lookup_alter_ne by exact Hne. eauto.
Qed.

#[local] Instance onlyNestedLost_tolerates : Tolerates onlyNestedLost.
Proof.
  split; unfold onlyNestedLost.
  - intros w. repeat split; eauto.
  - intros w1 w2 w3 (F1 & P1 & R1 & C1 & D1) (F2 & P2 & R2 & C2 & D2).
    repeat split; [auto|auto| |auto|auto].
    intros i p Hi. destruct (R1 i p Hi) as [(p2 & H2 & E2)|H2]; [|auto].
    destruct (R2 i p2 H2) as [(p3 & H3 & E3)|[Hc|(q & Hq & Hd)]].
    + left. exists p3. split; [exact H3|congruence].
    + right. left. auto.
    + right. right. exists p. split; [exact Hi|].
      apply D1. congruence.
  - intros w c. cbn. repeat split; eauto.
  - intros w fs. cbn. repeat split; eauto.
Qed.

#[local] Instance onlyNestedLost_writes : ToleratesWrites onlyNestedLost.
Proof.
  split; [apply _|..]; unfold onlyNestedLost.
  - intros w parent node. cbn. repeat split; [| |eauto|auto|auto].
    + intros p. apply filePaths_insertChild.
    + intros p. rewrite !findPath_allPaths. apply allPaths_insertChild.
  - intros w p now text. cbn. repeat split; [| |eauto|auto|auto].
    + intros q. now rewrite filePaths_writeFile.
    + intros q. now rewrite !findPath_allPaths, allPaths_writeFile.
  - intros w pageId properties. unfold patched.
    cbn [vault pages set_pages].
    assert (Hsub : within (pages w)
              (alter
                 (fun p =>
                    {| remote_parent := remote_parent p;
                       remote_properties :=
                         applyUpdates properties (remote_properties p);
                       remote_blocks := remote_blocks p;
                       remote_last_edited_time :=
                         dateToISOString (clock w) |})
                 pageId (pages w)))
      by (apply within_alter; intros p; cbn; auto).
    repeat split; [auto|auto| | |].
    + intros i p Hi. left. now apply kept_alter.
    + now apply childPage_mono.
    + now apply childDatabase_mono.
  - intros w blockId. unfold archived. cbn [vault pages set_pages].
    set (found := blocksWithId blockId (pages w)).
    set (remote1 := withoutBlock blockId <$> pages w).
    set (remote2 := if existsb isChildPage found
                    then delete blockId remote1 else remote1).
    set (remote3 := if existsb isChildDatabase found
                    then filter
                           (fun ip : string * RemotePage =>
                              remote_parent ip.2 <> blockId) remote2
                    else remote2).
    assert (H32 : forall j p', remote3 !! j = Some p' ->
                               remote2 !! j = Some p').
    { intros j p' Hj. subst remote3.
      destruct (existsb isChildDatabase found); [|exact Hj].
      now apply map_lookup_filter_Some in Hj. }
    assert (H21 : forall j p', remote2 !! j = Some p' ->
                               remote1 !! j = Some p').
    { intros j p' Hj. subst remote2.
      destruct (existsb isChildPage found); [|exact Hj].
      apply lookup_delete_Some in Hj. tauto. }
    assert (Hsub : within (pages w) remote3).
    { intros j p' Hj. apply H32, H21 in Hj. subst remote1.
      rewrite lookup_fmap in Hj.
      destruct (pages w !! j) as [p|]; [|discriminate].
      injection Hj as <-. exists p. split; [reflexivity|].
      split; [reflexivity|].
      intros block Hin _. cbn in Hin. now apply List.filter_In in Hin. }
    repeat split; [auto|auto| | |].
    + intros i p Hi.
      assert (H1 : remote1 !! i = Some (withoutBlock blockId p))
        by (subst remote1; now rewrite lookup_fmap, Hi).
      destruct (existsb isChildPage found) eqn:Hchild.
      * destruct (String.eqb_spec blockId i) as [E|Hne].
        { right. left.
          apply existsb_exists in Hchild as (block & Hin & Hc).
          apply blocksWithId_spec in Hin as (Hid & j & q & Hj & Hin).
          exists j, q, block. repeat split; auto. congruence. }
        assert (H2 : remote2 !! i = Some (withoutBlock blockId p))
          by (subst remote2; now rewrite lookup_delete_ne).
        clearbody remote2.
        destruct (existsb isChildDatabase found) eqn:Hdb.
        { destruct (String.eqb_spec (remote_parent p) blockId) as [E|Hp].
          - right. right. exists p. split; [exact Hi|].
            apply existsb_exists in Hdb as (block & Hin & Hc).
            apply blocksWithId_spec in Hin as (Hid & j & q & Hj & Hin).
            exists j, q, block. repeat split; auto. congruence.
          - left. exists (withoutBlock blockId p). split; [|reflexivity].
            subst remote3. now apply map_lookup_filter_Some. }
        left. exists (withoutBlock blockId p). now split.
      * assert (H2 : remote2 !! i = Some (withoutBlock blockId p))
          by exact H1.
        clearbody remote2.
        destruct (existsb isChildDatabase found) eqn:Hdb.
        { destruct (String.eqb_spec (remote_parent p) blockId) as [E|Hp].
          - right. right. exists p. split; [exact Hi|].
            apply existsb_exists in Hdb as (block & Hin & Hc).
            apply blocksWithId_spec in Hin as (Hid & j & q & Hj & Hin).
            exists j, q, block. repeat split; auto. congruence.
          - left. exists (withoutBlock blockId p). split; [|reflexivity].
            subst remote3. now apply map_lookup_filter_Some. }
        left. exists (withoutBlock blockId p). now split.
    + now apply childPage_mono.
    + now apply childDatabase_mono.
  - intros w pageId children. unfold appended.
    cbn [vault pages set_pages].
    assert (Hsub : within (pages w)
              (alter
                 (fun p =>
                    {| remote_parent := remote_parent p;
                       remote_properties := remote_properties p;
                       remote_blocks :=
                         (remote_blocks p
                          ++ storeBlocks (idSupply w) children)%list;
                       remote_last_edited_time :=
                         remote_last_edited_time p |})
                 pageId (pages w))).
    { apply within_alter. intros p. cbn. split; [reflexivity|].
      intros block Hin Hc. apply in_app_iff in Hin as [?|Hin];
        [assumption|].
      apply storeBlocks_not_child in Hin. congruence. }
    repeat split; [auto|auto| | |].
    + intros i p Hi. left. now apply kept_alter.
    + now apply childPage_mono.
    + now apply childDatabase_mono.
  - intros w databaseId properties children Hfresh. unfold posted.
    cbn [vault pages set_pages].
    repeat split; [auto|auto| | |].
    + intros i p Hi. left. exists p. split; [|reflexivity].
      rewrite lookup_insert_ne; [exact Hi|]. intros E.
      rewrite E in Hfresh. congruence.
    + intros i (j & p' & block & Hj & Hin & Hc & Hid).
      destruct (String.eqb_spec (newPageId w) j) as [E|Hne].
      * rewrite E, lookup_insert_eq in Hj. injection Hj as <-.
        cbn in Hin. apply storeBlocks_not_child in Hin.
        rewrite Hc in Hin. discriminate.
      * rewrite lookup_insert_ne in Hj by exact Hne.
        exists j, p', block. auto.
    + intros i (j & p' & block & Hj & Hin & Hc & Hid).
      destruct (String.eqb_spec (newPageId w) j) as [E|Hne].
      * rewrite E, lookup_insert_eq in Hj. injection Hj as <-.
        cbn in Hin. apply storeBlocks_not_child in Hin.
        rewrite Hc, orb_true_r in Hin. discriminate.
      * rewrite lookup_insert_ne in Hj by exact Hne.
        exists j, p', block. auto.
Qed.

#[local] Instance onlyNestedLost_settings : ToleratesSettings onlyNestedLost.
Proof. intros w s. unfold onlyNestedLost. cbn. repeat split; eauto. Qed.

#[local] Instance noDeletion_insert : ToleratesInsert noDeletion.
Proof.
  intros w parent node. unfold noDeletion. cbn. repeat split; [| |auto].
  - intros p. apply filePaths_insertChild.
  - intros p. rewrite !findPath_allPaths. apply allPaths_insertChild.
Qed.

#[local] Instance noDeletion_modify : ToleratesModify noDeletion.
Proof.
  intros w p now text. unfold noDeletion. cbn. repeat split; [| |auto].
  - intros q. now rewrite filePaths_writeFile.
  - intros q. now rewrite !findPath_allPaths, allPaths_writeFile.
Qed.

Lemma syncConfig_onlyNestedLost (i : nat) (direction : option string) :
  Preserves onlyNestedLost (syncConfig i direction).
Proof. unfold syncConfig, recordSync. frame. Qed.

Lemma syncAll_onlyNestedLost (direction : option string) :
  Preserves onlyNestedLost (syncAll direction).
Proof.
  unfold syncAll, syncAllStep. frame.
  apply syncConfig_onlyNestedLost.
Qed.


(** ** The display text of a relation list (C6) *)

Lemma run_relationLoopWith
  (lookup : string -> Async (option (string * string)))
  (relations : list Relation) (texts : list string) (w : World) :
  forOf relations texts (relationStepWith lookup) w
  = (Returns (texts ++ (displayTexts lookup relations w).1)%list,
     (displayTexts lookup relations w).2).
Proof.
  revert texts w. induction relations as [|r rs IH]; intros texts w.
  - cbn. now rewrite List.app_nil_r.
  - cbn [forOf displayTexts]. rewrite run_bind.
    unfold relationStepWith at 1. rewrite run_tryCatch.
    destruct (JsString.isEmpty (relation_id r)); cbn [negb].
    + rewrite run_ret. apply IH.
    + rewrite run_bind. cbv zeta.
      destruct (lookup (relation_id r) w) as [[[[k title]|]|e] w1];
        cbn [fst snd shownAs].
      * destruct (JsString.isEmpty title); cbn [negb]; rewrite run_ret, IH;
          now rewrite <- List.app_assoc.
      * rewrite run_ret, IH. now rewrite <- List.app_assoc.
      * rewrite run_bind, run_say, run_ret, IH.
        now rewrite <- List.app_assoc.
Qed.

(** C6. Whatever client the engine was built with, the display text of
    a relation list is the comma-joined list of one text per related
    identifier, in the order of the list: each identifier is looked up
    on its own, and is shown as the title the lookup returns, as
    Untitled when the lookup returns no page or no title, and as Unknown
    when the lookup throws; the error is logged and the next identifier
    is looked up, so that the call itself never throws. A relation
    without identifier is passed over. For a client whose answers do not
    depend on what was looked up before, the texts are the answers of
    the identifiers, mapped in the order of the list. *)
Theorem getRelationDisplayText_order
  (lookup : string -> Async (option (string * string)))
  (relations : list Relation) (w : World) :
  getRelationDisplayTextWith lookup relations w
  = (Returns (JsString.join ", " (displayTexts lookup relations w).1),
     (displayTexts lookup relations w).2)
  /\ List.length (displayTexts lookup relations w).1
     = List.length (linked relations)
  /\ (forall answer : string -> Outcome (option (string * string)),
        (forall pageId w0, lookup pageId w0 = (answer pageId, w0)) ->
        (displayTexts lookup relations w).1
        = List.map (fun relation => shownAs (answer (relation_id relation)))
            (linked relations)).
Proof.
  split; [|split].
  - unfold getRelationDisplayTextWith. destruct relations as [|r rs].
    + reflexivity.
    + rewrite run_bind, run_relationLoopWith. reflexivity.
  - revert w. induction relations as [|r rs IH]; intros w; [reflexivity|].
    cbn [displayTexts linked List.filter]. fold (linked rs).
    destruct (JsString.isEmpty (relation_id r)); cbn [negb]; [apply IH|].
    cbv zeta. cbn [fst List.length]. now rewrite IH.
  - intros answer Hlookup. revert w.
    induction relations as [|r rs IH]; intros w; [reflexivity|].
    cbn [displayTexts linked List.filter]. fold (linked rs).
    destruct (JsString.isEmpty (relation_id r)); cbn [negb]; [apply IH|].
    cbv zeta. rewrite Hlookup. cbn [fst snd List.map]. now rewrite IH.
Qed.

(** ** The name of the file of a page (C4) *)

Lemma titleText_Some (prop : NotionProp) (title : string) :
  titleText prop = Some title
  <-> exists rest, prop = PTitle ({| plain_text := title |} :: rest)
                   /\ JsString.trim title <> EmptyString.
Proof.
  split.
  - destruct prop as [[|[t] rest]| | | | | | | | | | | | | | | | | | | |];
      try discriminate.
    cbn [titleText plain_text]. unfold JsString.isEmpty.
    destruct (JsString.trim t) eqn:E; [discriminate|].
    intros [= <-]. exists rest. split; [reflexivity|]. now rewrite E.
  - intros (rest & -> & Hne). cbn [titleText plain_text].
    unfold JsString.isEmpty.
    destruct (JsString.trim title); [congruence|reflexivity].
Qed.

Lemma firstSome_Some {A B} (f : A -> option B) (l : list A) (b : B) :
  firstSome f l = Some b -> exists x, In x l /\ f x = Some b.
Proof.
  induction l as [|x l IH]; cbn; [discriminate|].
  destruct (f x) as [b'|] eqn:E.
  - intros [= ->]. eauto.
  - intros H. destruct (IH H) as (y & Hy & Hf). eauto.
Qed.

Lemma firstSome_app {A B} (f : A -> option B) (l l' : list A) :
  (forall x, In x l -> f x = None) ->
  firstSome f (l ++ l') = firstSome f l'.
Proof.
  induction l as [|x l IH]; intros H; [reflexivity|].
  cbn. rewrite (H x (or_introl eq_refl)). apply IH.
  intros y Hy. apply H. now right.
Qed.


(** ** The keys of the conversion without mappings (C5) *)

Lemma isWhiteSpace_lowerChar (c : ascii) :
  isWhiteSpace (lowerChar c) = isWhiteSpace c.
Proof. destruct c as [[] [] [] [] [] [] [] []]; reflexivity. Qed.

Lemma toLowerCase_app (s t : string) :
  toLowerCase (s ++ t) = (toLowerCase s ++ toLowerCase t)%string.
Proof.
  induction s as [|c s IH]; [reflexivity|].
  rewrite app_cons. cbn [toLowerCase]. rewrite IH. symmetry. apply app_cons.
Qed.

Lemma allChars_toLowerCase (p : ascii -> bool) (s : string) :
  (forall c, p (lowerChar c) = p c) ->
  allChars p (toLowerCase s) = allChars p s.
Proof.
  intros Hp. induction s as [|c s IH]; cbn; [reflexivity|].
  now rewrite Hp, IH.
Qed.

Lemma underscores_no_whiteSpace (b : bool) (s : string) :
  allChars (fun c => negb (isWhiteSpace c))
    (replaceWhiteSpaceRuns "_" b s) = true.
Proof.
  revert b. induction s as [|c s IH]; intros b; cbn [replaceWhiteSpaceRuns];
    [reflexivity|].
  destruct (isWhiteSpace c) eqn:E; [destruct b|].
  - apply IH.
  - change (allChars (fun c => negb (isWhiteSpace c))
              (String "_" (replaceWhiteSpaceRuns "_" true s)) = true).
    cbn [allChars]. now rewrite IH.
  - cbn [allChars]. now rewrite E, IH.
Qed.

Lemma replaceWhiteSpaceRuns_none (rep : string) (b : bool) (s : string) :
  allChars (fun c => negb (isWhiteSpace c)) s = true ->
  replaceWhiteSpaceRuns rep b s = s.
Proof.
  revert b. induction s as [|c s IH]; intros b; cbn; [reflexivity|].
  intros [Hc Hs]%andb_prop. apply negb_true_iff in Hc. rewrite Hc.
  now rewrite IH.
Qed.

(** After a run of white space, what comes next starts afresh. *)
Lemma replaceWhiteSpaceRuns_run (rep gap rest : string) :
  allChars isWhiteSpace gap = true ->
  trimStart rest = rest ->
  replaceWhiteSpaceRuns rep true (gap ++ rest)
  = replaceWhiteSpaceRuns rep false rest.
Proof.
  intros Hgap Hrest. induction gap as [|c gap IH].
  - change (EmptyString ++ rest)%string with rest.
    destruct rest as [|c rest]; [reflexivity|].
    cbn [trimStart] in Hrest. cbn [replaceWhiteSpaceRuns].
    destruct (isWhiteSpace c) eqn:E; [|reflexivity].
    exfalso. assert (Hlen : String.length (trimStart rest)
                            <= String.length rest).
    { clear. induction rest as [|d rest IH]; cbn; [lia|].
      destruct (isWhiteSpace d); cbn; lia. }
    rewrite Hrest in Hlen. cbn in Hlen. lia.
  - cbn [allChars] in Hgap. apply andb_prop in Hgap as [Hc Hgap].
    rewrite app_cons. cbn [replaceWhiteSpaceRuns]. rewrite Hc. now apply IH.
Qed.

(** The key of a property: its name in lower case, each run of white
    space replaced by one underscore. *)
Lemma frontmatterKey_words (word gap rest : string) :
  allChars (fun c => negb (isWhiteSpace c)) word = true ->
  gap <> EmptyString -> allChars isWhiteSpace gap = true ->
  trimStart rest = rest ->
  frontmatterKey (word ++ gap ++ rest)
  = (toLowerCase word ++ "_" ++ frontmatterKey rest)%string.
Proof.
  intros Hword Hne Hgap Hrest. unfold frontmatterKey.
  rewrite !toLowerCase_app.
  assert (Hgap' : allChars isWhiteSpace (toLowerCase gap) = true)
    by (rewrite allChars_toLowerCase;
        [exact Hgap|apply isWhiteSpace_lowerChar]).
  assert (Hrest' : trimStart (toLowerCase rest) = toLowerCase rest).
  { destruct rest as [|c rest]; [reflexivity|].
    cbn [trimStart] in Hrest. cbn [toLowerCase trimStart].
    rewrite isWhiteSpace_lowerChar.
    destruct (isWhiteSpace c) eqn:E; [|reflexivity].
    exfalso. assert (Hlen : String.length (trimStart rest)
                            <= String.length rest).
    { clear. induction rest as [|d rest IH]; cbn; [lia|].
      destruct (isWhiteSpace d); cbn; lia. }
    rewrite Hrest in Hlen. cbn in Hlen. lia. }
  assert (Hne' : toLowerCase gap <> EmptyString)
    by (destruct gap; [congruence|discriminate]).
  clear Hgap Hrest Hne.
  induction word as [|c word IH].
  - change (toLowerCase EmptyString ++ ?s)%string with s.
    destruct (toLowerCase gap) as [|g gap'] eqn:Eg; [congruence|].
    rewrite app_cons. cbn [replaceWhiteSpaceRuns allChars] in *.
    apply andb_prop in Hgap' as [-> Hgap'].
    now rewrite replaceWhiteSpaceRuns_run.
  - cbn [allChars] in Hword. apply andb_prop in Hword as [Hc Hword].
    cbn [toLowerCase]. rewrite !app_cons. cbn [replaceWhiteSpaceRuns].
    rewrite isWhiteSpace_lowerChar. apply negb_true_iff in Hc. rewrite Hc.
    now rewrite IH.
Qed.

(** C5 as the code has it: a property whose key is __proto__ is not
    emitted. Without field mappings, the front-matter the conversion
    returns has no entry __proto__, whatever the properties of the
    page: the assignment to that key of an object made by a literal
    makes no entry. *)
Theorem autoConversion_omits_proto (properties : Obj NotionProp)
  (config : SyncConfig) (w : World) :
  fieldMappings config = [] ->
  exists fm w',
    convertNotionPropertiesToFrontmatter properties config w
    = (Returns fm, w')
    /\ forall name prop,
         In (name, prop) properties -> frontmatterKey name = "__proto__" ->
         obj_get (frontmatterKey name) fm = None.
Proof.
  intros Hnone. unfold convertNotionPropertiesToFrontmatter. rewrite Hnone.
  destruct (run_autoLoop properties [] w)
    as (fm & w' & Hrun & _ & _ & _ & Hproto & _).
  exists fm, w'. split; [exact Hrun|].
  intros name prop _ ->. now apply Hproto.
Qed.

(** X24. Without field mappings the conversion cannot fail and gives
    every property of the page whose key is not __proto__ an entry under its
    key, with a value that is never null or undefined: an empty value is
    emitted as the empty text. It emits nothing else. The key of a
    property is its name in lower case with each run of white space
    replaced by one underscore: it has no white space, is the name in
    lower case when the name has none, and is made word by word
    otherwise. Properties whose names give one key share its entry. *)
Theorem autoConversion_emits_every_property (properties : Obj NotionProp)
  (config : SyncConfig) (w : World) :
  fieldMappings config = [] ->
  exists fm w',
    convertNotionPropertiesToFrontmatter properties config w
    = (Returns fm, w')
    /\ (forall name prop, In (name, prop) properties ->
          frontmatterKey name <> "__proto__" ->
          exists v, obj_get (frontmatterKey name) fm = Some v
                    /\ isNullish v = false)
    /\ (forall k, is_Some (obj_get k fm) ->
          exists name prop,
            In (name, prop) properties /\ frontmatterKey name = k)
    /\ (forall name,
          allChars (fun c => negb (isWhiteSpace c)) (frontmatterKey name)
          = true)
    /\ (forall name,
          allChars (fun c => negb (isWhiteSpace c)) name = true ->
          frontmatterKey name = toLowerCase name)
    /\ (forall word gap rest,
          allChars (fun c => negb (isWhiteSpace c)) word = true ->
          gap <> EmptyString -> allChars isWhiteSpace gap = true ->
          trimStart rest = rest ->
          frontmatterKey (word ++ gap ++ rest)
          = (toLowerCase word ++ "_" ++ frontmatterKey rest)%string)
    /\ (properties = [("Count", PNumber None)] ->
        fm = [("count", VString EmptyString)])
    /\ (properties = [("Name", PTitle [{| plain_text := "Hello" |}]);
                      ("Done", PCheckbox true)] ->
        fm = [("name", VString "Hello"); ("done", VBool true)])
    /\ sameStores w w'.
Proof.
  intros Hnone. unfold convertNotionPropertiesToFrontmatter. rewrite Hnone.
  destruct (run_autoLoop properties [] w)
    as (fm & w' & Hrun & _ & Hall & Hout & _ & HR).
  exists fm, w'. split; [exact Hrun|]. split; [exact Hall|].
  split; [|split; [|split; [|split; [|split; [|split; [|exact HR]]]]]].
  - intros k Hk.
    destruct (in_dec string_dec k
                (List.map (fun kp : string * NotionProp =>
                             frontmatterKey kp.1) properties))
      as [Hin|Hnot].
    + apply in_map_iff in Hin as ([name prop] & Hkey & Hin). eauto.
    + rewrite (Hout k eq_refl Hnot) in Hk. destruct Hk as [? [=]].
  - intros name. apply underscores_no_whiteSpace.
  - intros name Hname. unfold frontmatterKey.
    apply replaceWhiteSpaceRuns_none.
    rewrite allChars_toLowerCase; [exact Hname|].
    intros c. now rewrite isWhiteSpace_lowerChar.
  - apply frontmatterKey_words.
  - intros ->. cbn in Hrun. injection Hrun as <- _. reflexivity.
  - intros ->. cbn in Hrun. injection Hrun as <- _. reflexivity.
Qed.
End Engine.

(** ** The theorems at sample inputs

    The engine on the integer runtime, at the sample data. *)

#[local] Existing Instance IntRuntime.instance.



(** C2, witness: without mappings a push is refused with the message of
    the missing mappings, and a bidirectional run returns after its pull. *)
Lemma syncConfig_without_mappings_witness :
  let push := sampleConfig [] SyncDirection.OBSIDIAN_TO_NOTION in
  let merge := sampleConfig [] SyncDirection.BIDIRECTIONAL in
  let remote : gmap string (RemotePage (num := Z)) :=
    {[ "abc12345xyz" := sampleRemote "2024-01-01T00:00:00.000Z" ]} in
  (syncConfigs (settings (sampleWorld "newer-wins" [push] remote)) !! 0
   = Some push
   /\ fieldMappings push = []
   /\ directionOf None push = SyncDirection.OBSIDIAN_TO_NOTION
   /\ exists entries,
        syncConfig 0 None (sampleWorld "newer-wins" [push] remote)
        = (Throws ("Failed to sync Tasks: " ++ noMappingsError),
           set_console entries (sampleWorld "newer-wins" [push] remote)))
  /\ (directionOf None merge = SyncDirection.BIDIRECTIONAL
      /\ exists w',
           syncConfig 0 None (sampleWorld "newer-wins" [merge] remote)
           = (Returns tt, w')).
Proof.
  cbv zeta. split.
  - split; [reflexivity|]. split; [reflexivity|]. split; [reflexivity|].
    destruct (proj1 (syncConfig_without_mappings (RT := IntRuntime.instance)
                       0 None
                       (sampleConfig [] SyncDirection.OBSIDIAN_TO_NOTION)
                       (sampleWorld "newer-wins"
                          [sampleConfig [] SyncDirection.OBSIDIAN_TO_NOTION]
                          {[ "abc12345xyz" :=
                               sampleRemote "2024-01-01T00:00:00.000Z" ]})
                       eq_refl eq_refl) eq_refl)
      as (e & entries & Hrun & He).
    destruct (He eq_refl eq_refl) as [-> _].
    exists (entries ++ [])%list. exact Hrun.
  - split; [reflexivity|].
    eapply (proj2 (proj2 (syncConfig_without_mappings (RT := IntRuntime.instance)
                       0 None
                            (sampleConfig [] SyncDirection.BIDIRECTIONAL)
                            (sampleWorld "newer-wins"
                               [sampleConfig [] SyncDirection.BIDIRECTIONAL]
                               {[ "abc12345xyz" :=
                                    sampleRemote "2024-01-01T00:00:00.000Z" ]})
                            eq_refl eq_refl) eq_refl eq_refl eq_refl)).
    vm_compute. reflexivity.
Defined.

(** C3, counterexample: one string entry and the body Body come back with
    the entry intact and the body after a line feed; an empty list comes
    back as the list of the empty string. *)
Lemma frontmatter_round_trip_fails :
  let file := TFile "Notes/Task.md" 0 EmptyString in
  let fm : Obj (JsValue (num := Z)) := [("title", VString "Task")] in
  let note := parseMarkdownFile file (createMarkdownContent fm "Body") in
  let tags : Obj (JsValue (num := Z)) := [("tags", VArray [])] in
  note_frontmatter note = fm
  /\ note_content note = String JsString.LF "Body"
  /\ (note_frontmatter note, note_content note) <> (fm, "Body")
  /\ note_frontmatter
       (parseMarkdownFile file (createMarkdownContent tags "Body"))
     = [("tags", VArray [EmptyString])].
Proof.
  vm_compute. split; [reflexivity|]. split; [reflexivity|].
  split; [discriminate|reflexivity].
Qed.

(** C3, witness: a string, a number, a boolean and a list. *)
Lemma frontmatter_round_trip_witness :
  let file := TFile "Notes/Task.md" 0 EmptyString in
  let fm : Obj (JsValue (num := Z)) :=
    [("title", VString "Task"); ("count", VNumber 42%Z);
     ("done", VBool true); ("tags", VArray ["a"; "b"])] in
  let note := parseMarkdownFile file (createMarkdownContent fm "Body") in
  fm <> []
  /\ List.NoDup (List.map fst fm)
  /\ Forall (fun kv => kv.1 <> "__proto__") fm
  /\ Forall (fun kv => plainKey kv.1 /\ plainValue kv.2) fm
  /\ note_frontmatter note = fm
  /\ note_content note = String JsString.LF "Body".
Proof.
  cbv zeta.
  assert (H0 : Forall (fun kv => kv.1 <> "__proto__")
                 ([("title", VString "Task"); ("count", VNumber 42%Z);
                   ("done", VBool true); ("tags", VArray ["a"; "b"])]
                  : Obj (JsValue (num := Z))))
    by (repeat (constructor; [discriminate|]); constructor).
  assert (H1 : ([("title", VString "Task"); ("count", VNumber 42%Z);
                 ("done", VBool true); ("tags", VArray ["a"; "b"])]
                : Obj (JsValue (num := Z))) <> []) by discriminate.
  assert (H2 : List.NoDup
                 (List.map fst
                    ([("title", VString "Task"); ("count", VNumber 42%Z);
                      ("done", VBool true); ("tags", VArray ["a"; "b"])]
                     : Obj (JsValue (num := Z))))).
  { cbn. repeat (apply List.NoDup_cons; [cbn; intuition discriminate|]).
    apply List.NoDup_nil. }
  assert (H3 : Forall (fun kv => plainKey kv.1 /\ plainValue kv.2)
                 ([("title", VString "Task"); ("count", VNumber 42%Z);
                   ("done", VBool true); ("tags", VArray ["a"; "b"])]
                  : Obj (JsValue (num := Z)))).
  { repeat (constructor;
            [split; cbn; repeat split; (discriminate || reflexivity)|]).
    constructor. }
  split; [exact H1|]. split; [exact H2|]. split; [exact H0|].
  split; [exact H3|].
  destruct (frontmatter_round_trip (RT := IntRuntime.instance) _ "Body"
              (TFile "Notes/Task.md" 0 EmptyString) H1 H2 H0 H3)
    as (Hfm & Hbody & _).
  split; [exact Hfm|exact Hbody].
Defined.

(** With the client of notion-api.ts, a request that fails is shown as
    Untitled: [getPageInfo] has caught the error. *)
Lemma getRelationDisplayText_failed_lookup :
  let w :=
    set_fates [Fails "Request failed, status 502"]
      (sampleWorld (num := Z) "newer-wins" []
         {[ "abc12345xyz" := sampleRemote "2024-01-01T00:00:00.000Z" ]}) in
  (getRelationDisplayText [{| relation_id := "abc12345xyz" |}] w).1
  = Returns "Untitled"
  /\ (getRelationDisplayText
        [{| relation_id := "abc12345xyz" |}; {| relation_id := "missing" |}]
        (set_fates [] w)).1
     = Returns "Task, Untitled".
Proof. vm_compute. split; reflexivity. Qed.

(** C7, witness: two records, of which the one with a timestamp that is no
    date fails; the other one is written, and the pull reports both. *)
Lemma pull_counts_every_record_witness :
  let config := sampleConfig [] SyncDirection.NOTION_TO_OBSIDIAN in
  let w :=
    sampleWorld (num := Z) "newer-wins" [config]
      {[ "abc12345xyz" := sampleRemote "2024-01-01T00:00:00.000Z";
         "def67890uvw" := sampleRemote "yesterday" ]} in
  exists n w3,
    createdCount n + updatedCount n + errorCount n = 2
    /\ errorCount n = 1
    /\ syncNotionToObsidian config w
       = (Returns tt, set_console (pullReport n ++ console w3)%list w3)
    /\ hd_error (pullReport n)
       = Some (Notice,
               "Notion -> Obsidian: 0 created, 1 updated, 1 errors. "
               ++ "Check console for details.").
Proof.
  cbv zeta.
  set (config := sampleConfig [] SyncDirection.NOTION_TO_OBSIDIAN).
  set (w := sampleWorld "newer-wins" [config] _).
  pose (r1 := getDatabasePages (notionDatabaseId config) w).
  pose (ps := match r1.1 with Returns x => x | Throws _ => [] end).
  pose (r2 := ensureFolderExists (obsidianFolder config) r1.2).
  pose (folder := match r2.1 with Returns x => x | Throws _ => None end).
  assert (Hfetch : getDatabasePages (notionDatabaseId config) w
                   = (Returns ps, r1.2)) by (vm_compute; reflexivity).
  assert (Hfolder : ensureFolderExists (obsidianFolder config) r1.2
                    = (Returns folder, r2.2)) by (vm_compute; reflexivity).
  assert (Hsome : ps <> []) by (vm_compute; discriminate).
  destruct (proj2 (pull_counts_every_record (RT := IntRuntime.instance)
                     config w) _ _ _ _ Hfetch Hsome Hfolder)
    as (n & w3 & Hloop & Hsum & Hrun).
  exists n, w3. split; [exact Hsum|].
  vm_compute in Hloop. injection Hloop as <- _.
  split; [reflexivity|]. split; [exact Hrun|reflexivity].
Defined.

(** C9, witness: the policy remote-wins is none of the four. *)
Lemma resolveConflict_unknown_policy_witness :
  let config := sampleConfig [sampleMapping] SyncDirection.BIDIRECTIONAL in
  let w :=
    sampleWorld (num := Z) "remote-wins" [config]
      {[ "abc12345xyz" := sampleRemote "2024-02-01T00:00:00.000Z" ]} in
  conflictResolution (settings w) <> "notion-wins"
  /\ conflictResolution (settings w) <> "obsidian-wins"
  /\ conflictResolution (settings w) <> "newer-wins"
  /\ conflictResolution (settings w) <> "manual"
  /\ exists w',
       resolveConflict samplePage sampleNote config w
       = (Returns "no-change", w')
       /\ vault w' = vault w /\ pages w' = pages w.
Proof.
  cbv zeta.
  set (config := sampleConfig [sampleMapping] SyncDirection.BIDIRECTIONAL).
  set (w := sampleWorld "remote-wins" [config] _).
  assert (H1 : conflictResolution (settings w) <> "notion-wins")
    by discriminate.
  assert (H2 : conflictResolution (settings w) <> "obsidian-wins")
    by discriminate.
  assert (H3 : conflictResolution (settings w) <> "newer-wins")
    by discriminate.
  assert (H4 : conflictResolution (settings w) <> "manual") by discriminate.
  repeat (split; [assumption|]).
  destruct (resolveConflict_unknown_policy (RT := IntRuntime.instance)
              samplePage sampleNote config w H1 H2 H3 H4)
    as (w' & Hrun & (Hv & Hp & _) & _).
  exists w'. auto.
Defined.

(** C10, witness: the refused push leaves [lastSync] at 0, and the pull
    that returns sets it to the time of the clock. *)
Lemma syncConfig_lastSync_witness :
  let push := sampleConfig [] SyncDirection.OBSIDIAN_TO_NOTION in
  let pull := sampleConfig [] SyncDirection.NOTION_TO_OBSIDIAN in
  let remote : gmap string (RemotePage (num := Z)) :=
    {[ "abc12345xyz" := sampleRemote "2024-01-01T00:00:00.000Z" ]} in
  let refused := syncConfig 0 None (sampleWorld "newer-wins" [push] remote) in
  let done := syncConfig 0 None (sampleWorld "newer-wins" [pull] remote) in
  syncConfigs (settings (sampleWorld "newer-wins" [push] remote)) !! 0
  = Some push
  /\ refused.1 = Throws ("Failed to sync Tasks: " ++ noMappingsError)
  /\ lastSync <$> (syncConfigs (settings refused.2) !! 0) = Some 0%Z
  /\ done.1 = Returns tt
  /\ lastSync <$> (syncConfigs (settings done.2) !! 0) = Some 1704070800000%Z.
Proof.
  cbv zeta.
  set (remote := {[ "abc12345xyz" :=
                      sampleRemote "2024-01-01T00:00:00.000Z" ]}).
  set (w1 := sampleWorld "newer-wins"
               [sampleConfig [] SyncDirection.OBSIDIAN_TO_NOTION] remote).
  set (w2 := sampleWorld "newer-wins"
               [sampleConfig [] SyncDirection.NOTION_TO_OBSIDIAN] remote).
  split; [reflexivity|].
  pose proof (syncConfig_lastSync (RT := IntRuntime.instance) 0 None
                (sampleConfig [] SyncDirection.OBSIDIAN_TO_NOTION) w1
                eq_refl) as Hpush.
  pose proof (syncConfig_lastSync (RT := IntRuntime.instance) 0 None
                (sampleConfig [] SyncDirection.NOTION_TO_OBSIDIAN) w2
                eq_refl) as Hpull.
  assert (E1 : syncConfig 0 None w1
               = (Throws ("Failed to sync Tasks: " ++ noMappingsError),
                  (syncConfig 0 None w1).2))
    by (vm_compute; reflexivity).
  assert (E2 : syncConfig 0 None w2 = (Returns tt, (syncConfig 0 None w2).2))
    by (vm_compute; reflexivity).
  rewrite E1 in Hpush. rewrite E2 in Hpull.
  cbv beta iota in Hpush, Hpull. destruct Hpull as [_ Hpull].
  split; [vm_compute; reflexivity|].
  split; [rewrite Hpush; reflexivity|].
  split; [vm_compute; reflexivity|].
  rewrite Hpull. reflexivity.
Defined.

(** ** The further properties at sample inputs *)

(** X3, witness: a bidirectional configuration without mappings. *)
Lemma no_mappings_leaves_remote_witness :
  let config := sampleConfig [] SyncDirection.BIDIRECTIONAL in
  let w :=
    sampleWorld (num := Z) "newer-wins" [config]
      {[ "abc12345xyz" := sampleRemote "2024-01-01T00:00:00.000Z" ]} in
  syncConfigs (settings w) !! 0 = Some config
  /\ fieldMappings config = []
  /\ pages (syncConfig 0 None w).2 = pages w.
Proof.
  cbv zeta. split; [reflexivity|]. split; [reflexivity|].
  exact (proj1 (no_mappings_leaves_remote (RT := IntRuntime.instance) 0 None
                  (sampleConfig [] SyncDirection.BIDIRECTIONAL)
                  (sampleWorld "newer-wins"
                     [sampleConfig [] SyncDirection.BIDIRECTIONAL]
                     {[ "abc12345xyz" :=
                          sampleRemote "2024-01-01T00:00:00.000Z" ]})
                  eq_refl eq_refl)).
Defined.

(** X7, witness: the sample pair under notion-wins. *)
Lemma resolveConflict_remote_wins_witness :
  let config := sampleConfig [sampleMapping] SyncDirection.BIDIRECTIONAL in
  let w :=
    sampleWorld (num := Z) "notion-wins" [config]
      {[ "abc12345xyz" := sampleRemote "2024-01-01T00:00:00.000Z" ]} in
  conflictResolution (settings w) = "notion-wins"
  /\ pages (resolveConflict samplePage sampleNote config w).2 = pages w.
Proof.
  cbv zeta. split; [reflexivity|].
  exact (proj1 (proj1 (resolveConflict_remote_wins
                         (RT := IntRuntime.instance) samplePage sampleNote
                         (sampleConfig [sampleMapping]
                            SyncDirection.BIDIRECTIONAL)
                         (sampleWorld "notion-wins"
                            [sampleConfig [sampleMapping]
                               SyncDirection.BIDIRECTIONAL]
                            {[ "abc12345xyz" :=
                                 sampleRemote "2024-01-01T00:00:00.000Z" ]})
                         (or_introl eq_refl)))).
Defined.

(** X9, witness: two tags in the two orders. *)
Lemma hasSignificantChanges_ignores_order_witness :
  let config :=
    sampleConfig
      [{| notionProperty := "Tags"; obsidianProperty := "tags";
          type := "list" |}] SyncDirection.BIDIRECTIONAL in
  let notion : Obj (JsValue (num := Z)) := [("tags", VArray ["a"; "b"])] in
  Permutation ["a"; "b"] ["b"; "a"]
  /\ (hasSignificantChanges notion (obj_set "tags" (VArray ["a"; "b"]) [])
        config).1
     = (hasSignificantChanges notion (obj_set "tags" (VArray ["b"; "a"]) [])
          config).1.
Proof.
  cbv zeta. split; [apply perm_swap|].
  exact (hasSignificantChanges_ignores_order (RT := IntRuntime.instance)
           [("tags", VArray ["a"; "b"])] []
           (sampleConfig
              [{| notionProperty := "Tags"; obsidianProperty := "tags";
                  type := "list" |}] SyncDirection.BIDIRECTIONAL)
           "tags" ["a"; "b"] ["b"; "a"] (perm_swap "b" "a" [])).
Defined.

(** X11, witness: a page titled with three question marks. *)
Lemma getFileNameFromPage_can_be_empty_witness :
  let page : NotionPage (num := Z) :=
    {| page_id := "abc12345xyz";
       page_properties := [("Name", PTitle [{| plain_text := "???" |}])];
       page_content := EmptyString;
       page_lastModified := "2024-01-01T00:00:00.000Z" |} in
  let config := sampleConfig [] SyncDirection.NOTION_TO_OBSIDIAN in
  JsString.trim "???" <> EmptyString
  /\ getFileNameFromPage page config = EmptyString
  /\ filePathOf config (getFileNameFromPage page config) = "Notes/.md".
Proof.
  cbv zeta.
  assert (H : JsString.trim "???" <> EmptyString)
    by (vm_compute; discriminate).
  split; [exact H|].
  exact (getFileNameFromPage_can_be_empty (num := Z)
           {| page_id := "abc12345xyz";
              page_properties :=
                [("Name", PTitle [{| plain_text := "???" |}])];
              page_content := EmptyString;
              page_lastModified := "2024-01-01T00:00:00.000Z" |}
           (sampleConfig [] SyncDirection.NOTION_TO_OBSIDIAN)
           "Name" {| plain_text := "???" |} [] []
           eq_refl eq_refl H eq_refl).
Defined.

(** X13, witness: the title of the sample note is sent, its page
    identifier is not. *)
Lemma convertFrontmatterToNotionProperties_mapped_only_witness :
  let config := sampleConfig [sampleMapping] SyncDirection.BIDIRECTIONAL in
  let frontmatter := note_frontmatter (sampleNote (num := Z)) in
  List.Forall ordinaryMapping (fieldMappings config)
  /\ convertFrontmatterToNotionProperties frontmatter config
     = [("Name", URichText "Task")]
  /\ exists mapping,
       In mapping (fieldMappings config)
       /\ notionProperty mapping = "Name"
       /\ exists value,
            obj_get (obsidianProperty mapping) frontmatter = Some value
            /\ isNullish value = false.
Proof.
  cbv zeta.
  assert (H : List.Forall ordinaryMapping [sampleMapping]).
  { constructor; [|constructor]. split; [reflexivity|discriminate]. }
  split; [exact H|]. split; [reflexivity|].
  exact (convertFrontmatterToNotionProperties_mapped_only
           (RT := IntRuntime.instance) (note_frontmatter sampleNote)
           (sampleConfig [sampleMapping] SyncDirection.BIDIRECTIONAL)
           "Name" (URichText "Task") H (or_introl eq_refl)).
Defined.

(** X14, witness: the sample page under the sample mapping. *)
Lemma mappedConversion_mapped_only_witness :
  let config := sampleConfig [sampleMapping] SyncDirection.BIDIRECTIONAL in
  let w := sampleWorld (num := Z) "newer-wins" [config] ∅ in
  fieldMappings config <> []
  /\ exists frontmatter w',
       convertNotionPropertiesToFrontmatter (page_properties (samplePage (num := Z)))
         config w
       = (Returns frontmatter, w')
       /\ forall k v,
            In (k, v) frontmatter ->
            exists mapping,
              In mapping (fieldMappings config)
              /\ obsidianProperty mapping = k
              /\ is_Some (obj_get (notionProperty mapping)
                            (page_properties (samplePage (num := Z))))
              /\ isNullish v = false.
Proof.
  cbv zeta.
  assert (H : fieldMappings
                (sampleConfig [sampleMapping] SyncDirection.BIDIRECTIONAL)
              <> []) by discriminate.
  split; [exact H|].
  exact (mappedConversion_mapped_only (num := Z)
           (page_properties samplePage)
           (sampleConfig [sampleMapping] SyncDirection.BIDIRECTIONAL)
           (sampleWorld "newer-wins"
              [sampleConfig [sampleMapping] SyncDirection.BIDIRECTIONAL] ∅)
           H).
Defined.


(** X17, witness: a heading and two lines of a paragraph. *)
Lemma markdownToBlocks_sound_witness :
  let markdown :=
    "# Title" ++ JsString.str1 JsString.LF ++ "one" ++ JsString.str1 JsString.LF
      ++ "two" in
  markdownToBlocks markdown
  = [{| block_type := heading_1; block_content := "Title" |};
     {| block_type := paragraph; block_content := "one two" |}]
  /\ JsString.trimEnd "one two" = "one two".
Proof.
  cbv zeta. split; [vm_compute; reflexivity|].
  exact (proj2 (proj2 (markdownToBlocks_sound
                         ("# Title" ++ JsString.str1 JsString.LF ++ "one"
                            ++ JsString.str1 JsString.LF ++ "two")
                         {| block_type := paragraph;
                            block_content := "one two" |}
                         (or_intror (or_introl eq_refl))))).
Defined.

(** X18, witness: the four kinds of blocks. *)
Lemma blocks_round_trip_witness :
  let blocks :=
    [{| block_type := heading_1; block_content := "Title" |};
     {| block_type := paragraph; block_content := "Some text" |};
     {| block_type := bulleted_list_item; block_content := "item" |};
     {| block_type := numbered_list_item; block_content := "first" |}] in
  blocksToMarkdown (List.map asStored blocks)
  = "# Title" ++ JsString.str1 JsString.LF ++ JsString.str1 JsString.LF
      ++ "Some text" ++ JsString.str1 JsString.LF ++ JsString.str1 JsString.LF
      ++ "- item" ++ JsString.str1 JsString.LF ++ "1. first"
  /\ markdownToBlocks (blocksToMarkdown (List.map asStored blocks)) = blocks.
Proof.
  cbv zeta. split; [vm_compute; reflexivity|].
  apply blocks_round_trip.
  repeat (apply List.Forall_cons;
          [unfold plainBlock; cbn [block_content block_type];
           split; [discriminate|];
           split; [vm_compute; reflexivity|];
           split; [vm_compute; reflexivity|];
           intros; try discriminate;
           repeat split; vm_compute; reflexivity|]).
  apply List.Forall_nil.
Defined.

(** X20, witness: a note with a title and no page identifier. *)
Lemma pushStep_links_new_note_witness :
  let config := sampleConfig [sampleMapping] SyncDirection.OBSIDIAN_TO_NOTION in
  let data :=
    createMarkdownContent [("title", VString (num := Z) "New")] "body" in
  let w :=
    set_vault (TFolder "/" [TFolder "Notes" [TFile "Notes/New.md" 5 data]])
      (sampleWorld (num := Z) "newer-wins" [config] ∅) in
  exists w' text,
    pushStep config (0, 0) (TFile "Notes/New.md" 5 data) w
    = (Returns (1, 0), w')
    /\ remote_properties <$> pages w' !! "page-0"
       = Some [("Name", PRichText [{| plain_text := "New" |}])]
    /\ remote_content <$> pages w' !! "page-0" = Some "body"
    /\ findPath "Notes/New.md" (vault w')
       = Some (TFile "Notes/New.md" 1704070800000 text)
    /\ note_notionId
         (parseMarkdownFile (TFile "Notes/New.md" 1704070800000 text) text)
       = VString "page-0".
Proof.
  cbv zeta.
  set (config := sampleConfig [sampleMapping]
                   SyncDirection.OBSIDIAN_TO_NOTION).
  set (data := createMarkdownContent [("title", VString "New")] "body").
  set (w := set_vault _ _).
  assert (Hplain : List.Forall
                     (fun kv => plainKey kv.1 /\ plainValue kv.2)
                     (note_frontmatter
                        (parseMarkdownFile (TFile "Notes/New.md" 5 data)
                           data))).
  { change (note_frontmatter _) with [("title", VString (num := Z) "New")].
    constructor; [|constructor]. split; [|reflexivity].
    repeat split; try reflexivity. discriminate. }
  assert (Hkeys : List.Forall (fun kv => kv.1 <> "__proto__")
                    (note_frontmatter
                       (parseMarkdownFile (TFile "Notes/New.md" 5 data)
                          data))).
  { change (note_frontmatter _) with [("title", VString (num := Z) "New")].
    constructor; [discriminate|constructor]. }
  assert (Hmappings : List.Forall ordinaryMapping (fieldMappings config)).
  { constructor; [|constructor]. split; [reflexivity|discriminate]. }
  destruct (pushStep_links_new_note (RT := IntRuntime.instance) config (0, 0)
              "Notes/New.md" data 5 w eq_refl eq_refl eq_refl eq_refl Hplain
              Hkeys Hmappings eq_refl)
    as (w' & text & Hrun & Hpage & Hcontent & Hfile & Hid).
  exists w', text. split; [exact Hrun|].
  split; [rewrite (Hpage : pages w' !! "page-0" = _); reflexivity|].
  split; [rewrite (Hcontent : remote_content <$> pages w' !! "page-0" = _);
          vm_compute; reflexivity|].
  split; [exact Hfile|exact Hid].
Defined.

(** X22, witness: a page named Plan pulled into a vault without that
    note. *)
Lemma pullPage_stores_document_witness :
  let config := sampleConfig [] SyncDirection.NOTION_TO_OBSIDIAN in
  let page : NotionPage (num := Z) :=
    {| page_id := "def67890uvw";
       page_properties := [("Name", PTitle [{| plain_text := "Plan" |}])];
       page_content := "remote text";
       page_lastModified := "2024-01-01T00:00:00.000Z" |} in
  let w := sampleWorld (num := Z) "newer-wins" [config] ∅ in
  let w' := (pullPage page config w).2 in
  pullPage page config w = (Returns true, w')
  /\ exists frontmatter mtime,
       getProp frontmatter "notionId" VUndefined = VString "def67890uvw"
       /\ findPath "Notes/Plan.md" (vault w')
          = Some (TFile "Notes/Plan.md" mtime
                    (createMarkdownContent frontmatter "remote text")).
Proof.
  cbv zeta.
  set (config := sampleConfig [] SyncDirection.NOTION_TO_OBSIDIAN).
  set (page := {| page_id := "def67890uvw" |}).
  set (w := sampleWorld "newer-wins" [config] ∅).
  assert (E : pullPage page config w
              = (Returns true, (pullPage page config w).2))
    by (vm_compute; reflexivity).
  split; [exact E|].
  destruct (pullPage_stores_document (RT := IntRuntime.instance)
              page config true w _ E)
    as (frontmatter & mtime & _ & Hid & Hfile & _).
  exists frontmatter, mtime. split; [exact Hid|exact Hfile].
Defined.

(** X23, witness: two pages named Plan pulled one after the other. *)
Lemma pull_same_name_overwrites_witness :
  let config := sampleConfig [] SyncDirection.NOTION_TO_OBSIDIAN in
  let page1 : NotionPage (num := Z) :=
    {| page_id := "def67890uvw";
       page_properties := [("Name", PTitle [{| plain_text := "Plan" |}])];
       page_content := "first text";
       page_lastModified := "2024-01-01T00:00:00.000Z" |} in
  let page2 : NotionPage (num := Z) :=
    {| page_id := "ghi24680rst";
       page_properties := [("Name", PTitle [{| plain_text := "Plan" |}])];
       page_content := "second text";
       page_lastModified := "2024-01-02T00:00:00.000Z" |} in
  let w := sampleWorld (num := Z) "newer-wins" [config] ∅ in
  let w1 := (pullPage page1 config w).2 in
  let w2 := (pullPage page2 config w1).2 in
  getFileNameFromPage page1 config = getFileNameFromPage page2 config
  /\ pullPage page1 config w = (Returns true, w1)
  /\ pullPage page2 config w1 = (Returns false, w2)
  /\ exists content mtime,
       (documentOfPage page2 config w1).1 = Returns content
       /\ findPath "Notes/Plan.md" (vault w2)
          = Some (TFile "Notes/Plan.md" mtime content).
Proof.
  cbv zeta.
  set (config := sampleConfig [] SyncDirection.NOTION_TO_OBSIDIAN).
  set (page1 := {| page_id := "def67890uvw" |}).
  set (page2 := {| page_id := "ghi24680rst" |}).
  set (w := sampleWorld "newer-wins" [config] ∅).
  assert (Hname : getFileNameFromPage page1 config
                  = getFileNameFromPage page2 config) by reflexivity.
  assert (E1 : pullPage page1 config w
               = (Returns true, (pullPage page1 config w).2))
    by (vm_compute; reflexivity).
  assert (E2 : pullPage page2 config (pullPage page1 config w).2
               = (Returns false,
                  (pullPage page2 config (pullPage page1 config w).2).2))
    by (vm_compute; reflexivity).
  split; [exact Hname|]. split; [exact E1|]. split; [exact E2|].
  exact (proj2 (pull_same_name_overwrites (RT := IntRuntime.instance)
                  page1 page2 config true false w _ _ Hname E1 E2)).
Defined.


(** C6, witness: a client that knows one page, has lost another and
    fails on a third. *)
Lemma getRelationDisplayText_order_witness :
  let answer (pageId : string) : Outcome (option (string * string)) :=
    if String.eqb pageId "gone" then Throws "Request failed, status 502"
    else if String.eqb pageId "lost" then Returns None
    else Returns (Some (pageId, "Task")) in
  let lookup (pageId : string) : Async (option (string * string)) :=
    fun w => (answer pageId, w) in
  let relations :=
    [{| relation_id := "abc12345xyz" |}; {| relation_id := "gone" |};
     {| relation_id := EmptyString |}; {| relation_id := "lost" |};
     {| relation_id := "def67890uvw" |}] in
  let w := sampleWorld (num := Z) "newer-wins" [] ∅ in
  (forall pageId w0, lookup pageId w0 = (answer pageId, w0))
  /\ (getRelationDisplayTextWith lookup relations w).1
     = Returns "Task, Unknown, Untitled, Task".
Proof.
  cbv zeta. split; [reflexivity|].
  set (lookup := fun (pageId : string) (w : World) => (_ , w)).
  set (relations := [_; _; _; _; _]).
  set (w := sampleWorld _ _ _).
  destruct (getRelationDisplayText_order (num := Z) lookup relations w) as (-> & _ & _).
  reflexivity.
Defined.


(** C5, at the failing input: a page with a property called __proto__. *)
Lemma autoConversion_omits_proto_witness :
  let config := sampleConfig [] SyncDirection.NOTION_TO_OBSIDIAN in
  let properties : Obj (NotionProp (num := Z)) :=
    [("Name", PTitle [{| plain_text := "Hello" |}]);
     ("__proto__", PCheckbox true)] in
  let w := sampleWorld "newer-wins" [config] ∅ in
  fieldMappings config = []
  /\ exists fm w',
       convertNotionPropertiesToFrontmatter properties config w
       = (Returns fm, w')
       /\ obj_get "__proto__" fm = None
       /\ fm = [("name", VString "Hello")].
Proof.
  cbv zeta. split; [reflexivity|].
  set (config := sampleConfig [] SyncDirection.NOTION_TO_OBSIDIAN).
  set (properties := [("Name", _); ("__proto__", _)]).
  set (w := sampleWorld "newer-wins" [config] ∅).
  destruct (autoConversion_omits_proto (num := Z)
              properties config w eq_refl) as (fm & w' & Hrun & Hnone).
  exists fm, w'. split; [exact Hrun|].
  split; [exact (Hnone "__proto__" (PCheckbox true)
                   (or_intror (or_introl eq_refl)) eq_refl)|].
  assert (E : (convertNotionPropertiesToFrontmatter properties config w).1
              = Returns [("name", VString "Hello")])
    by (vm_compute; reflexivity).
  rewrite Hrun in E. now injection E.
Defined.

(** X24, witness: a name of two words and the two properties of the
    example. *)
Lemma autoConversion_emits_every_property_witness :
  let config := sampleConfig [] SyncDirection.NOTION_TO_OBSIDIAN in
  let properties : Obj (NotionProp (num := Z)) :=
    [("Due  Date", PDate None);
     ("Name", PTitle [{| plain_text := "Hello" |}]);
     ("Done", PCheckbox true)] in
  let w := sampleWorld "newer-wins" [config] ∅ in
  fieldMappings config = []
  /\ frontmatterKey "Due  Date" = "due_date"
  /\ exists fm w',
       convertNotionPropertiesToFrontmatter properties config w
       = (Returns fm, w')
       /\ (exists v, obj_get "due_date" fm = Some v /\ isNullish v = false)
       /\ fm = [("due_date", VString EmptyString); ("name", VString "Hello");
                ("done", VBool true)].
Proof.
  cbv zeta. split; [reflexivity|]. split; [reflexivity|].
  set (config := sampleConfig [] SyncDirection.NOTION_TO_OBSIDIAN).
  set (properties := [("Due  Date", _); _; _]).
  set (w := sampleWorld "newer-wins" [config] ∅).
  destruct (autoConversion_emits_every_property (num := Z)
              properties config w eq_refl)
    as (fm & w' & Hrun & Hall & _).
  exists fm, w'. split; [exact Hrun|].
  split.
  - apply (Hall "Due  Date" (PDate None) (or_introl eq_refl)).
    intros E. vm_compute in E. discriminate E.
  - assert (E : (convertNotionPropertiesToFrontmatter properties config w).1
                = Returns [("due_date", VString EmptyString);
                           ("name", VString "Hello"); ("done", VBool true)])
      by (vm_compute; reflexivity).
    rewrite Hrun in E. now injection E.
Defined.
